(** * LeagueProWordleBackend: the two player importers

    A shallow embedding of [src/scripts/import_players.py] (the roster
    importer, "variant A") and [src/scripts/import_worlds_players.py] (the
    Worlds importer, "variant B"), and the properties of their
    normalisation, shape resolution, early aborts, connection handling and
    upsert.

    Layout: strings and their code points ([Utf8]), the Python values the
    scripts handle and the operations they apply to them ([Py]),
    [json.dumps] and the reading of a JSON text ([Json]), the [%Y-%m-%d]
    parser of [datetime.strptime] ([Strptime]), the players table and the
    batched upsert ([Db]), one module per script ([Roster], [Worlds]), a
    sample installation for the examples ([Sample]), the vocabulary of the
    statements, and the properties. *)

From Stdlib Require Import ZArith Ascii Lia.
From stdpp Require Import base option list gmap strings pretty.

Local Open Scope Z_scope.
Set Warnings "-register-all".

(** ** Strings and their characters *)

Module Utf8.

(** A Python [str] is a sequence of code points.  It is kept as the bytes
    of its UTF-8 encoding, one per [ascii], which is also how a text
    between quotes is read here: two [str] are equal exactly when their
    bytes are, and a text of ASCII characters is its own encoding.  A
    surrogate that stands alone in a [str] is encoded like the other code
    points of its range. *)
Definition byte (c : ascii) : Z := Z.of_nat (nat_of_ascii c).
Definition of_byte (n : Z) : ascii := ascii_of_nat (Z.to_nat n).

(** The bytes [10xxxxxx] that continue a sequence. *)
Definition is_trail (c : ascii) : bool := (0x80 <=? byte c) && (byte c <? 0xC0).

(** The code points of a text.  A byte that starts no sequence is read on
    its own. *)
Fixpoint decode (s : list ascii) : list Z :=
  match s with
  | [] => []
  | a :: r =>
      let n := byte a in
      if n <? 0xC0 then n :: decode r
      else if n <? 0xE0 then
        match r with
        | b :: r' =>
            if is_trail b then ((n - 0xC0) * 64 + (byte b - 0x80)) :: decode r'
            else n :: decode r
        | [] => n :: decode r
        end
      else if n <? 0xF0 then
        match r with
        | b :: c :: r' =>
            if is_trail b && is_trail c
            then (((n - 0xE0) * 64 + (byte b - 0x80)) * 64 + (byte c - 0x80)) :: decode r'
            else n :: decode r
        | _ => n :: decode r
        end
      else
        match r with
        | b :: c :: d :: r' =>
            if is_trail b && is_trail c && is_trail d
            then ((((n - 0xF0) * 64 + (byte b - 0x80)) * 64 + (byte c - 0x80)) * 64
                  + (byte d - 0x80)) :: decode r'
            else n :: decode r
        | _ => n :: decode r
        end
  end.

(** The bytes of a code point. *)
Definition encode (n : Z) : list ascii :=
  if n <? 0x80 then [of_byte n]
  else if n <? 0x800 then [of_byte (0xC0 + n / 64); of_byte (0x80 + n mod 64)]
  else if n <? 0x10000 then
    [of_byte (0xE0 + n / 4096); of_byte (0x80 + n / 64 mod 64); of_byte (0x80 + n mod 64)]
  else
    [of_byte (0xF0 + n / 262144); of_byte (0x80 + n / 4096 mod 64);
     of_byte (0x80 + n / 64 mod 64); of_byte (0x80 + n mod 64)].

Definition code_points (s : string) : list Z := decode (String.list_ascii_of_string s).

Definition str (cs : list Z) : string := String.string_of_list_ascii (cs ≫= encode).

(** [len(s)] *)
Definition len (s : string) : nat := length (code_points s).

(** The code points a decoder of UTF-8 gives: all but the surrogates. *)
Definition scalar (n : Z) : bool :=
  (0 <=? n) && (n <? 0x110000) && negb ((0xD800 <=? n) && (n <? 0xE000)).

(** A text with no surrogate in it: the encoding of its code points. *)
Definition well_formed (s : string) : bool :=
  forallb scalar (code_points s) && String.eqb (str (code_points s)) s.

(** [unicodedata.decimal]: the digit a character of category Nd stands
    for.  These characters come in runs of ten, from the zero of a script to
    its nine; the zeros are those of Unicode 14.0, the version CPython 3.11
    carries. *)
Definition decimal_zeros : list Z :=
  [0x30; 0x660; 0x6F0; 0x7C0; 0x966; 0x9E6; 0xA66; 0xAE6; 0xB66; 0xBE6;
   0xC66; 0xCE6; 0xD66; 0xDE6; 0xE50; 0xED0; 0xF20; 0x1040; 0x1090; 0x17E0;
   0x1810; 0x1946; 0x19D0; 0x1A80; 0x1A90; 0x1B50; 0x1BB0; 0x1C40; 0x1C50;
   0xA620; 0xA8D0; 0xA900; 0xA9D0; 0xA9F0; 0xAA50; 0xABF0; 0xFF10; 0x104A0;
   0x10D30; 0x11066; 0x110F0; 0x11136; 0x111D0; 0x112F0; 0x11450; 0x114D0;
   0x11650; 0x116C0; 0x11730; 0x118E0; 0x11950; 0x11C50; 0x11D50; 0x11DA0;
   0x16A60; 0x16AC0; 0x16B50; 0x1D7CE; 0x1D7D8; 0x1D7E2; 0x1D7EC; 0x1D7F6;
   0x1E140; 0x1E2F0; 0x1E950; 0x1FBF0].

Definition decimal (c : Z) : option Z :=
  match find (fun zero => (zero <=? c) && (c <=? zero + 9)) decimal_zeros with
  | Some zero => Some (c - zero)
  | None => None
  end.

Definition is_decimal (c : Z) : bool :=
  match decimal c with Some _ => true | None => false end.

End Utf8.

(** ** Python values and the operations the scripts apply to them *)

Module Py.

(** What [json.load] returns: [None], [bool], [int], [float], [str], [list]
    and [dict].  An [int] is unbounded.  A [float] is kept as its IEEE-754
    binary64 bit pattern; the scripts only test it for truth and print it.
    A [str] is kept as its UTF-8 encoding ([Utf8]).  A [dict] keeps the
    insertion order of its keys, which [values()] and [items()] follow, so
    it is an association list. *)
Inductive value : Type :=
| JNull
| JBool (b : bool)
| JInt (n : Z)
| JFloat (bits : Z)
| JStr (s : string)
| JList (l : list value)
| JDict (d : list (string * value)).

Abbreviation dict := (list (string * value)).

(** The exceptions that can arise, with the text [str(e)] gives. *)
Variant exn_class : Type :=
| TypeError | ValueError | AttributeError | KeyError | OSError | DatabaseError.

Record exn : Type := Exn { cls : exn_class; text : string }.

Inductive result (A : Type) : Type :=
| Ok (a : A)
| Raise (e : exn).
Arguments Ok {A} a.
Arguments Raise {A} e.

Definition bind {A B : Type} (m : result A) (f : A -> result B) : result B :=
  match m with
  | Ok a => f a
  | Raise e => Raise e
  end.

Notation "'let*' x ':=' m 'in' k" := (bind m (fun x => k))
  (at level 10, x pattern, m at level 100, k at level 200).

(** A loop that threads a value and stops at the first exception. *)
Fixpoint foldM {A B : Type} (f : A -> B -> result A) (a : A) (l : list B)
  : result A :=
  match l with
  | [] => Ok a
  | b :: l' => let* a' := f a b in foldM f a' l'
  end.

(** A loop that appends one result per element. *)
Fixpoint mapM {A B : Type} (f : A -> result B) (l : list A) : result (list B) :=
  match l with
  | [] => Ok []
  | a :: l' => let* b := f a in let* bs := mapM f l' in Ok (b :: bs)
  end.

(** [type(v).__name__] *)
Definition type_name (v : value) : string :=
  match v with
  | JNull => "NoneType"
  | JBool _ => "bool"
  | JInt _ => "int"
  | JFloat _ => "float"
  | JStr _ => "str"
  | JList _ => "list"
  | JDict _ => "dict"
  end.

(** Dictionaries: lookup by key, and [d[k] = v], which overwrites in place
    or appends a new key at the end. *)
Fixpoint dict_lookup (k : string) (d : dict) : option value :=
  match d with
  | [] => None
  | (k', v) :: d' => if String.eqb k' k then Some v else dict_lookup k d'
  end.

Fixpoint dict_set (k : string) (v : value) (d : dict) : dict :=
  match d with
  | [] => [(k, v)]
  | (k', v') :: d' =>
      if String.eqb k' k then (k, v) :: d' else (k', v') :: dict_set k v d'
  end.

Definition dict_keys (d : dict) : list string := map fst d.
Definition dict_values (d : dict) : list value := map snd d.

(** [bool(v)] *)
Definition float_is_zero (bits : Z) : bool :=
  Z.land bits 0x7FFFFFFFFFFFFFFF =? 0.

Definition py_truthy (v : value) : bool :=
  match v with
  | JNull => false
  | JBool b => b
  | JInt n => negb (n =? 0)
  | JFloat bits => negb (float_is_zero bits)
  | JStr s => negb (String.eqb s "")
  | JList l => match l with [] => false | _ => true end
  | JDict d => match d with [] => false | _ => true end
  end.

(** [v is None] *)
Definition is_none (v : value) : bool :=
  match v with JNull => true | _ => false end.

(** [v == s] for a string [s]: only an equal string is equal to it. *)
Definition py_eq_str (v : value) (s : string) : bool :=
  match v with JStr t => String.eqb t s | _ => false end.

(** [isinstance(v, list)], [isinstance(v, dict)] *)
Definition is_list (v : value) : bool :=
  match v with JList _ => true | _ => false end.
Definition is_dict (v : value) : bool :=
  match v with JDict _ => true | _ => false end.

(** [sub in s] on strings: [sub] occurs in [s].  One text occurs in another
    exactly when its bytes occur in the bytes of the other. *)
Fixpoint is_prefix (p s : string) : bool :=
  match p, s with
  | EmptyString, _ => true
  | String a p', String b s' => if Ascii.eqb a b then is_prefix p' s' else false
  | String _ _, EmptyString => false
  end.

Fixpoint is_substring (sub s : string) : bool :=
  is_prefix sub s ||
  match s with
  | EmptyString => false
  | String _ s' => is_substring sub s'
  end.

(** [k in v] for a string [k]: a key of a dict, an element of a list, a
    substring of a string; other values are not containers. *)
Definition py_contains (k : string) (v : value) : result bool :=
  match v with
  | JDict d => Ok (match dict_lookup k d with Some _ => true | None => false end)
  | JList l => Ok (existsb (fun x => py_eq_str x k) l)
  | JStr s => Ok (is_substring k s)
  | _ => Raise (Exn TypeError
                  ("argument of type '" +:+ type_name v +:+ "' is not iterable"))
  end.

(** [repr(k)] of a key without quotes or escapes. *)
Definition py_repr_str (k : string) : string := "'" +:+ k +:+ "'".

(** [v[k]] for a string [k] *)
Definition py_getitem (v : value) (k : string) : result value :=
  match v with
  | JDict d =>
      match dict_lookup k d with
      | Some x => Ok x
      | None => Raise (Exn KeyError (py_repr_str k))
      end
  | JList _ => Raise (Exn TypeError "list indices must be integers or slices, not str")
  | JStr _ => Raise (Exn TypeError "string indices must be integers, not 'str'")
  | _ => Raise (Exn TypeError ("'" +:+ type_name v +:+ "' object is not subscriptable"))
  end.

(** [v[k] = x] for a string [k]; the result is the object after the store. *)
Definition py_setitem (v : value) (k : string) (x : value) : result value :=
  match v with
  | JDict d => Ok (JDict (dict_set k x d))
  | JList _ => Raise (Exn TypeError "list indices must be integers or slices, not str")
  | _ => Raise (Exn TypeError
                  ("'" +:+ type_name v +:+ "' object does not support item assignment"))
  end.

Definition no_attribute (v : value) (attr : string) : exn :=
  Exn AttributeError
    ("'" +:+ type_name v +:+ "' object has no attribute '" +:+ attr +:+ "'").

(** [v.get(k, default)]; [v.get(k)] is [py_get v k JNull]. *)
Definition py_get (v : value) (k : string) (default : value) : result value :=
  match v with
  | JDict d => Ok (match dict_lookup k d with Some x => x | None => default end)
  | _ => Raise (no_attribute v "get")
  end.

(** [v.items()], [list(v.values())] *)
Definition py_items (v : value) : result (list (string * value)) :=
  match v with
  | JDict d => Ok d
  | _ => Raise (no_attribute v "items")
  end.

(** [for x in v]: the elements of a list, the keys of a dict, the
    characters of a string. *)
Definition chars_of (s : string) : list value :=
  (fun c => JStr (Utf8.str [c])) <$> Utf8.code_points s.

Definition py_iter (v : value) : result (list value) :=
  match v with
  | JList l => Ok l
  | JDict d => Ok (map JStr (dict_keys d))
  | JStr s => Ok (chars_of s)
  | _ => Raise (Exn TypeError ("'" +:+ type_name v +:+ "' object is not iterable"))
  end.

End Py.

Import Py.

(** ** [json.dumps] with its default settings *)

Module Json.

Section Dumps.

(** The text the encoder writes for a float ([float.__repr__], or [NaN],
    [Infinity], [-Infinity]), by bit pattern. *)
Variable floatstr : Z -> string.

Definition quote : ascii := ascii_of_nat 34.
Definition backslash : ascii := ascii_of_nat 92.

Definition hex_digit (n : Z) : ascii :=
  if n <? 10 then Utf8.of_byte (48 + n) else Utf8.of_byte (87 + n).

(** [\uXXXX] *)
Definition escape_u (n : Z) : string :=
  String backslash
    (String "u"
       (String (hex_digit (n / 4096))
          (String (hex_digit (n / 256 mod 16))
             (String (hex_digit (n / 16 mod 16))
                (String (hex_digit (n mod 16)) ""))))).

(** One character of [encode_basestring_ascii]: the short escapes, the
    printable ASCII range [' '..'~'] as it is, anything else as [\uXXXX],
    a code point beyond [U+FFFF] as the two surrogates of its pair. *)
Definition escape_char (c : Z) : string :=
  if c =? 34 then String backslash (String quote "")
  else if c =? 92 then String backslash (String backslash "")
  else if c =? 8 then String backslash "b"
  else if c =? 12 then String backslash "f"
  else if c =? 10 then String backslash "n"
  else if c =? 13 then String backslash "r"
  else if c =? 9 then String backslash "t"
  else if (32 <=? c) && (c <=? 126) then String (Utf8.of_byte c) ""
  else if c <? 0x10000 then escape_u c
  else escape_u (0xD800 + (c - 0x10000) / 1024)
       +:+ escape_u (0xDC00 + (c - 0x10000) mod 1024).

Definition escape (s : string) : string :=
  String.concat "" (escape_char <$> Utf8.code_points s).

Definition encode_str (s : string) : string :=
  String quote (escape s +:+ String quote "").

Fixpoint dumps (v : value) : string :=
  match v with
  | JNull => "null"
  | JBool true => "true"
  | JBool false => "false"
  | JInt n => pretty n
  | JFloat bits => floatstr bits
  | JStr s => encode_str s
  | JList l => "[" +:+ String.concat ", " (map dumps l) +:+ "]"
  | JDict d =>
      "{" +:+ String.concat ", "
                (map (fun kv => encode_str (fst kv) +:+ ": " +:+ dumps (snd kv)) d)
          +:+ "}"
  end.

End Dumps.

(** *** Reading a JSON text

    The value a JSON text stands for by the grammar of RFC 8259, which is
    what [json.loads] makes of it.  A number with a fraction or an exponent
    is not read: what a float is written as is a parameter above. *)

Definition is_ws (c : ascii) : bool :=
  let n := Utf8.byte c in (n =? 32) || (n =? 9) || (n =? 10) || (n =? 13).

Fixpoint skip_ws (s : list ascii) : list ascii :=
  match s with
  | c :: r => if is_ws c then skip_ws r else s
  | [] => []
  end.

Definition hex_value (c : ascii) : option Z :=
  let n := Utf8.byte c in
  if (48 <=? n) && (n <=? 57) then Some (n - 48)
  else if (97 <=? n) && (n <=? 102) then Some (n - 87)
  else if (65 <=? n) && (n <=? 70) then Some (n - 55)
  else None.

Definition hex4_value (a b c d : ascii) : option Z :=
  x ← hex_value a; y ← hex_value b; z ← hex_value c; w ← hex_value d;
  Some (((x * 16 + y) * 16 + z) * 16 + w).

(** The character a short escape stands for: the quote, the backslash and
    the slash after a backslash, and [\b], [\f], [\n], [\r], [\t]. *)
Definition unescape (c : ascii) : option Z :=
  let n := Utf8.byte c in
  if n =? 34 then Some 34
  else if n =? 92 then Some 92
  else if n =? 47 then Some 47
  else if n =? 98 then Some 8
  else if n =? 102 then Some 12
  else if n =? 110 then Some 10
  else if n =? 114 then Some 13
  else if n =? 116 then Some 9
  else None.

(** The code point of a high surrogate followed by the escape of a low
    one. *)
Definition surrogate_pair (hi : Z) (e u a b c d : ascii) : option Z :=
  if (0xD800 <=? hi) && (hi <=? 0xDBFF) && (Utf8.byte e =? 92) && (Utf8.byte u =? 117)
  then
    match hex4_value a b c d with
    | Some lo =>
        if (0xDC00 <=? lo) && (lo <=? 0xDFFF)
        then Some (0x10000 + (hi - 0xD800) * 1024 + (lo - 0xDC00))
        else None
    | None => None
    end
  else None.

Definition add_char (c : Z) (m : option (list ascii * list ascii))
  : option (list ascii * list ascii) :=
  '(t, r) ← m; Some (Utf8.encode c ++ t, r).

(** The text of a string, after its opening quote, up to the closing one. *)
Fixpoint read_string (s : list ascii) : option (list ascii * list ascii) :=
  match s with
  | [] => None
  | c :: r =>
      let n := Utf8.byte c in
      if n =? 34 then Some ([], r)
      else if n =? 92 then
        match r with
        | [] => None
        | e :: r1 =>
            if Utf8.byte e =? 117 then
              match r1 with
              | a :: b :: c' :: d :: r2 =>
                  match hex4_value a b c' d with
                  | None => None
                  | Some hi =>
                      match r2 with
                      | e1 :: u1 :: a1 :: b1 :: c1 :: d1 :: r3 =>
                          match surrogate_pair hi e1 u1 a1 b1 c1 d1 with
                          | Some both => add_char both (read_string r3)
                          | None => add_char hi (read_string r2)
                          end
                      | _ => add_char hi (read_string r2)
                      end
                  end
              | _ => None
              end
            else
              match unescape e with
              | Some x => add_char x (read_string r1)
              | None => None
              end
        end
      else if n <? 32 then None
      else '(t, r') ← read_string r; Some (c :: t, r')
  end.

(** An integer: [0], or digits that do not start with [0], after an
    optional [-]. *)
Definition is_digit (c : ascii) : bool :=
  (48 <=? Utf8.byte c) && (Utf8.byte c <=? 57).

Fixpoint read_digits (acc : Z) (s : list ascii) : Z * list ascii :=
  match s with
  | c :: r => if is_digit c then read_digits (10 * acc + (Utf8.byte c - 48)) r else (acc, s)
  | [] => (acc, [])
  end.

Definition read_natural (s : list ascii) : option (Z * list ascii) :=
  match s with
  | c :: r =>
      if Utf8.byte c =? 48 then Some (0, r)
      else if is_digit c then Some (read_digits 0 s)
      else None
  | [] => None
  end.

Definition float_follows (s : list ascii) : bool :=
  match s with
  | c :: _ => (Utf8.byte c =? 46) || (Utf8.byte c =? 101) || (Utf8.byte c =? 69)
  | [] => false
  end.

Definition read_number (s : list ascii) : option (value * list ascii) :=
  match s with
  | c :: r =>
      if Utf8.byte c =? 45 then
        '(n, r') ← read_natural r;
        if float_follows r' then None else Some (JInt (- n), r')
      else
        '(n, r') ← read_natural s;
        if float_follows r' then None else Some (JInt n, r')
  | [] => None
  end.

(** [null], [true], [false] *)
Fixpoint strip_prefix (p s : list ascii) : option (list ascii) :=
  match p, s with
  | [], _ => Some s
  | a :: p', b :: s' =>
      if Utf8.byte a =? Utf8.byte b then strip_prefix p' s' else None
  | _ :: _, [] => None
  end.

Definition read_word (s : list ascii) : option (value * list ascii) :=
  match strip_prefix (String.list_ascii_of_string "null") s with
  | Some r => Some (JNull, r)
  | None =>
      match strip_prefix (String.list_ascii_of_string "true") s with
      | Some r => Some (JBool true, r)
      | None =>
          match strip_prefix (String.list_ascii_of_string "false") s with
          | Some r => Some (JBool false, r)
          | None => None
          end
      end
  end.

(** [dict(pairs)]: a key met again keeps its place and takes the later
    value. *)
Definition dict_of (pairs : list (string * value)) : dict :=
  foldl (fun d kv => dict_set (fst kv) (snd kv) d) [] pairs.

(** A value, the elements of an array after its [[], the members of an
    object after its [{].  [fuel] bounds the nesting and the number of
    items; the length of the text is enough. *)
Fixpoint read_value (fuel : nat) (s : list ascii) : option (value * list ascii) :=
  match fuel with
  | O => None
  | S fuel' =>
      match skip_ws s with
      | [] => None
      | c :: r =>
          let n := Utf8.byte c in
          if n =? 34 then
            '(t, r') ← read_string r; Some (JStr (String.string_of_list_ascii t), r')
          else if n =? 91 then
            match skip_ws r with
            | c' :: r' =>
                if Utf8.byte c' =? 93 then Some (JList [], r')
                else '(l, r'') ← read_elements fuel' r; Some (JList l, r'')
            | [] => None
            end
          else if n =? 123 then
            match skip_ws r with
            | c' :: r' =>
                if Utf8.byte c' =? 125 then Some (JDict [], r')
                else '(d, r'') ← read_members fuel' r; Some (JDict (dict_of d), r'')
            | [] => None
            end
          else
            match read_word (c :: r) with
            | Some found => Some found
            | None => read_number (c :: r)
            end
      end
  end
with read_elements (fuel : nat) (s : list ascii) : option (list value * list ascii) :=
  match fuel with
  | O => None
  | S fuel' =>
      '(v, r) ← read_value fuel' s;
      match skip_ws r with
      | c :: r' =>
          if Utf8.byte c =? 44 then
            '(l, r'') ← read_elements fuel' r'; Some (v :: l, r'')
          else if Utf8.byte c =? 93 then Some ([v], r')
          else None
      | [] => None
      end
  end
with read_members (fuel : nat) (s : list ascii)
  : option (list (string * value) * list ascii) :=
  match fuel with
  | O => None
  | S fuel' =>
      match skip_ws s with
      | c :: r =>
          if Utf8.byte c =? 34 then
            '(k, r1) ← read_string r;
            match skip_ws r1 with
            | c1 :: r2 =>
                if Utf8.byte c1 =? 58 then
                  '(v, r3) ← read_value fuel' r2;
                  match skip_ws r3 with
                  | c3 :: r4 =>
                      if Utf8.byte c3 =? 44 then
                        '(d, r5) ← read_members fuel' r4;
                        Some ((String.string_of_list_ascii k, v) :: d, r5)
                      else if Utf8.byte c3 =? 125 then
                        Some ([(String.string_of_list_ascii k, v)], r4)
                      else None
                  | [] => None
                  end
                else None
            | [] => None
            end
          else None
      | [] => None
      end
  end.

(** [json.loads(s)]: one value, and nothing but blanks after it. *)
Definition loads (s : string) : option value :=
  let chars := String.list_ascii_of_string s in
  match read_value (S (length chars)) chars with
  | Some (v, rest) =>
      match skip_ws rest with
      | [] => Some v
      | _ :: _ => None
      end
  | None => None
  end.

End Json.

(** ** [datetime.datetime.strptime(s, '%Y-%m-%d').date()] *)

Module Strptime.

Record date : Type := Date { year : Z; month : Z; day : Z }.

Definition is_leap (y : Z) : bool :=
  (y mod 4 =? 0) && (negb (y mod 100 =? 0) || (y mod 400 =? 0)).

Definition days_in_month (y m : Z) : Z :=
  if m =? 2 then (if is_leap y then 29 else 28)
  else if (m =? 4) || (m =? 6) || (m =? 9) || (m =? 11) then 30
  else 31.

(** [datetime.date(y, m, d)] *)
Definition make_date (y m d : Z) : result date :=
  if negb ((1 <=? y) && (y <=? 9999)) then
    Raise (Exn ValueError ("year " +:+ pretty y +:+ " is out of range"))
  else if negb ((1 <=? m) && (m <=? 12)) then
    Raise (Exn ValueError "month must be in 1..12")
  else if negb ((1 <=? d) && (d <=? days_in_month y m)) then
    Raise (Exn ValueError "day is out of range for month")
  else Ok (Date y m d).

(** The regular expression [_strptime] compiles the format to, over the
    code points of the text.  A matcher lists its matches at the head of
    the text in the order the backtracking engine tries them, each with the
    text it consumed and the text left. *)
Definition re : Type := list Z -> list (list Z * list Z).

Definition re_class (p : Z -> bool) : re := fun s =>
  match s with
  | c :: r => if p c then [([c], r)] else []
  | [] => []
  end.

Definition re_seq (a b : re) : re := fun s =>
  '(x, r) ← a s; '(y, r') ← b r; [(x ++ y, r')].

Definition re_alt (a b : re) : re := fun s => a s ++ b s.

Definition in_range (lo hi : ascii) (c : Z) : bool :=
  (Utf8.byte lo <=? c) && (c <=? Utf8.byte hi).

(** [\d] in a pattern over [str]: every decimal digit of Unicode.  The
    other classes of the pattern hold ASCII digits, the hyphen and the
    blank, which have no other case, so that [re.IGNORECASE] adds nothing
    to them. *)
Definition re_digit : re := re_class Utf8.is_decimal.
Definition re_range (lo hi : ascii) : re := re_class (in_range lo hi).
Definition re_chr (c : ascii) : re := re_class (Z.eqb (Utf8.byte c)).

(** [%Y] is [\d\d\d\d] *)
Definition re_Y : re := re_seq re_digit (re_seq re_digit (re_seq re_digit re_digit)).

(** [%m] is [1[0-2]|0[1-9]|[1-9]] *)
Definition re_m : re :=
  re_alt (re_seq (re_chr "1") (re_range "0" "2"))
    (re_alt (re_seq (re_chr "0") (re_range "1" "9"))
       (re_range "1" "9")).

(** [%d] is [3[0-1]|[1-2]\d|0[1-9]|[1-9]| [1-9]] *)
Definition re_d : re :=
  re_alt (re_seq (re_chr "3") (re_range "0" "1"))
    (re_alt (re_seq (re_range "1" "2") re_digit)
       (re_alt (re_seq (re_chr "0") (re_range "1" "9"))
          (re_alt (re_range "1" "9")
             (re_seq (re_chr " ") (re_range "1" "9"))))).

(** The matches of [(%Y)-(%m)-(%d)] at the head of the text: the three
    groups and the text left over. *)
Definition match_format (s : list Z)
  : list (list Z * list Z * list Z * list Z) :=
  '(y, r1) ← re_Y s;
  '(_, r2) ← re_chr "-" r1;
  '(m, r3) ← re_m r2;
  '(_, r4) ← re_chr "-" r3;
  '(d, r5) ← re_d r4;
  [(y, m, d, r5)].

(** [int(text)] of a group: decimal digits, of any script, after optional
    blanks. *)
Fixpoint lstrip (s : list Z) : list Z :=
  match s with
  | c :: r => if c =? 32 then lstrip r else s
  | [] => []
  end.

Definition digit_value (c : Z) : Z := default 0 (Utf8.decimal c).

Definition py_int (s : list Z) : Z :=
  foldl (fun n c => 10 * n + digit_value c) 0 (lstrip s).

(** [datetime.datetime.strptime(v, '%Y-%m-%d').date()]: [re.match] takes the
    first match; text left over, no match, or an impossible date raise
    [ValueError]; an argument that is no string raises [TypeError]. *)
Definition strptime_date (v : value) : result date :=
  match v with
  | JStr s =>
      match match_format (Utf8.code_points s) with
      | [] =>
          Raise (Exn ValueError
                   ("time data " +:+ py_repr_str s +:+ " does not match format '%Y-%m-%d'"))
      | (y, m, d, rest) :: _ =>
          match rest with
          | [] => make_date (py_int y) (py_int m) (py_int d)
          | _ :: _ =>
              Raise (Exn ValueError ("unconverted data remains: " +:+ Utf8.str rest))
          end
      end
  | _ =>
      Raise (Exn TypeError
               ("strptime() argument 1 must be str, not " +:+ type_name v))
  end.

End Strptime.

Import Strptime.

(** ** The players table and the batched upsert *)

Module Db.

(** What [open] and [json.load] give: the parsed document,
    [json.JSONDecodeError], or another exception (a missing file, bytes
    that are not UTF-8). *)
Variant load_result : Type :=
| Parsed (data : value)
| InvalidJSON
| LoadFails (e : exn).

(** Whether [conn.close()] has been called on the connection, if one was
    made. *)
Variant conn_state : Type := NotConnected | ConnOpen | ConnClosed.

(** How the import routine ends: it returns to [main], or [exit(1)]
    terminates the process. *)
Variant ending : Type := Returned | Exited (code : Z).

(** The lines the scripts print; both files use the same texts. *)
Definition msg_no_table : string :=
  "The 'players' table does not exist. Please run the init-db script first.".
Definition msg_unsupported : string :=
  "Unsupported JSON format. Please provide a list of players or an object with a 'players' array.".
Definition msg_no_players : string := "No players found in the JSON file.".
Definition msg_invalid_json : string := "Error: Invalid JSON file.".
Definition msg_error (e : exn) : string := "Error importing players: " +:+ text e.
Definition msg_connect (e : exn) : string :=
  "Error connecting to the database: " +:+ text e.
Definition msg_success (n : nat) : string :=
  "Successfully imported " +:+ pretty n +:+ " players.".

Section Table.

(** A row as the script submits it, and the columns of the table the
    statement does not list. *)
Context {Tuple Extra : Type}.

(** The table is created by the init-db script, which is not part of these
    sources, so what driver and table make of a submitted row is a
    parameter: the name the row is filed under, or the error raised when the
    row is rejected (a null name, a value the driver cannot adapt, a
    violated constraint).  [fresh] gives the unlisted columns of a newly
    inserted row. *)
Variable stored_name : Tuple -> result string.
Variable fresh : gmap string (Tuple * Extra) -> Tuple -> Extra.

(** [INSERT INTO players (...) VALUES ... ON CONFLICT (name) DO UPDATE SET
    c = EXCLUDED.c] for every listed column [c] but the name: a new name
    inserts the row, an existing one has all its listed columns overwritten
    and keeps the others. *)
Definition upsert (k : string) (t : Tuple) (tbl : gmap string (Tuple * Extra))
  : gmap string (Tuple * Extra) :=
  match tbl !! k with
  | Some (_, e) => <[k := (t, e)]> tbl
  | None => <[k := (t, fresh tbl t)]> tbl
  end.

(** PostgreSQL refuses a statement that proposes the same name twice. *)
Definition cardinality_violation : exn :=
  Exn DatabaseError "ON CONFLICT DO UPDATE command cannot affect row a second time".

(** One statement over one page of rows; [seen] are the names the statement
    has already touched. *)
Fixpoint run_statement (seen : list string) (tbl : gmap string (Tuple * Extra))
    (page : list Tuple) : result (gmap string (Tuple * Extra)) :=
  match page with
  | [] => Ok tbl
  | t :: rest =>
      let* k := stored_name t in
      if bool_decide (k ∈ seen) then Raise cardinality_violation
      else run_statement (k :: seen) (upsert k t tbl) rest
  end.

(** psycopg2's [_paginate]: consecutive pages of [page_size] rows, the last
    one shorter; [page] is the page being filled. *)
Fixpoint paginate (page_size : nat) (page seq : list Tuple) : list (list Tuple) :=
  match seq with
  | [] => match page with [] => [] | _ :: _ => [page] end
  | x :: rest =>
      let page' := page ++ [x] in
      if (length page' =? page_size)%nat then page' :: paginate page_size [] rest
      else paginate page_size page' rest
  end.

(** [execute_values(cursor, sql, argslist)]: one statement per page of 100
    rows (the default [page_size]), inside the connection's transaction. *)
Definition execute_values (tbl : gmap string (Tuple * Extra)) (argslist : list Tuple)
  : result (gmap string (Tuple * Extra)) :=
  foldM (run_statement []) tbl (paginate 100 [] argslist).

(** The statement and the batch seen whole, for the facts proved below. *)

(** What a statement does to the table with one row it accepts. *)
Definition apply_row (tbl : gmap string (Tuple * Extra)) (t : Tuple)
  : gmap string (Tuple * Extra) :=
  match stored_name t with
  | Ok k => upsert k t tbl
  | Raise _ => tbl
  end.

(** The error a statement raises over a page, if any: it depends on the
    page alone. *)
Fixpoint statement_error (seen : list string) (page : list Tuple) : option exn :=
  match page with
  | [] => None
  | t :: rest =>
      match stored_name t with
      | Raise e => Some e
      | Ok k =>
          if bool_decide (k ∈ seen) then Some cardinality_violation
          else statement_error (k :: seen) rest
      end
  end.

Fixpoint batch_error (pages : list (list Tuple)) : option exn :=
  match pages with
  | [] => None
  | page :: rest =>
      match statement_error [] page with
      | Some e => Some e
      | None => batch_error rest
      end
  end.

(** The listed columns of the row filed under [k]: those of the last
    submitted row with that name. *)
Definition overwrite (k : string) (acc : option Tuple) (t : Tuple) : option Tuple :=
  match stored_name t with
  | Ok k' => if bool_decide (k' = k) then Some t else acc
  | Raise _ => acc
  end.

(** What a run starts from: the file's content, whether
    [psycopg2.connect] succeeds, whether the catalog lists a [players]
    table, and the committed rows. *)
Record world : Type := World {
  load : load_result;
  connects : option exn;
  table_exists : bool;
  players : gmap string (Tuple * Extra)
}.

(** What a run leaves: the lines printed, the connection, the batch handed
    to [execute_values] if that call was reached, the committed rows, and
    how the routine ended. *)
Record outcome : Type := Outcome {
  printed : list string;
  connection : conn_state;
  submitted : option (list Tuple);
  committed : gmap string (Tuple * Extra);
  ended : ending
}.

(** A second run over the same file, against what the first run left. *)
Definition rerun (w : world) (first : outcome) : world :=
  World (load w) (connects w) (table_exists w) (committed first).

End Table.

Arguments world : clear implicits.
Arguments outcome : clear implicits.

End Db.

Import Db.

(** ** [import_players.py] *)

Module Roster.

Definition defaults : dict :=
  [ ("team", JStr "Unknown");
    ("role", JStr "Unknown");
    ("region", JStr "Unknown");
    ("active", JBool true);
    ("year_started", JInt 2010);
    ("nationality", JStr "Unknown");
    ("image_url", JNull) ].

(** One turn of the loop over [defaults.items()]:
    [if key not in player or player[key] is None: player[key] = value]. *)
Definition fill_default (player : value) (entry : string * value) : result value :=
  let '(key, value) := entry in
  let* present := py_contains key player in
  let* missing :=
    (if negb present then Ok true
     else let* current := py_getitem player key in Ok (is_none current)) in
  if missing then py_setitem player key value else Ok player.

Definition process_player_data (player : value) : result value :=
  foldM fill_default player defaults.

(** (name, team, role, region, active, year_started, nationality, image_url) *)
Definition Tuple : Type :=
  value * value * value * value * value * value * value * value.

Definition player_tuple (processed_player : value) : result Tuple :=
  let* name := py_get processed_player "name" JNull in
  let* team := py_get processed_player "team" JNull in
  let* role := py_get processed_player "role" JNull in
  let* region := py_get processed_player "region" JNull in
  let* active := py_get processed_player "active" JNull in
  let* year_started := py_get processed_player "year_started" JNull in
  let* nationality := py_get processed_player "nationality" JNull in
  let* image_url := py_get processed_player "image_url" JNull in
  Ok (name, team, role, region, active, year_started, nationality, image_url).

(** The chain that picks [player_list]; [None] is the [else] branch. *)
Definition resolve_player_list (data : value) : option value :=
  match data with
  | JList _ => Some data
  | JDict d =>
      match dict_lookup "players" d with
      | Some players => Some players
      | None => Some (JList (dict_values d))
      end
  | _ => None
  end.

(** The loop that fills [players_to_insert]. *)
Definition collect_players (player_list : value) : result (list Tuple) :=
  let* records := py_iter player_list in
  mapM (fun player =>
          let* processed_player := process_player_data player in
          player_tuple processed_player)
       records.

Section Run.

Context {Extra : Type}.
Variable stored_name : Tuple -> result string.
Variable fresh : gmap string (Tuple * Extra) -> Tuple -> Extra.

Definition import_players (w : world Tuple Extra) : outcome Tuple Extra :=
  match load w with
  | InvalidJSON =>
      Outcome [msg_invalid_json] NotConnected None (players w) Returned
  | LoadFails e =>
      Outcome [msg_error e] NotConnected None (players w) Returned
  | Parsed data =>
      match connects w with
      | Some e =>
          (* connect_to_db prints and calls exit(1) *)
          Outcome [msg_connect e] NotConnected None (players w) (Exited 1)
      | None =>
          if negb (table_exists w) then
            Outcome [msg_no_table] ConnClosed None (players w) Returned
          else
            match resolve_player_list data with
            | None =>
                Outcome [msg_unsupported] ConnClosed None (players w) Returned
            | Some player_list =>
                match collect_players player_list with
                | Raise e =>
                    (* except Exception: the handler prints and returns *)
                    Outcome [msg_error e] ConnOpen None (players w) Returned
                | Ok [] =>
                    Outcome [msg_no_players] ConnClosed None (players w) Returned
                | Ok players_to_insert =>
                    match execute_values stored_name fresh (players w) players_to_insert with
                    | Raise e =>
                        Outcome [msg_error e] ConnOpen (Some players_to_insert)
                          (players w) Returned
                    | Ok tbl =>
                        Outcome [msg_success (length players_to_insert)] ConnClosed
                          (Some players_to_insert) tbl Returned
                    end
                end
            end
      end
  end.

End Run.

End Roster.

(** ** [import_worlds_players.py] *)

Module Worlds.

Section Normalise.

Variable floatstr : Z -> string.

Record processed_player : Type := Processed {
  name : string;
  main_name : value;
  all_names : string;
  nationality : value;
  residency : value;
  birthdate : option date;
  tournament_role : value;
  team : value;
  appearance : value;
  player_current_role : value;
  is_retired : bool;
  current_team : value;
  current_team_region : value
}.

(** The [try] around [strptime]: [except ValueError: pass] keeps [None];
    any other exception goes on to the caller. *)
Definition try_strptime (raw : value) : result (option date) :=
  match strptime_date raw with
  | Ok d => Ok (Some d)
  | Raise e =>
      match cls e with
      | ValueError => Ok None
      | _ => Raise e
      end
  end.

Definition process_player_data (player_key : string) (player_data : value)
  : result processed_player :=
  (* birthdate *)
  let* has_birthdate := py_contains "birthdate" player_data in
  let* birthdate :=
    (if has_birthdate then
       let* raw := py_getitem player_data "birthdate" in
       if py_truthy raw then try_strptime raw else Ok None
     else Ok None) in
  (* is_retired *)
  let* has_retired := py_contains "isRetired" player_data in
  let* is_retired :=
    (if has_retired then
       let* raw := py_getitem player_data "isRetired" in Ok (py_eq_str raw "1")
     else Ok false) in
  (* all_names *)
  let* has_names := py_contains "allNames" player_data in
  let* all_names :=
    (if has_names then
       let* raw := py_getitem player_data "allNames" in
       Ok (if is_list raw then raw else JList [])
     else Ok (JList [])) in
  (* the processed_player dictionary *)
  let* main_name := py_get player_data "mainName" (JStr player_key) in
  let* nationality := py_get player_data "nationality" JNull in
  let* residency := py_get player_data "Residency" JNull in
  let* tournament_role := py_get player_data "tournament_role" JNull in
  let* team := py_get player_data "team" JNull in
  let* appearance := py_get player_data "appearance" JNull in
  let* player_current_role := py_get player_data "current_role" JNull in
  let* current_team := py_get player_data "current_team" JNull in
  let* current_team_region := py_get player_data "current_team_region" JNull in
  Ok {| name := player_key;
        main_name := main_name;
        all_names := Json.dumps floatstr all_names;
        nationality := nationality;
        residency := residency;
        birthdate := birthdate;
        tournament_role := tournament_role;
        team := team;
        appearance := appearance;
        player_current_role := player_current_role;
        is_retired := is_retired;
        current_team := current_team;
        current_team_region := current_team_region |}.

(** (name, main_name, all_names, nationality, residency, birthdate,
    tournament_role, team, appearance, player_current_role, is_retired,
    current_team, current_team_region) *)
Definition Tuple : Type :=
  string * value * string * value * value * option date * value * value * value
  * value * bool * value * value.

Definition player_tuple (p : processed_player) : Tuple :=
  (name p, main_name p, all_names p, nationality p, residency p, birthdate p,
   tournament_role p, team p, appearance p, player_current_role p, is_retired p,
   current_team p, current_team_region p).

(** The loop over [data.items()] that fills [players_to_insert]. *)
Definition collect_players (data : value) : result (list Tuple) :=
  let* items := py_items data in
  mapM (fun item : string * value =>
          let* processed_player := process_player_data (fst item) (snd item) in
          Ok (player_tuple processed_player))
       items.

Context {Extra : Type}.
Variable stored_name : Tuple -> result string.
Variable fresh : gmap string (Tuple * Extra) -> Tuple -> Extra.

Definition import_worlds_players (w : world Tuple Extra) : outcome Tuple Extra :=
  match load w with
  | InvalidJSON =>
      Outcome [msg_invalid_json] NotConnected None (players w) Returned
  | LoadFails e =>
      Outcome [msg_error e] NotConnected None (players w) Returned
  | Parsed data =>
      match connects w with
      | Some e =>
          (* connect_to_db prints and calls exit(1) *)
          Outcome [msg_connect e] NotConnected None (players w) (Exited 1)
      | None =>
          if negb (table_exists w) then
            Outcome [msg_no_table] ConnClosed None (players w) Returned
          else
            match collect_players data with
            | Raise e =>
                (* except Exception: the handler prints and returns *)
                Outcome [msg_error e] ConnOpen None (players w) Returned
            | Ok [] =>
                Outcome [msg_no_players] ConnClosed None (players w) Returned
            | Ok players_to_insert =>
                match execute_values stored_name fresh (players w) players_to_insert with
                | Raise e =>
                    Outcome [msg_error e] ConnOpen (Some players_to_insert)
                      (players w) Returned
                | Ok tbl =>
                    Outcome [msg_success (length players_to_insert)] ConnClosed
                      (Some players_to_insert) tbl Returned
                end
            end
      end
  end.

End Normalise.

End Worlds.

(** ** A sample installation *)

Module Sample.

(** A players table whose [name] column holds a non-null string, with no
    other constraint and no column besides the listed ones. *)
Definition null_name : exn :=
  Exn DatabaseError "null value in column name violates not-null constraint".

Definition roster_name (t : Roster.Tuple) : result string :=
  match t with
  | (JStr n, _, _, _, _, _, _, _) => Ok n
  | _ => Raise null_name
  end.

Definition worlds_name (t : Worlds.Tuple) : result string :=
  match t with
  | (n, _, _, _, _, _, _, _, _, _, _, _, _) => Ok n
  end.

Definition no_extra {Tuple : Type} (_ : gmap string (Tuple * unit)) (_ : Tuple) : unit := tt.

(** Stands for [float.__repr__] where the document holds no float. *)
Definition floatstr (_ : Z) : string := "nan".

(** A run that finds the database up, the table present and empty. *)
Definition fresh_world {Tuple : Type} (data : value) : world Tuple unit :=
  World (Parsed data) None true ∅.

Definition import_players (data : value) : outcome Roster.Tuple unit :=
  Roster.import_players roster_name no_extra (fresh_world data).

Definition import_worlds_players (data : value) : outcome Worlds.Tuple unit :=
  Worlds.import_worlds_players floatstr worlds_name no_extra (fresh_world data).

End Sample.

(** * The vocabulary of the statements *)

(** ** Roster records *)

(** The value a field ends with, given what the record held for it. *)
Definition filled (current : option value) (default : value) : value :=
  match current with
  | None | Some JNull => default
  | Some given => given
  end.

(** The record after one default was considered, and after all of them. *)
Definition fill_one (d : dict) (key : string) (default : value) : dict :=
  match dict_lookup key d with
  | None | Some JNull => dict_set key default d
  | Some _ => d
  end.

Fixpoint fill_all (d : dict) (defs : dict) : dict :=
  match defs with
  | [] => d
  | (key, default) :: rest => fill_all (fill_one d key default) rest
  end.

(** The record list as the specification words it: a sequence itself; the
    sequence under ["players"] of a mapping that has one; otherwise the
    values of a mapping. *)
Definition spec_player_list (data : value) : option (list value) :=
  match data with
  | JList l => Some l
  | JDict d =>
      match dict_lookup "players" d with
      | Some (JList l) => Some l
      | _ => Some (dict_values d)
      end
  | _ => None
  end.

(** ** Worlds records *)

(** The birthdate step on a record. *)
Definition convert_birthdate (d : dict) : result (option date) :=
  match dict_lookup "birthdate" d with
  | Some raw => if py_truthy raw then Worlds.try_strptime raw else Ok None
  | None => Ok None
  end.

(** The birthdates that raise nothing: none, a falsy value, any string. *)
Definition birthdate_harmless (d : dict) : bool :=
  match dict_lookup "birthdate" d with
  | Some (JStr _) => true
  | Some raw => negb (py_truthy raw)
  | None => true
  end.

(** ** Dates and their texts *)

Definition valid_date (dt : date) : Prop :=
  1 <= year dt <= 9999 /\ 1 <= month dt <= 12
  /\ 1 <= day dt <= days_in_month (year dt) (month dt).

Definition digit_char (n : Z) : ascii := ascii_of_nat (Z.to_nat (48 + n)).

Definition four_digits (y : Z) : list ascii :=
  [digit_char (y / 1000); digit_char (y / 100 mod 10);
   digit_char (y / 10 mod 10); digit_char (y mod 10)].

Definition two_digits (n : Z) : list ascii :=
  [digit_char (n / 10); digit_char (n mod 10)].

(** [date.isoformat()]: the strict [YYYY-MM-DD] text of a date. *)
Definition isoformat (dt : date) : string :=
  String.string_of_list_ascii
    (four_digits (year dt) ++ "-"%char :: two_digits (month dt)
       ++ "-"%char :: two_digits (day dt)).

(** The code points of a text of ASCII characters. *)
Definition codes (x : list ascii) : list Z := Utf8.byte <$> x.

Definition hyphen : Z := Utf8.byte "-".

(** The texts the parser reads as a given year: four decimal digits, each
    of any script. *)
Definition year_spelling (y : Z) (x : list Z) : Prop :=
  exists c1 c2 c3 c4 n1 n2 n3 n4,
    x = [c1; c2; c3; c4]
    /\ Utf8.decimal c1 = Some n1 /\ Utf8.decimal c2 = Some n2
    /\ Utf8.decimal c3 = Some n3 /\ Utf8.decimal c4 = Some n4
    /\ y = 1000 * n1 + 100 * n2 + 10 * n3 + n4.

(** The texts the parser reads as a given month or day: ASCII digits with
    or without the leading zero, and for a day also with a blank in its
    place.  From the 10th to the 29th the last digit of the day may be of
    any script. *)
Definition month_texts (m : Z) : list (list ascii) :=
  if m <? 10 then [two_digits m; [digit_char m]] else [two_digits m].

Definition day_texts (d : Z) : list (list ascii) :=
  if d <? 10 then [two_digits d; [digit_char d]; [" "%char; digit_char d]]
  else [two_digits d].

Definition month_spelling (m : Z) (x : list Z) : Prop :=
  x ∈ codes <$> month_texts m.

Definition day_spelling (d : Z) (x : list Z) : Prop :=
  x ∈ codes <$> day_texts d
  \/ exists c, 10 <= d <= 29 /\ Utf8.decimal c = Some (d mod 10)
               /\ x = [Utf8.byte (digit_char (d / 10)); c].

Definition accepted_spelling (dt : date) (s : string) : Prop :=
  exists yt mt dtx,
    year_spelling (year dt) yt /\ month_spelling (month dt) mt
    /\ day_spelling (day dt) dtx
    /\ Utf8.code_points s = yt ++ hyphen :: mt ++ hyphen :: dtx.

(** The shape every accepted spelling has: eight to ten characters, of
    which the first four are decimal digits, the fifth is the hyphen and
    the last is a decimal digit. *)
Definition date_shaped (s : string) : Prop :=
  (8 <= Utf8.len s <= 10)%nat
  /\ (exists c1 c2 c3 c4 rest,
        Utf8.code_points s = c1 :: c2 :: c3 :: c4 :: hyphen :: rest
        /\ Forall (fun c => Utf8.is_decimal c = true) [c1; c2; c3; c4])
  /\ (exists front c,
        Utf8.code_points s = front ++ [c] /\ Utf8.is_decimal c = true).

(** The month of the pattern between its hyphens. *)
Definition match_month (s : list Z) : list (list Z * list Z) :=
  '(_, r2) ← re_chr "-" s;
  '(m, r3) ← re_m r2;
  '(_, r4) ← re_chr "-" r3;
  [(m, r4)].

(** Every ASCII text of a day is matched first and read as that day. *)
Definition day_reads (d : Z) : bool :=
  forallb (fun dtx =>
    bool_decide (head (re_d (codes dtx)) = Some (codes dtx, []) /\ py_int (codes dtx) = d))
    (day_texts d).

(** ** Reading the pattern *)

(** Every match of [a] splits the text into what was consumed, which
    satisfies [P], and what is left. *)
Definition consumes (a : re) (P : list Z -> Prop) : Prop :=
  forall s x r, (x, r) ∈ a s -> s = x ++ r /\ P x.

Definition chars_between (lo hi : ascii) : list Z :=
  seqZ (Utf8.byte lo) (Utf8.byte hi - Utf8.byte lo + 1).

(** The texts [%Y], [%m] and [%d] match, read back. *)
Definition month_text (x : list Z) : Prop :=
  1 <= py_int x <= 12 /\ month_spelling (py_int x) x.
Definition day_text (x : list Z) : Prop :=
  1 <= py_int x <= 31 /\ day_spelling (py_int x) x.
Definition year_text (x : list Z) : Prop :=
  year_spelling (py_int x) x.

(** ** JSON texts *)

Abbreviation chars := String.list_ascii_of_string.

(** The values whose JSON text is read back as they are: no float in them,
    strings without surrogates, and no key twice in a mapping. *)
Fixpoint readable (v : value) : bool :=
  match v with
  | JNull | JBool _ | JInt _ => true
  | JFloat _ => false
  | JStr s => Utf8.well_formed s
  | JList l => forallb readable l
  | JDict d =>
      forallb (fun kv => Utf8.well_formed (fst kv) && readable (snd kv)) d
      && bool_decide (NoDup (dict_keys d))
  end.

(** The number ASCII digits write after [acc]. *)
Definition digits_value (acc : Z) (ds : list ascii) : Z :=
  foldl (fun n c => 10 * n + (Utf8.byte c - 48)) acc ds.

(** What may follow a number: no digit and no part of a float. *)
Definition delimited (r : list ascii) : bool :=
  match r with
  | c :: _ => negb (Json.is_digit c) && negb (Json.float_follows r)
  | [] => true
  end.

(** Fuel enough to read a value: one for the value and one for each of its
    items, besides what the items take. *)
Fixpoint size (v : value) : nat :=
  match v with
  | JList l => S (list_sum (map (fun x => S (size x)) l))
  | JDict d => S (list_sum (map (fun kv => S (size (snd kv))) d))
  | _ => 1
  end.

(** The text of a member of a mapping. *)
Definition member_text (floatstr : Z -> string) (kv : string * value) : string :=
  Json.encode_str (fst kv) +:+ ": " +:+ Json.dumps floatstr (snd kv).

(** The text of a value is read back as the value, whatever follows it
    that cannot continue a number. *)
Definition reads_back (floatstr : Z -> string) (v : value) : Prop :=
  forall (fuel : nat) (rest : list ascii),
    (size v <= fuel)%nat -> delimited rest = true ->
    Json.read_value fuel
      (String.list_ascii_of_string (Json.dumps floatstr v) ++ rest)
    = Some (v, rest).

(** ** Rows, entries and written tables *)

(** The row [import_players] submits for a record. *)
Definition roster_row (player : dict) : Roster.Tuple :=
  (default JNull (dict_lookup "name" player),
   filled (dict_lookup "team" player) (JStr "Unknown"),
   filled (dict_lookup "role" player) (JStr "Unknown"),
   filled (dict_lookup "region" player) (JStr "Unknown"),
   filled (dict_lookup "active" player) (JBool true),
   filled (dict_lookup "year_started" player) (JInt 2010),
   filled (dict_lookup "nationality" player) (JStr "Unknown"),
   filled (dict_lookup "image_url" player) JNull).

(** An entry the loop gets through: its value is a mapping whose birthdate
    raises nothing. *)
Definition worlds_entry_ok (item : string * value) : bool :=
  match item.2 with
  | JDict d => birthdate_harmless d
  | _ => false
  end.

(** The name column of a Worlds row. *)
Definition worlds_row_name (t : Worlds.Tuple) : string :=
  let '(name, _, _, _, _, _, _, _, _, _, _, _, _) := t in name.

(** A run that wrote: the batch went through and was committed, the run
    reported the number of rows submitted, closed the connection and
    returned. *)
Definition wrote {Tuple Extra : Type} (stored_name : Tuple -> result string)
    (fresh : gmap string (Tuple * Extra) -> Tuple -> Extra)
    (w : world Tuple Extra) (o : outcome Tuple Extra) : Prop :=
  exists rows,
    rows <> []
    /\ execute_values stored_name fresh (players w) rows = Ok (committed o)
    /\ o = Outcome [msg_success (length rows)] ConnClosed (Some rows) (committed o) Returned.

(** Text made of the printable ASCII characters, [' '] to ['~']. *)
Definition printable (c : ascii) : bool :=
  (32 <=? nat_of_ascii c)%nat && (nat_of_ascii c <=? 126)%nat.

Definition ascii_text (s : string) : Prop :=
  Forall (fun c => printable c = true) (String.list_ascii_of_string s).

(** Rows and a table for the examples. *)
Definition caps_row : Roster.Tuple :=
  (JStr "Caps", JStr "G2", JStr "Mid", JStr "EU", JBool true, JInt 2015,
   JStr "Denmark", JNull).
Definition faker_old_row : Roster.Tuple :=
  (JStr "Faker", JStr "SKT", JStr "Mid", JStr "KR", JBool true, JInt 2013,
   JStr "Korea", JNull).
Definition faker_row : Roster.Tuple :=
  (JStr "Faker", JStr "T1", JStr "Mid", JStr "KR", JBool true, JInt 2013,
   JStr "Korea", JNull).
Definition sample_table : gmap string (Roster.Tuple * unit) :=
  {[ "Caps" := (caps_row, tt); "Faker" := (faker_old_row, tt) ]}.

(** * Properties *)

(** ** Dictionaries *)

Lemma dict_lookup_set_eq (k : string) (v : value) (d : dict) :
  dict_lookup k (dict_set k v d) = Some v.
Proof.
  induction d as [|[k' v'] d IH]; simpl.
  - by rewrite String.eqb_refl.
  - destruct (String.eqb k' k) eqn:E; simpl.
    + by rewrite String.eqb_refl.
    + by rewrite E.
Qed.

Lemma dict_lookup_set_ne (k k' : string) (v : value) (d : dict) :
  k <> k' -> dict_lookup k' (dict_set k v d) = dict_lookup k' d.
Proof.
  intros Hne. induction d as [|[k0 v0] d IH]; simpl.
  - destruct (String.eqb k k') eqn:E; [|done].
    by apply String.eqb_eq in E.
  - destruct (String.eqb k0 k) eqn:E; simpl.
    + apply String.eqb_eq in E as ->.
      destruct (String.eqb k k') eqn:E'; [|done].
      by apply String.eqb_eq in E'.
    + by rewrite IH.
Qed.

(** ** The batched upsert *)

Section UpsertFacts.

Context {Tuple Extra : Type}.
Variable stored_name : Tuple -> result string.
Variable fresh : gmap string (Tuple * Extra) -> Tuple -> Extra.

Implicit Types (tbl : gmap string (Tuple * Extra)) (t : Tuple) (k : string).

Abbreviation apply_row := (Db.apply_row stored_name fresh).
Abbreviation statement_error := (Db.statement_error stored_name).
Abbreviation batch_error := (Db.batch_error stored_name).
Abbreviation overwrite := (Db.overwrite stored_name).

Lemma run_statement_eq seen tbl page :
  run_statement stored_name fresh seen tbl page =
  match statement_error seen page with
  | Some e => Raise e
  | None => Ok (foldl apply_row tbl page)
  end.
Proof.
  revert seen tbl. induction page as [|t rest IH]; intros seen tbl; simpl; [done|].
  unfold Db.apply_row at 2. destruct (stored_name t) as [k|e]; simpl; [|done].
  case_bool_decide; [done|]. apply IH.
Qed.

Lemma run_pages_eq tbl pages :
  foldM (run_statement stored_name fresh []) tbl pages =
  match batch_error pages with
  | Some e => Raise e
  | None => Ok (foldl apply_row tbl (concat pages))
  end.
Proof.
  revert tbl. induction pages as [|page rest IH]; intros tbl; simpl; [done|].
  rewrite run_statement_eq. destruct (statement_error [] page); simpl; [done|].
  rewrite IH, foldl_app. done.
Qed.

Lemma execute_values_eq tbl rows :
  execute_values stored_name fresh tbl rows =
  match batch_error (paginate 100 [] rows) with
  | Some e => Raise e
  | None => Ok (foldl apply_row tbl (concat (paginate 100 [] rows)))
  end.
Proof. apply run_pages_eq. Qed.

Lemma apply_row_listed tbl t k :
  fst <$> (apply_row tbl t !! k) = overwrite k (fst <$> (tbl !! k)) t.
Proof.
  unfold Db.apply_row, Db.overwrite, upsert.
  destruct (stored_name t) as [k'|e]; [|done].
  case_bool_decide as Hk.
  - subst k'. destruct (tbl !! k) as [[t0 e0]|]; by rewrite lookup_insert_eq.
  - destruct (tbl !! k') as [[t0 e0]|]; by rewrite lookup_insert_ne.
Qed.

Lemma apply_rows_listed rows tbl k :
  fst <$> (foldl apply_row tbl rows !! k) =
  foldl (overwrite k) (fst <$> (tbl !! k)) rows.
Proof.
  revert tbl. induction rows as [|t rows IH]; intros tbl; simpl; [done|].
  by rewrite IH, apply_row_listed.
Qed.

Lemma overwrite_cases k t :
  (forall acc, overwrite k acc t = Some t) \/ (forall acc, overwrite k acc t = acc).
Proof.
  unfold Db.overwrite. destruct (stored_name t) as [k'|e]; [case_bool_decide|]; auto.
Qed.

Lemma overwrite_twice k rows (acc : option Tuple) :
  foldl (overwrite k) (foldl (overwrite k) acc rows) rows =
  foldl (overwrite k) acc rows.
Proof.
  revert acc. induction rows as [|t rows IH] using rev_ind; intros acc; [done|].
  rewrite !foldl_app. simpl.
  destruct (overwrite_cases k t) as [Hit|Miss].
  - by rewrite !Hit.
  - rewrite !Miss. apply IH.
Qed.

Lemma apply_row_present tbl t k :
  is_Some (tbl !! k) -> is_Some (apply_row tbl t !! k).
Proof.
  intros Hk. unfold Db.apply_row, upsert.
  destruct (stored_name t) as [k'|e]; [|done].
  destruct (decide (k' = k)) as [->|Hne].
  - destruct (tbl !! k) as [[t0 e0]|]; rewrite lookup_insert_eq; eauto.
  - destruct (tbl !! k') as [[t0 e0]|]; by rewrite lookup_insert_ne.
Qed.

Lemma apply_rows_present rows tbl k :
  is_Some (tbl !! k) -> is_Some (foldl apply_row tbl rows !! k).
Proof.
  revert tbl. induction rows as [|t rows IH]; intros tbl Hk; simpl; [done|].
  by apply IH, apply_row_present.
Qed.

Lemma apply_row_files tbl t k :
  stored_name t = Ok k -> is_Some (apply_row tbl t !! k).
Proof.
  intros Hk. unfold Db.apply_row, upsert. rewrite Hk.
  destruct (tbl !! k) as [[t0 e0]|]; rewrite lookup_insert_eq; eauto.
Qed.

Lemma apply_rows_files rows tbl t k :
  t ∈ rows -> stored_name t = Ok k -> is_Some (foldl apply_row tbl rows !! k).
Proof.
  revert tbl. induction rows as [|t' rows IH]; intros tbl Hin Hk; simpl.
  - by apply elem_of_nil in Hin.
  - apply elem_of_cons in Hin as [<-|Hin].
    + by apply apply_rows_present, apply_row_files.
    + by eapply IH.
Qed.

(** A row whose name is already in the table leaves the unlisted columns
    of every row as they are. *)
Lemma apply_row_unlisted tbl t k :
  (forall k', stored_name t = Ok k' -> is_Some (tbl !! k')) ->
  snd <$> (apply_row tbl t !! k) = snd <$> (tbl !! k).
Proof.
  intros Hpresent. unfold Db.apply_row, upsert.
  destruct (stored_name t) as [k'|e] eqn:Hk'; [|done].
  destruct (Hpresent k' eq_refl) as [[t0 e0] Hrow]. rewrite Hrow.
  destruct (decide (k' = k)) as [->|Hne].
  - by rewrite lookup_insert_eq, Hrow.
  - by rewrite lookup_insert_ne.
Qed.

Lemma apply_rows_unlisted rows tbl k :
  (forall t k', t ∈ rows -> stored_name t = Ok k' -> is_Some (tbl !! k')) ->
  snd <$> (foldl apply_row tbl rows !! k) = snd <$> (tbl !! k).
Proof.
  revert tbl. induction rows as [|t rows IH]; intros tbl Hpresent; simpl; [done|].
  rewrite IH.
  - apply apply_row_unlisted. intros k' Hk'. eapply Hpresent; [left|done].
  - intros t' k' Hin Hk'. apply apply_row_present.
    eapply Hpresent; [by right|done].
Qed.

Lemma option_pair_eq (x y : option (Tuple * Extra)) :
  fst <$> x = fst <$> y -> snd <$> x = snd <$> y -> x = y.
Proof.
  destruct x as [[a b]|], y as [[a' b']|]; simpl; intros H1 H2;
    by simplify_eq.
Qed.

(** Submitting the same rows again changes nothing. *)
Lemma apply_rows_twice rows tbl :
  foldl apply_row (foldl apply_row tbl rows) rows = foldl apply_row tbl rows.
Proof.
  apply map_eq. intros k. apply option_pair_eq.
  - by rewrite !apply_rows_listed, overwrite_twice.
  - apply apply_rows_unlisted. intros t k' Hin Hk'. by eapply apply_rows_files.
Qed.

Lemma execute_values_twice tbl rows :
  (let* once := execute_values stored_name fresh tbl rows in
   execute_values stored_name fresh once rows)
  = execute_values stored_name fresh tbl rows.
Proof.
  rewrite (execute_values_eq tbl).
  destruct (batch_error (paginate 100 [] rows)) eqn:E; simpl; [done|].
  by rewrite execute_values_eq, E, apply_rows_twice.
Qed.

End UpsertFacts.

(** ** Running an importer again over what it left *)

Section Reruns.

Context {ExtraA ExtraB : Type}.
Variable floatstr : Z -> string.
Variable stored_name_A : Roster.Tuple -> result string.
Variable fresh_A : gmap string (Roster.Tuple * ExtraA) -> Roster.Tuple -> ExtraA.
Variable stored_name_B : Worlds.Tuple -> result string.
Variable fresh_B : gmap string (Worlds.Tuple * ExtraB) -> Worlds.Tuple -> ExtraB.

Lemma execute_values_again {Tuple Extra : Type} (stored_name : Tuple -> result string)
    (fresh : gmap string (Tuple * Extra) -> Tuple -> Extra)
    (tbl once : gmap string (Tuple * Extra)) (rows : list Tuple) :
  execute_values stored_name fresh tbl rows = Ok once ->
  execute_values stored_name fresh once rows = Ok once.
Proof.
  intros Hfirst. pose proof (execute_values_twice stored_name fresh tbl rows) as Htwice.
  by rewrite Hfirst in Htwice.
Qed.

Lemma import_players_rerun (w : world Roster.Tuple ExtraA) :
  committed (Roster.import_players stored_name_A fresh_A
               (rerun w (Roster.import_players stored_name_A fresh_A w)))
  = committed (Roster.import_players stored_name_A fresh_A w).
Proof.
  unfold Roster.import_players, rerun. simpl.
  destruct (load w) as [data| |e]; simpl; [|done..].
  destruct (connects w); simpl; [done|].
  destruct (table_exists w); simpl; [|done].
  destruct (Roster.resolve_player_list data) as [player_list|]; simpl; [|done].
  destruct (Roster.collect_players player_list) as [[|row rows]|e]; simpl; [done| |done].
  destruct (execute_values _ _ (players w) _) as [once|e] eqn:Hfirst; simpl.
  - by rewrite (execute_values_again _ _ _ _ _ Hfirst).
  - by rewrite Hfirst.
Qed.

Lemma import_worlds_players_rerun (w : world Worlds.Tuple ExtraB) :
  committed (Worlds.import_worlds_players floatstr stored_name_B fresh_B
               (rerun w (Worlds.import_worlds_players floatstr stored_name_B fresh_B w)))
  = committed (Worlds.import_worlds_players floatstr stored_name_B fresh_B w).
Proof.
  unfold Worlds.import_worlds_players, rerun. simpl.
  destruct (load w) as [data| |e]; simpl; [|done..].
  destruct (connects w); simpl; [done|].
  destruct (table_exists w); simpl; [|done].
  destruct (Worlds.collect_players floatstr data) as [[|row rows]|e]; simpl; [done| |done].
  destruct (execute_values _ _ (players w) _) as [once|e] eqn:Hfirst; simpl.
  - by rewrite (execute_values_again _ _ _ _ _ Hfirst).
  - by rewrite Hfirst.
Qed.

End Reruns.

(** C9.  Running either importer twice over the same file leaves the table
    the first run left: the batched upsert applied again to the table it
    produced gives that table back (and fails again, changing nothing, when
    it failed the first time), for every table, every batch and every
    schema; so the rows committed by a second run of [import_players] or of
    [import_worlds_players] are those committed by the first. *)
Theorem rerun_changes_nothing :
  (forall (Tuple Extra : Type) (stored_name : Tuple -> result string)
          (fresh : gmap string (Tuple * Extra) -> Tuple -> Extra)
          (tbl : gmap string (Tuple * Extra)) (rows : list Tuple),
      (let* once := execute_values stored_name fresh tbl rows in
       execute_values stored_name fresh once rows)
      = execute_values stored_name fresh tbl rows)
  /\ (forall (Extra : Type) stored_name fresh (w : world Roster.Tuple Extra),
        committed (Roster.import_players stored_name fresh
                     (rerun w (Roster.import_players stored_name fresh w)))
        = committed (Roster.import_players stored_name fresh w))
  /\ (forall (Extra : Type) floatstr stored_name fresh (w : world Worlds.Tuple Extra),
        committed (Worlds.import_worlds_players floatstr stored_name fresh
                     (rerun w (Worlds.import_worlds_players floatstr stored_name fresh w)))
        = committed (Worlds.import_worlds_players floatstr stored_name fresh w)).
Proof.
  split; [|split].
  - intros. apply execute_values_twice.
  - intros. apply import_players_rerun.
  - intros. apply import_worlds_players_rerun.
Qed.

(** ** [import_players.py]: filling in the defaults *)

Lemma fill_default_dict (d : dict) (key : string) (default : value) :
  Roster.fill_default (JDict d) (key, default) = Ok (JDict (fill_one d key default)).
Proof.
  unfold Roster.fill_default, fill_one. simpl.
  destruct (dict_lookup key d) as [[]|]; reflexivity.
Qed.

Lemma foldM_fill_default (defs d : dict) :
  foldM Roster.fill_default (JDict d) defs = Ok (JDict (fill_all d defs)).
Proof.
  revert d. induction defs as [|[key default] rest IH]; intros d; [done|].
  cbn [foldM]. rewrite fill_default_dict. cbn [bind]. apply IH.
Qed.

Lemma lookup_fill_one (d : dict) (key field : string) (default : value) :
  dict_lookup field (fill_one d key default) =
  if String.eqb key field then Some (filled (dict_lookup key d) default)
  else dict_lookup field d.
Proof.
  unfold fill_one, filled.
  destruct (String.eqb key field) eqn:E.
  - apply String.eqb_eq in E as <-.
    destruct (dict_lookup key d) as [[]|] eqn:Hcur;
      rewrite ?dict_lookup_set_eq, ?Hcur; reflexivity.
  - apply String.eqb_neq in E.
    destruct (dict_lookup key d) as [[]|];
      rewrite ?dict_lookup_set_ne by done; reflexivity.
Qed.

Lemma dict_lookup_not_key (d : dict) (k : string) :
  k ∉ dict_keys d -> dict_lookup k d = None.
Proof.
  induction d as [|[k' v] d IH]; simpl; [done|].
  intros Hnot. apply not_elem_of_cons in Hnot as [Hne Hnot].
  destruct (String.eqb k' k) eqn:E; [|auto].
  apply String.eqb_eq in E. congruence.
Qed.

Lemma lookup_fill_all (defs d : dict) (field : string) :
  NoDup (dict_keys defs) ->
  dict_lookup field (fill_all d defs) =
  match dict_lookup field defs with
  | Some default => Some (filled (dict_lookup field d) default)
  | None => dict_lookup field d
  end.
Proof.
  revert d. induction defs as [|[key default] rest IH]; intros d Hnodup; [done|].
  apply NoDup_cons in Hnodup as [Hfresh Hnodup]. simpl.
  rewrite IH, lookup_fill_one by done.
  destruct (String.eqb key field) eqn:E; [|done].
  apply String.eqb_eq in E as <-.
  by rewrite (dict_lookup_not_key rest key).
Qed.

Lemma defaults_keys_distinct : NoDup (dict_keys Roster.defaults).
Proof. apply (bool_decide_unpack _). by vm_compute. Qed.

(** The normalised record of a record: the same dictionary with the
    defaults filled in, never an exception. *)
Lemma roster_process_record (player : dict) :
  Roster.process_player_data (JDict player)
  = Ok (JDict (fill_all player Roster.defaults)).
Proof. apply foldM_fill_default. Qed.

Lemma lookup_normalised (player : dict) (field : string) :
  dict_lookup field (fill_all player Roster.defaults) =
  match dict_lookup field Roster.defaults with
  | Some default => Some (filled (dict_lookup field player) default)
  | None => dict_lookup field player
  end.
Proof. apply lookup_fill_all, defaults_keys_distinct. Qed.

(** C1.  For a roster record and each of the seven optional fields with its
    documented default: the record is normalised without error, and the
    field of the normalised record holds the default when the record lacks
    the field, the default again when the record holds null for it, and the
    record's own value when it holds one that is not null. *)
Theorem roster_defaults (player : dict) (field : string) (default : value) :
  In (field, default)
     [ ("team", JStr "Unknown"); ("role", JStr "Unknown");
       ("region", JStr "Unknown"); ("nationality", JStr "Unknown");
       ("active", JBool true); ("year_started", JInt 2010);
       ("image_url", JNull) ] ->
  exists normalised : dict,
    Roster.process_player_data (JDict player) = Ok (JDict normalised)
    /\ (dict_lookup field player = None ->
        dict_lookup field normalised = Some default)
    /\ (dict_lookup field player = Some JNull ->
        dict_lookup field normalised = Some default)
    /\ (forall given, dict_lookup field player = Some given -> given <> JNull ->
        dict_lookup field normalised = Some given).
Proof.
  intros Hfield. exists (fill_all player Roster.defaults).
  split; [apply roster_process_record|].
  assert (dict_lookup field Roster.defaults = Some default) as Hdefault.
  { simpl in Hfield.
    destruct Hfield as [H|[H|[H|[H|[H|[H|[H|[]]]]]]]]; by inversion H. }
  rewrite lookup_normalised, Hdefault.
  split; [|split].
  - by intros ->.
  - by intros ->.
  - intros given -> Hnot_null. by destruct given.
Qed.

Lemma roster_defaults_witness :
  exists normalised : dict,
    Roster.process_player_data
      (JDict [("name", JStr "Faker"); ("team", JNull); ("role", JStr "mid")])
    = Ok (JDict normalised)
    /\ dict_lookup "team" normalised = Some (JStr "Unknown").
Proof.
  destruct (roster_defaults
              [("name", JStr "Faker"); ("team", JNull); ("role", JStr "mid")]
              "team" (JStr "Unknown")) as (normalised & Hrun & _ & Hnull & _).
  - simpl. auto.
  - exists normalised. split; [exact Hrun|]. apply Hnull. reflexivity.
Defined.

(** The scenario of the specification: [[{"name": "Faker"}]]. *)
Example roster_faker :
  submitted (Sample.import_players (JList [JDict [("name", JStr "Faker")]]))
  = Some [(JStr "Faker", JStr "Unknown", JStr "Unknown", JStr "Unknown",
           JBool true, JInt 2010, JStr "Unknown", JNull)].
Proof. reflexivity. Qed.

(** ** [import_players.py]: the shape of the document *)

Section RosterRuns.

Context {Extra : Type}.
Variable stored_name : Roster.Tuple -> result string.
Variable fresh : gmap string (Roster.Tuple * Extra) -> Roster.Tuple -> Extra.

Abbreviation import_players := (Roster.import_players stored_name fresh).

Lemma import_players_no_table (w : world Roster.Tuple Extra) (data : value) :
  load w = Parsed data -> connects w = None -> table_exists w = false ->
  import_players w = Outcome [msg_no_table] ConnClosed None (players w) Returned.
Proof. unfold Roster.import_players. by intros -> -> ->. Qed.

Lemma import_players_unsupported (w : world Roster.Tuple Extra) (data : value) :
  load w = Parsed data -> connects w = None -> table_exists w = true ->
  Roster.resolve_player_list data = None ->
  import_players w = Outcome [msg_unsupported] ConnClosed None (players w) Returned.
Proof. unfold Roster.import_players. by intros -> -> -> ->. Qed.

Lemma import_players_empty (w : world Roster.Tuple Extra) (data player_list : value) :
  load w = Parsed data -> connects w = None -> table_exists w = true ->
  Roster.resolve_player_list data = Some player_list ->
  py_iter player_list = Ok [] ->
  import_players w = Outcome [msg_no_players] ConnClosed None (players w) Returned.
Proof.
  unfold Roster.import_players, Roster.collect_players.
  by intros -> -> -> -> ->.
Qed.

Lemma import_players_submits (w : world Roster.Tuple Extra) (data player_list : value)
    (rows : list Roster.Tuple) :
  load w = Parsed data -> connects w = None -> table_exists w = true ->
  Roster.resolve_player_list data = Some player_list ->
  Roster.collect_players player_list = Ok rows -> rows <> [] ->
  submitted (import_players w) = Some rows.
Proof.
  unfold Roster.import_players. intros -> -> -> -> -> Hrows.
  destruct rows as [|row rows]; [done|]. simpl.
  by destruct (execute_values _ _ _ _).
Qed.

(** Any exception after the connection was made ends in the handler, which
    prints and returns: [conn.close()] is not called. *)
Lemma import_players_record_error (w : world Roster.Tuple Extra)
    (data player_list : value) (e : exn) :
  load w = Parsed data -> connects w = None -> table_exists w = true ->
  Roster.resolve_player_list data = Some player_list ->
  Roster.collect_players player_list = Raise e ->
  import_players w = Outcome [msg_error e] ConnOpen None (players w) Returned.
Proof. unfold Roster.import_players. by intros -> -> -> -> ->. Qed.

Lemma import_players_upsert_error (w : world Roster.Tuple Extra)
    (data player_list : value) (rows : list Roster.Tuple) (e : exn) :
  load w = Parsed data -> connects w = None -> table_exists w = true ->
  Roster.resolve_player_list data = Some player_list ->
  Roster.collect_players player_list = Ok rows -> rows <> [] ->
  execute_values stored_name fresh (players w) rows = Raise e ->
  import_players w = Outcome [msg_error e] ConnOpen (Some rows) (players w) Returned.
Proof.
  unfold Roster.import_players. intros -> -> -> -> -> Hrows ->.
  by destruct rows.
Qed.

End RosterRuns.

(** C3, as the code has it.  A sequence is the record list itself.  A
    mapping that has the key ["players"] gives the value under that key,
    whatever it is: when that value is a sequence, that sequence.  A mapping
    without the key gives the sequence of its values.  Any other document
    is refused: once the table is known to exist, the run prints the
    unsupported-format message, closes the connection and returns, and
    nothing is submitted or committed.  What was resolved is what is
    iterated: the rows collected from it are the batch submitted. *)
Theorem roster_shape_resolution {Extra : Type}
    (stored_name : Roster.Tuple -> result string)
    (fresh : gmap string (Roster.Tuple * Extra) -> Roster.Tuple -> Extra)
    (data : value) :
  (forall l, data = JList l -> Roster.resolve_player_list data = Some (JList l))
  /\ (forall d players, data = JDict d -> dict_lookup "players" d = Some players ->
        Roster.resolve_player_list data = Some players)
  /\ (forall d, data = JDict d -> dict_lookup "players" d = None ->
        Roster.resolve_player_list data = Some (JList (dict_values d)))
  /\ (is_list data = false -> is_dict data = false ->
        Roster.resolve_player_list data = None
        /\ forall w : world Roster.Tuple Extra,
            load w = Parsed data -> connects w = None -> table_exists w = true ->
            Roster.import_players stored_name fresh w
            = Outcome [msg_unsupported] ConnClosed None (players w) Returned)
  /\ (forall (w : world Roster.Tuple Extra) player_list rows,
        load w = Parsed data -> connects w = None -> table_exists w = true ->
        Roster.resolve_player_list data = Some player_list ->
        Roster.collect_players player_list = Ok rows -> rows <> [] ->
        submitted (Roster.import_players stored_name fresh w) = Some rows).
Proof.
  repeat split.
  - by intros l ->.
  - intros d players -> Hplayers. simpl. by rewrite Hplayers.
  - intros d -> Hplayers. simpl. by rewrite Hplayers.
  - by destruct data.
  - intros w Hload Hconn Htable.
    eapply import_players_unsupported; [done..|]. by destruct data.
  - intros w player_list rows. apply import_players_submits.
Qed.

(** The scenario of the specification: [{"players": [{"name": "X",
    "team": "T1"}]}] resolves to the list under ["players"]. *)
Lemma roster_shape_resolution_witness :
  Roster.resolve_player_list
    (JDict [("players", JList [JDict [("name", JStr "X"); ("team", JStr "T1")]])])
  = Some (JList [JDict [("name", JStr "X"); ("team", JStr "T1")]]).
Proof.
  apply (proj1 (proj2 (roster_shape_resolution Sample.roster_name Sample.no_extra
                         (JDict [("players",
                                  JList [JDict [("name", JStr "X"); ("team", JStr "T1")]])])))
               [("players", JList [JDict [("name", JStr "X"); ("team", JStr "T1")]])]);
    reflexivity.
Defined.

(** C3 as the specification states it fails on a mapping whose ["players"]
    is a single record: by the specification its values, the one record,
    are the record list, and that list is imported; the code takes the
    record itself as the list, iterates its keys, and the run ends in the
    error handler with nothing submitted.  And a document that is neither
    sequence nor mapping is not answered with the unsupported-format
    message when the table is missing: the table check comes first. *)
Lemma roster_shape_counterexample :
  spec_player_list
    (JDict [("players", JDict [("name", JStr "X"); ("team", JStr "T1")])])
  = Some [JDict [("name", JStr "X"); ("team", JStr "T1")]]
  /\ Roster.resolve_player_list
       (JDict [("players", JDict [("name", JStr "X"); ("team", JStr "T1")])])
     = Some (JDict [("name", JStr "X"); ("team", JStr "T1")])
  /\ Sample.import_players
       (JDict [("players", JDict [("name", JStr "X"); ("team", JStr "T1")])])
     = Outcome
         [msg_error (Exn TypeError "'str' object does not support item assignment")]
         ConnOpen None ∅ Returned
  /\ submitted
       (Sample.import_players (JList [JDict [("name", JStr "X"); ("team", JStr "T1")]]))
     = Some [(JStr "X", JStr "T1", JStr "Unknown", JStr "Unknown", JBool true,
              JInt 2010, JStr "Unknown", JNull)]
  /\ printed
       (Roster.import_players Sample.roster_name Sample.no_extra
          (World (Parsed (JInt 7)) None false ∅))
     = [msg_no_table].
Proof. repeat split. Qed.

(** ** [import_worlds_players.py]: the runs *)

Section WorldsRuns.

Context {Extra : Type}.
Variable floatstr : Z -> string.
Variable stored_name : Worlds.Tuple -> result string.
Variable fresh : gmap string (Worlds.Tuple * Extra) -> Worlds.Tuple -> Extra.

Abbreviation import_worlds_players :=
  (Worlds.import_worlds_players floatstr stored_name fresh).

Lemma import_worlds_players_no_table (w : world Worlds.Tuple Extra) (data : value) :
  load w = Parsed data -> connects w = None -> table_exists w = false ->
  import_worlds_players w
  = Outcome [msg_no_table] ConnClosed None (players w) Returned.
Proof. unfold Worlds.import_worlds_players. by intros -> -> ->. Qed.

(** There is no shape check: a document that is no mapping fails at
    [data.items()] and ends in the handler. *)
Lemma import_worlds_players_no_mapping (w : world Worlds.Tuple Extra) (data : value) :
  load w = Parsed data -> connects w = None -> table_exists w = true ->
  is_dict data = false ->
  import_worlds_players w
  = Outcome [msg_error (no_attribute data "items")] ConnOpen None (players w) Returned.
Proof.
  unfold Worlds.import_worlds_players, Worlds.collect_players.
  intros -> -> -> Hshape. by destruct data.
Qed.

Lemma import_worlds_players_empty (w : world Worlds.Tuple Extra) :
  load w = Parsed (JDict []) -> connects w = None -> table_exists w = true ->
  import_worlds_players w
  = Outcome [msg_no_players] ConnClosed None (players w) Returned.
Proof. unfold Worlds.import_worlds_players. by intros -> -> ->. Qed.

Lemma import_worlds_players_record_error (w : world Worlds.Tuple Extra)
    (data : value) (e : exn) :
  load w = Parsed data -> connects w = None -> table_exists w = true ->
  Worlds.collect_players floatstr data = Raise e ->
  import_worlds_players w
  = Outcome [msg_error e] ConnOpen None (players w) Returned.
Proof. unfold Worlds.import_worlds_players. by intros -> -> -> ->. Qed.

Lemma import_worlds_players_upsert_error (w : world Worlds.Tuple Extra)
    (data : value) (rows : list Worlds.Tuple) (e : exn) :
  load w = Parsed data -> connects w = None -> table_exists w = true ->
  Worlds.collect_players floatstr data = Ok rows -> rows <> [] ->
  execute_values stored_name fresh (players w) rows = Raise e ->
  import_worlds_players w
  = Outcome [msg_error e] ConnOpen (Some rows) (players w) Returned.
Proof.
  unfold Worlds.import_worlds_players. intros -> -> -> -> Hrows ->.
  by destruct rows.
Qed.

End WorldsRuns.

(** C5.  Once the document is parsed and the connection made, each early
    abort prints one message, submits and commits nothing, and returns to
    the caller.  In [import_players]: the table is missing; the document is
    neither a sequence nor a mapping; the resolved record list is empty.
    In [import_worlds_players]: the table is missing; the mapping is empty;
    and a document that is no mapping, for which that script has no check
    of its own, ends in the handler with the same three effects. *)
Theorem early_aborts :
  (forall (Extra : Type) stored_name fresh (w : world Roster.Tuple Extra) data,
      load w = Parsed data -> connects w = None ->
      (table_exists w = false ->
       Roster.import_players stored_name fresh w
       = Outcome [msg_no_table] ConnClosed None (players w) Returned)
      /\ (table_exists w = true -> Roster.resolve_player_list data = None ->
          Roster.import_players stored_name fresh w
          = Outcome [msg_unsupported] ConnClosed None (players w) Returned)
      /\ (table_exists w = true ->
          forall player_list,
            Roster.resolve_player_list data = Some player_list ->
            py_iter player_list = Ok [] ->
            Roster.import_players stored_name fresh w
            = Outcome [msg_no_players] ConnClosed None (players w) Returned))
  /\ (forall (Extra : Type) floatstr stored_name fresh (w : world Worlds.Tuple Extra) data,
        load w = Parsed data -> connects w = None ->
        (table_exists w = false ->
         Worlds.import_worlds_players floatstr stored_name fresh w
         = Outcome [msg_no_table] ConnClosed None (players w) Returned)
        /\ (table_exists w = true -> is_dict data = false ->
            exists e,
              Worlds.import_worlds_players floatstr stored_name fresh w
              = Outcome [msg_error e] ConnOpen None (players w) Returned)
        /\ (table_exists w = true -> data = JDict [] ->
            Worlds.import_worlds_players floatstr stored_name fresh w
            = Outcome [msg_no_players] ConnClosed None (players w) Returned)).
Proof.
  split.
  - intros Extra stored_name fresh w data Hload Hconn. repeat split.
    + intros. by eapply import_players_no_table.
    + intros. by eapply import_players_unsupported.
    + intros. by eapply import_players_empty.
  - intros Extra floatstr stored_name fresh w data Hload Hconn. repeat split.
    + intros. by eapply import_worlds_players_no_table.
    + intros. eexists. by eapply import_worlds_players_no_mapping.
    + intros Htable ->. by eapply import_worlds_players_empty.
Qed.

Lemma early_aborts_witness :
  Roster.import_players Sample.roster_name Sample.no_extra
    (World (Parsed (JInt 7)) None true ∅)
  = Outcome [msg_unsupported] ConnClosed None ∅ Returned.
Proof.
  apply (proj1 (proj2 (proj1 early_aborts unit Sample.roster_name Sample.no_extra
                         (World (Parsed (JInt 7)) None true ∅) (JInt 7)
                         eq_refl eq_refl)));
    reflexivity.
Defined.

(** C4.  The connection is not closed on the error paths.  A roster record
    without a name, which the table rejects at the upsert; a roster list
    holding a number; a Worlds record whose birthdate is a number: each run
    ends in the handler with the connection still open. *)
Theorem error_paths_leave_connection_open :
  Sample.import_players (JList [JDict [("team", JStr "T1")]])
  = Outcome [msg_error Sample.null_name] ConnOpen
      (Some [(JNull, JStr "T1", JStr "Unknown", JStr "Unknown", JBool true,
              JInt 2010, JStr "Unknown", JNull)])
      ∅ Returned
  /\ connection (Sample.import_players (JList [JInt 1])) = ConnOpen
  /\ connection
       (Sample.import_worlds_players
          (JDict [("p1", JDict [("birthdate", JInt 19950601)])]))
     = ConnOpen.
Proof. repeat split. Qed.

(** ** Code points *)

Lemma byte_range (c : ascii) : 0 <= Utf8.byte c < 256.
Proof. unfold Utf8.byte. pose proof (nat_ascii_bounded c). lia. Qed.

Lemma byte_of_byte (n : Z) : 0 <= n < 256 -> Utf8.byte (Utf8.of_byte n) = n.
Proof.
  intros Hn. unfold Utf8.byte, Utf8.of_byte.
  rewrite nat_ascii_embedding by lia. lia.
Qed.

Lemma is_trail_of_byte (n : Z) :
  0 <= n < 64 -> Utf8.is_trail (Utf8.of_byte (0x80 + n)) = true.
Proof. intros Hn. unfold Utf8.is_trail. rewrite byte_of_byte by lia. lia. Qed.

Ltac by_division := Z.to_euclidean_division_equations; lia.

(** Decoding undoes encoding, one code point at a time. *)
Lemma decode_encode (n : Z) (r : list ascii) :
  0 <= n < 0x110000 -> Utf8.decode (Utf8.encode n ++ r) = n :: Utf8.decode r.
Proof.
  intros Hn. unfold Utf8.encode.
  destruct (n <? 0x80) eqn:H1; [|destruct (n <? 0x800) eqn:H2;
                                  [|destruct (n <? 0x10000) eqn:H3]];
    cbn [app Utf8.decode].
  - rewrite byte_of_byte by lia.
    assert ((n <? 0xC0) = true) as -> by lia. done.
  - rewrite byte_of_byte by by_division.
    assert ((0xC0 + n / 64 <? 0xC0) = false) as -> by by_division.
    assert ((0xC0 + n / 64 <? 0xE0) = true) as -> by by_division.
    rewrite is_trail_of_byte by by_division.
    rewrite byte_of_byte by by_division.
    f_equal. by_division.
  - rewrite byte_of_byte by by_division.
    assert ((0xE0 + n / 4096 <? 0xC0) = false) as -> by by_division.
    assert ((0xE0 + n / 4096 <? 0xE0) = false) as -> by by_division.
    assert ((0xE0 + n / 4096 <? 0xF0) = true) as -> by by_division.
    rewrite !is_trail_of_byte by by_division.
    rewrite !byte_of_byte by by_division.
    cbn [andb]. f_equal. by_division.
  - rewrite byte_of_byte by by_division.
    assert ((0xF0 + n / 262144 <? 0xC0) = false) as -> by by_division.
    assert ((0xF0 + n / 262144 <? 0xE0) = false) as -> by by_division.
    assert ((0xF0 + n / 262144 <? 0xF0) = false) as -> by by_division.
    rewrite !is_trail_of_byte by by_division.
    rewrite !byte_of_byte by by_division.
    cbn [andb]. f_equal. by_division.
Qed.

(** A text of ASCII characters is its own encoding. *)
Lemma decode_ascii (x : list ascii) :
  Forall (fun c => Utf8.byte c < 0x80) x -> Utf8.decode x = codes x.
Proof.
  induction 1 as [|c x Hc _ IH]; [done|].
  cbn [Utf8.decode codes fmap list_fmap].
  assert ((Utf8.byte c <? 0xC0) = true) as -> by lia.
  by rewrite IH.
Qed.

Lemma decimal_digit (c v : Z) : Utf8.decimal c = Some v -> 0 <= v <= 9.
Proof.
  unfold Utf8.decimal. destruct (find _ _) as [zero|] eqn:Hfind; [|done].
  apply find_some in Hfind as [_ Hzero]. intros [= <-]. lia.
Qed.

Lemma decimal_is_decimal (c v : Z) :
  Utf8.decimal c = Some v -> Utf8.is_decimal c = true.
Proof. unfold Utf8.is_decimal. by intros ->. Qed.

Lemma is_decimal_value (c : Z) :
  Utf8.is_decimal c = true -> exists v, Utf8.decimal c = Some v /\ 0 <= v <= 9.
Proof.
  unfold Utf8.is_decimal. destruct (Utf8.decimal c) as [v|] eqn:Hv; [|done].
  intros _. exists v. split; [done|]. by apply (decimal_digit c).
Qed.

Lemma decimal_not_blank (c : Z) : Utf8.is_decimal c = true -> (c =? 32) = false.
Proof.
  intros Hc. destruct (c =? 32) eqn:Heq; [|done].
  apply Z.eqb_eq in Heq as ->. discriminate Hc.
Qed.

(** ** [json.dumps] and back *)

Lemma chars_app (a b : string) : chars (a +:+ b) = chars a ++ chars b.
Proof.
  induction a as [|c a IH]; [done|].
  change (String c a +:+ b) with (String c (a +:+ b)).
  cbn [String.list_ascii_of_string app]. by rewrite IH.
Qed.

Lemma chars_concat_cons (sep x y : string) (l : list string) :
  chars (String.concat sep (x :: y :: l))
  = chars x ++ chars sep ++ chars (String.concat sep (y :: l)).
Proof.
  change (String.concat sep (x :: y :: l))
    with (x +:+ sep +:+ String.concat sep (y :: l)).
  by rewrite !chars_app.
Qed.

Lemma chars_concat_empty (l : list string) :
  chars (String.concat "" l) = l ≫= chars.
Proof.
  induction l as [|x [|y l] IH]; [done| |].
  - cbn. by rewrite app_nil_r.
  - rewrite chars_concat_cons, IH. by rewrite (bind_cons _ x).
Qed.

(** Tests on given characters, computed. *)
Ltac compute_tests :=
  repeat match goal with
  | |- context [Utf8.byte ?c =? ?n] =>
      let b := eval vm_compute in (Utf8.byte c =? n) in
      match b with
      | true => change (Utf8.byte c =? n) with true
      | false => change (Utf8.byte c =? n) with false
      end
  | |- context [Json.is_digit ?c] =>
      let b := eval vm_compute in (Json.is_digit c) in
      match b with
      | true => change (Json.is_digit c) with true
      | false => change (Json.is_digit c) with false
      end
  | |- context [Json.is_ws ?c] =>
      let b := eval vm_compute in (Json.is_ws c) in
      match b with
      | true => change (Json.is_ws c) with true
      | false => change (Json.is_ws c) with false
      end
  end.

(** *** Strings *)

Lemma hex_digits_read :
  Forall (fun n => Json.hex_value (Json.hex_digit n) = Some n) (seqZ 0 16).
Proof. apply (bool_decide_unpack _). by vm_compute. Qed.

Lemma hex_value_digit (n : Z) :
  0 <= n < 16 -> Json.hex_value (Json.hex_digit n) = Some n.
Proof.
  intros Hn. apply (proj1 (Forall_forall _ _) hex_digits_read).
  apply elem_of_seqZ. lia.
Qed.

Lemma hex4_value_digits (n : Z) :
  0 <= n < 65536 ->
  Json.hex4_value (Json.hex_digit (n / 4096)) (Json.hex_digit (n / 256 mod 16))
    (Json.hex_digit (n / 16 mod 16)) (Json.hex_digit (n mod 16)) = Some n.
Proof.
  intros Hn. unfold Json.hex4_value.
  rewrite !hex_value_digit by by_division. cbn [mbind option_bind].
  f_equal. by_division.
Qed.

Lemma chars_escape_u (n : Z) :
  chars (Json.escape_u n)
  = [Json.backslash; "u"%char; Json.hex_digit (n / 4096); Json.hex_digit (n / 256 mod 16);
     Json.hex_digit (n / 16 mod 16); Json.hex_digit (n mod 16)].
Proof. reflexivity. Qed.

Lemma encode_ascii (c : Z) : c < 0x80 -> Utf8.encode c = [Utf8.of_byte c].
Proof. intros Hc. unfold Utf8.encode. by assert ((c <? 0x80) = true) as -> by lia. Qed.

(** A [\uXXXX] that is no high surrogate is read on its own. *)
Lemma read_string_u (a b c d : ascii) (hi : Z) (r : list ascii) :
  Json.hex4_value a b c d = Some hi -> ~ 0xD800 <= hi <= 0xDBFF ->
  Json.read_string (Json.backslash :: "u"%char :: a :: b :: c :: d :: r)
  = Json.add_char hi (Json.read_string r).
Proof.
  intros Hhex Hhi. cbn [Json.read_string].
  change (Utf8.byte Json.backslash =? 34) with false.
  change (Utf8.byte Json.backslash =? 92) with true.
  change (Utf8.byte "u" =? 117) with true. cbn match. rewrite Hhex.
  assert (forall e u a1 b1 c1 d1, Json.surrogate_pair hi e u a1 b1 c1 d1 = None) as Hpair.
  { intros. unfold Json.surrogate_pair.
    by assert ((0xD800 <=? hi) && (hi <=? 0xDBFF) = false) as -> by lia. }
  destruct r as [|e1 [|u1 [|a1 [|b1 [|c1 [|d1 r3]]]]]]; try reflexivity.
  by rewrite Hpair.
Qed.

(** A high surrogate and the low one after it are read as one character. *)
Lemma read_string_pair (a b c d a1 b1 c1 d1 : ascii) (hi lo : Z) (r : list ascii) :
  Json.hex4_value a b c d = Some hi -> 0xD800 <= hi <= 0xDBFF ->
  Json.hex4_value a1 b1 c1 d1 = Some lo -> 0xDC00 <= lo <= 0xDFFF ->
  Json.read_string
    (Json.backslash :: "u"%char :: a :: b :: c :: d
       :: Json.backslash :: "u"%char :: a1 :: b1 :: c1 :: d1 :: r)
  = Json.add_char (0x10000 + (hi - 0xD800) * 1024 + (lo - 0xDC00)) (Json.read_string r).
Proof.
  intros Hhex Hhi Hhex1 Hlo. cbn [Json.read_string].
  change (Utf8.byte Json.backslash =? 34) with false.
  change (Utf8.byte Json.backslash =? 92) with true.
  change (Utf8.byte "u" =? 117) with true. cbn match. rewrite Hhex.
  unfold Json.surrogate_pair.
  change (Utf8.byte Json.backslash =? 92) with true.
  change (Utf8.byte "u" =? 117) with true. rewrite Hhex1.
  assert ((0xD800 <=? hi) && (hi <=? 0xDBFF) = true) as -> by lia.
  by assert ((0xDC00 <=? lo) && (lo <=? 0xDFFF) = true) as -> by lia.
Qed.

(** A short escape. *)
Lemma read_string_short (e : ascii) (x : Z) (r : list ascii) :
  (Utf8.byte e =? 117) = false -> Json.unescape e = Some x ->
  Json.read_string (Json.backslash :: e :: r) = Json.add_char x (Json.read_string r).
Proof.
  intros He Hx. cbn [Json.read_string].
  change (Utf8.byte Json.backslash =? 34) with false.
  change (Utf8.byte Json.backslash =? 92) with true.
  cbn match. by rewrite He, Hx.
Qed.

(** One character of the encoder is read back as that character. *)
Lemma read_string_escape_char (c : Z) (r : list ascii) :
  Utf8.scalar c = true ->
  Json.read_string (chars (Json.escape_char c) ++ r) = Json.add_char c (Json.read_string r).
Proof.
  unfold Utf8.scalar. rewrite !andb_true_iff, negb_true_iff, andb_false_iff.
  rewrite !Z.leb_le, !Z.ltb_lt, Z.leb_gt, Z.ltb_ge. intros [[Hlo Hhi] Hsurr].
  unfold Json.escape_char.
  destruct (c =? 34) eqn:H34; [apply Z.eqb_eq in H34 as ->; by apply read_string_short|].
  destruct (c =? 92) eqn:H92; [apply Z.eqb_eq in H92 as ->; by apply read_string_short|].
  destruct (c =? 8) eqn:H8; [apply Z.eqb_eq in H8 as ->; by apply read_string_short|].
  destruct (c =? 12) eqn:H12; [apply Z.eqb_eq in H12 as ->; by apply read_string_short|].
  destruct (c =? 10) eqn:H10; [apply Z.eqb_eq in H10 as ->; by apply read_string_short|].
  destruct (c =? 13) eqn:H13; [apply Z.eqb_eq in H13 as ->; by apply read_string_short|].
  destruct (c =? 9) eqn:H9; [apply Z.eqb_eq in H9 as ->; by apply read_string_short|].
  destruct ((32 <=? c) && (c <=? 126)) eqn:Hprint.
  - cbn [String.list_ascii_of_string app Json.read_string].
    rewrite byte_of_byte by lia. rewrite H34, H92.
    assert ((c <? 32) = false) as -> by lia.
    unfold Json.add_char. by rewrite encode_ascii by lia.
  - destruct (c <? 0x10000) eqn:Hbmp.
    + rewrite chars_escape_u. cbn [app].
      apply read_string_u; [apply hex4_value_digits; lia|lia].
    + rewrite chars_app, !chars_escape_u. cbn [app].
      rewrite (read_string_pair _ _ _ _ _ _ _ _
                 (0xD800 + (c - 0x10000) / 1024) (0xDC00 + (c - 0x10000) mod 1024));
        [|apply hex4_value_digits; by_division|by_division
         |apply hex4_value_digits; by_division|by_division].
      f_equal. by_division.
Qed.

Lemma read_string_escaped (cs : list Z) (r : list ascii) :
  Forall (fun c => Utf8.scalar c = true) cs ->
  Json.read_string (chars (String.concat "" (Json.escape_char <$> cs)) ++ Json.quote :: r)
  = Some (cs ≫= Utf8.encode, r).
Proof.
  rewrite chars_concat_empty. induction 1 as [|c cs Hc _ IH]; [done|].
  rewrite fmap_cons, !bind_cons, <- app_assoc, read_string_escape_char by done.
  by rewrite IH.
Qed.

Lemma well_formed_str (s : string) :
  Utf8.well_formed s = true ->
  Forall (fun c => Utf8.scalar c = true) (Utf8.code_points s)
  /\ Utf8.str (Utf8.code_points s) = s.
Proof.
  unfold Utf8.well_formed. rewrite andb_true_iff, forallb_forall, String.eqb_eq.
  intros [Hscalar Hstr]. split; [|done].
  apply Forall_forall. intros c Hc. by apply Hscalar, list_elem_of_In.
Qed.

(** The text of a string is read back as the string. *)
Lemma read_string_encode_str (s : string) (r : list ascii) :
  Utf8.well_formed s = true ->
  exists t,
    chars (Json.encode_str s) ++ r = Json.quote :: t
    /\ Json.read_string t = Some (chars s, r).
Proof.
  intros [Hscalar Hstr]%well_formed_str.
  exists (chars (Json.escape s) ++ Json.quote :: r). split.
  - unfold Json.encode_str. cbn [String.list_ascii_of_string app].
    rewrite chars_app. cbn [String.list_ascii_of_string]. by rewrite <- app_assoc.
  - unfold Json.escape. rewrite read_string_escaped by done.
    rewrite <- Hstr at 2. unfold Utf8.str.
    by rewrite String.list_ascii_of_string_of_list_ascii.
Qed.

(** *** Integers *)

Lemma read_digits_all (ds r : list ascii) (acc : Z) :
  Forall (fun c => Json.is_digit c = true) ds ->
  match r with c :: _ => Json.is_digit c = false | [] => True end ->
  Json.read_digits acc (ds ++ r) = (digits_value acc ds, r).
Proof.
  intros Hds Hr. revert acc. induction Hds as [|c ds Hc _ IH]; intros acc.
  - destruct r as [|c r]; [done|]. cbn. by rewrite Hr.
  - cbn [app Json.read_digits]. rewrite Hc. apply IH.
Qed.

Lemma pretty_N_chars :
  Forall (fun x => Json.is_digit (pretty_N_char x) = true
                   /\ Utf8.byte (pretty_N_char x) = 48 + Z.of_N x)
         (N.of_nat <$> seq 0 10).
Proof. apply (bool_decide_unpack _). by vm_compute. Qed.

Lemma pretty_N_char_digit (x : N) :
  (x < 10)%N ->
  Json.is_digit (pretty_N_char x) = true /\ Utf8.byte (pretty_N_char x) = 48 + Z.of_N x.
Proof.
  intros Hx. apply (proj1 (Forall_forall _ _) pretty_N_chars).
  apply list_elem_of_fmap. exists (N.to_nat x). split; [lia|]. apply elem_of_seq. lia.
Qed.

(** The digits [pretty] writes for a positive number: they start with no
    zero and are read back as the number. *)
Lemma pretty_N_go_digits (x : N) :
  (0 < x)%N ->
  exists c ds,
    (forall s, chars (pretty_N_go x s) = c :: ds ++ chars s)
    /\ Forall (fun c => Json.is_digit c = true) (c :: ds)
    /\ Utf8.byte c <> 48
    /\ forall acc,
         digits_value acc (c :: ds)
         = acc * 10 ^ Z.of_nat (length (c :: ds)) + Z.of_N x.
Proof.
  induction (N.lt_wf_0 x) as [x _ IH]. intros Hx.
  destruct (pretty_N_char_digit (x `mod` 10)) as [Hdigit Hbyte].
  { by apply N.mod_lt. }
  destruct (decide (x `div` 10 = 0)%N) as [Hsmall|Hbig].
  - exists (pretty_N_char (x `mod` 10)), []. repeat split.
    + intros s. by rewrite pretty_N_go_step, Hsmall, pretty_N_go_0.
    + by repeat constructor.
    + rewrite Hbyte. apply N.div_small_iff in Hsmall; [|done].
      rewrite N.mod_small by done. lia.
    + intros acc. cbn. rewrite Hbyte. apply N.div_small_iff in Hsmall; [|done].
      rewrite N.mod_small by done. lia.
  - destruct (IH (x `div` 10)%N) as (c & ds & Htext & Hdigits & Hfirst & Hvalue).
    { by apply N.div_lt. }
    { by apply N.neq_0_lt_0. }
    exists c, (ds ++ [pretty_N_char (x `mod` 10)]). repeat split.
    + intros s. rewrite pretty_N_go_step, Htext by done.
      cbn [String.list_ascii_of_string]. by rewrite <- app_assoc.
    + rewrite app_comm_cons. apply Forall_app. split; [done|]. by repeat constructor.
    + done.
    + intros acc. rewrite app_comm_cons. unfold digits_value in *.
      rewrite foldl_app, Hvalue. cbn [foldl]. rewrite Hbyte, length_app.
      change (length [pretty_N_char (x `mod` 10)]) with 1%nat.
      rewrite Nat2Z.inj_add, Z.pow_add_r by lia. change (10 ^ Z.of_nat 1) with 10.
      generalize (10 ^ Z.of_nat (length (c :: ds))). intros k.
      assert (Z.of_N x = 10 * Z.of_N (x `div` 10) + Z.of_N (x `mod` 10)) as Hsplit.
      { rewrite N2Z.inj_div, N2Z.inj_mod. change (Z.of_N 10) with 10. by_division. }
      lia.
Qed.

Lemma delimited_no_digit (r : list ascii) :
  delimited r = true ->
  match r with c :: _ => Json.is_digit c = false | [] => True end.
Proof.
  destruct r as [|c r]; [done|]. unfold delimited.
  rewrite andb_true_iff, negb_true_iff. by intros [? _].
Qed.

Lemma delimited_no_float (r : list ascii) :
  delimited r = true -> Json.float_follows r = false.
Proof.
  destruct r as [|c r]; [done|]. unfold delimited.
  rewrite andb_true_iff, !negb_true_iff. by intros [_ ?].
Qed.

Lemma read_natural_pos (p : positive) (r : list ascii) :
  delimited r = true ->
  exists c t,
    chars (pretty (N.pos p)) ++ r = c :: t
    /\ Json.is_digit c = true
    /\ Json.read_natural (c :: t) = Some (Z.pos p, r).
Proof.
  intros Hr.
  destruct (pretty_N_go_digits (N.pos p))
    as (c & ds & Htext & Hdigits & Hfirst & Hvalue); [done|].
  exists c, (ds ++ r). unfold pretty, pretty_N. rewrite decide_False by done.
  rewrite Htext. cbn [String.list_ascii_of_string]. rewrite app_nil_r.
  split; [done|]. split; [by inversion Hdigits|].
  unfold Json.read_natural. apply Z.eqb_neq in Hfirst as ->.
  assert (Json.is_digit c = true) as -> by (by inversion Hdigits).
  rewrite app_comm_cons, read_digits_all by (by try apply delimited_no_digit).
  rewrite Hvalue. by rewrite Z.mul_0_l.
Qed.

Lemma read_number_int (n : Z) (r : list ascii) :
  delimited r = true ->
  exists c t,
    chars (pretty n) ++ r = c :: t
    /\ (Json.is_digit c = true \/ Utf8.byte c = 45)
    /\ Json.read_number (c :: t) = Some (JInt n, r).
Proof.
  intros Hr. pose proof (delimited_no_float r Hr) as Hfloat.
  destruct n as [|p|p].
  - exists "0"%char, r. split; [done|]. split; [by left|].
    unfold Json.read_number, Json.read_natural. compute_tests.
    cbn [mbind option_bind]. by rewrite Hfloat.
  - destruct (read_natural_pos p r Hr) as (c & t & Htext & Hc & Hread).
    exists c, t. split; [done|]. split; [by left|].
    unfold Json.read_number.
    assert ((Utf8.byte c =? 45) = false) as ->.
    { unfold Json.is_digit in Hc. lia. }
    rewrite Hread. cbn [mbind option_bind]. by rewrite Hfloat.
  - destruct (read_natural_pos p r Hr) as (c & t & Htext & Hc & Hread).
    exists "-"%char, (c :: t). split.
    { change (pretty (Z.neg p)) with ("-" +:+ pretty (N.pos p)).
      rewrite chars_app, <- app_assoc, Htext. done. }
    split; [by right|].
    unfold Json.read_number. compute_tests.
    rewrite Hread. cbn [mbind option_bind]. by rewrite Hfloat.
Qed.

(** *** Values *)

Lemma value_induction (P : value -> Prop) :
  P JNull -> (forall b, P (JBool b)) -> (forall n, P (JInt n)) ->
  (forall bits, P (JFloat bits)) -> (forall s, P (JStr s)) ->
  (forall l, Forall P l -> P (JList l)) ->
  (forall d, Forall (fun kv => P (snd kv)) d -> P (JDict d)) ->
  forall v, P v.
Proof.
  intros HNull HBool HInt HFloat HStr HList HDict. fix IH 1.
  intros [|b|n|bits|s|l|d]; [done..| |].
  - apply HList. induction l as [|x l IHl]; constructor; [apply IH|apply IHl].
  - apply HDict. induction d as [|[k x] d IHd]; constructor; [apply IH|apply IHd].
Qed.

Lemma read_value_blank (fuel : nat) (s : list ascii) :
  Json.read_value fuel (" "%char :: s) = Json.read_value fuel s.
Proof. by destruct fuel. Qed.

Lemma read_elements_blank (fuel : nat) (s : list ascii) :
  Json.read_elements fuel (" "%char :: s) = Json.read_elements fuel s.
Proof. destruct fuel; [done|]. cbn [Json.read_elements]. by rewrite read_value_blank. Qed.

Lemma read_members_blank (fuel : nat) (s : list ascii) :
  Json.read_members fuel (" "%char :: s) = Json.read_members fuel s.
Proof. by destruct fuel. Qed.

Lemma read_value_number (fuel : nat) (c : ascii) (t : list ascii) :
  Json.is_digit c = true \/ Utf8.byte c = 45 ->
  Json.read_value (S fuel) (c :: t) = Json.read_number (c :: t).
Proof.
  intros Hc. assert (48 <= Utf8.byte c <= 57 \/ Utf8.byte c = 45) as Hbyte.
  { destruct Hc as [Hc|Hc]; [left|by right]. unfold Json.is_digit in Hc. lia. }
  clear Hc. cbn [Json.read_value Json.skip_ws]. unfold Json.is_ws.
  assert ((Utf8.byte c =? 32) || (Utf8.byte c =? 9) || (Utf8.byte c =? 10)
          || (Utf8.byte c =? 13) = false) as -> by lia.
  assert ((Utf8.byte c =? 34) = false) as -> by lia.
  assert ((Utf8.byte c =? 91) = false) as -> by lia.
  assert ((Utf8.byte c =? 123) = false) as -> by lia.
  unfold Json.read_word. cbn [String.list_ascii_of_string Json.strip_prefix].
  change (Utf8.byte "n") with 110. change (Utf8.byte "t") with 116.
  change (Utf8.byte "f") with 102.
  assert ((110 =? Utf8.byte c) = false) as -> by lia.
  assert ((116 =? Utf8.byte c) = false) as -> by lia.
  by assert ((102 =? Utf8.byte c) = false) as -> by lia.
Qed.

Section RoundTrip.

Variable floatstr : Z -> string.

Abbreviation dumps := (Json.dumps floatstr).

(** The text of a value starts with a character that is no blank and
    closes no array. *)
Lemma dumps_head (v : value) :
  readable v = true ->
  exists c t, chars (dumps v) = c :: t /\ Json.is_ws c = false /\ Utf8.byte c <> 93.
Proof.
  destruct v as [|[]|n|bits|s|l|d]; intros Hv; try done;
    try (by eexists _, _; split; [reflexivity|]).
  destruct (read_number_int n [] eq_refl) as (c & t & Htext & Hc & _).
  rewrite app_nil_r in Htext. exists c, t. split; [done|].
  unfold Json.is_ws. unfold Json.is_digit in Hc. lia.
Qed.

Lemma read_elements_dumps (l : list value) :
  l <> [] -> Forall (reads_back floatstr) l ->
  forall (fuel : nat) (rest : list ascii),
    (list_sum (map (fun x => S (size x)) l) <= fuel)%nat ->
    Json.read_elements fuel
      (chars (String.concat ", " (map dumps l)) ++ "]"%char :: rest)
    = Some (l, rest).
Proof.
  intros Hl Hreads. induction Hreads as [|x l Hx Hreads IH]; [done|].
  intros fuel rest Hfuel. cbn [map list_sum fold_right] in Hfuel.
  destruct fuel as [|fuel]; [lia|]. cbn [Json.read_elements].
  destruct l as [|y l].
  - cbn [map String.concat]. rewrite Hx by (done || cbn in *; lia).
    cbn [mbind option_bind Json.skip_ws]. by compute_tests.
  - cbn [map]. rewrite chars_concat_cons, <- !app_assoc.
    rewrite Hx by (done || cbn in *; lia).
    cbn [mbind option_bind String.list_ascii_of_string app Json.skip_ws].
    compute_tests. cbn match. rewrite read_elements_blank.
    change (dumps y :: map dumps l) with (map dumps (y :: l)).
    rewrite IH by (done || cbn in *; lia). done.
Qed.

Lemma read_members_dumps (d : dict) :
  d <> [] ->
  Forall (fun kv => Utf8.well_formed (fst kv) = true /\ reads_back floatstr (snd kv)) d ->
  forall (fuel : nat) (rest : list ascii),
    (list_sum (map (fun kv => S (size (snd kv))) d) <= fuel)%nat ->
    Json.read_members fuel
      (chars (String.concat ", " (map (member_text floatstr) d)) ++ "}"%char :: rest)
    = Some (d, rest).
Proof.
  intros Hd Hreads. induction Hreads as [|[k x] d [Hk Hx] Hreads IH]; [done|].
  intros fuel rest Hfuel. cbn [map list_sum fold_right snd] in Hfuel.
  destruct fuel as [|fuel]; [lia|].
  assert (forall tail,
            delimited tail = true ->
            exists t,
              chars (member_text floatstr (k, x)) ++ tail = Json.quote :: t
              /\ Json.read_string t
                 = Some (chars k, ":"%char :: " "%char :: chars (dumps x) ++ tail))
    as Hmember.
  { intros tail Htail. unfold member_text. cbn [fst snd].
    rewrite !chars_app, <- !app_assoc.
    apply (read_string_encode_str k _ Hk). }
  simpl in Hk, Hx. destruct d as [|y d].
  - cbn [map String.concat].
    destruct (Hmember ("}"%char :: rest) eq_refl) as (t & -> & Hread).
    cbn [Json.read_members Json.skip_ws]. compute_tests. cbn match.
    rewrite Hread. cbn [mbind option_bind Json.skip_ws]. compute_tests. cbn match.
    rewrite read_value_blank, Hx by (done || cbn in *; lia).
    cbn [mbind option_bind Json.skip_ws]. compute_tests. cbn match.
    by rewrite String.string_of_list_ascii_of_string.
  - cbn [map]. rewrite chars_concat_cons, <- !app_assoc.
    change (member_text floatstr y :: map (member_text floatstr) d)
      with (map (member_text floatstr) (y :: d)).
    cbn [String.list_ascii_of_string app].
    destruct (Hmember (","%char :: " "%char
                         :: chars (String.concat ", " (map (member_text floatstr) (y :: d)))
                         ++ "}"%char :: rest) eq_refl) as (t & -> & Hread).
    cbn [Json.read_members Json.skip_ws]. compute_tests. cbn match.
    rewrite Hread. cbn [mbind option_bind Json.skip_ws]. compute_tests. cbn match.
    rewrite read_value_blank, Hx by (done || cbn in *; lia).
    cbn [mbind option_bind Json.skip_ws]. compute_tests. cbn match.
    rewrite read_members_blank, IH by (done || cbn in *; lia).
    cbn [mbind option_bind]. by rewrite String.string_of_list_ascii_of_string.
Qed.

Lemma dict_set_fresh (k : string) (v : value) (d : dict) :
  k ∉ dict_keys d -> dict_set k v d = d ++ [(k, v)].
Proof.
  induction d as [|[k' v'] d IH]; [done|].
  cbn [dict_keys map fst]. rewrite not_elem_of_cons. intros [Hne Hfresh].
  cbn [dict_set app]. apply not_eq_sym, String.eqb_neq in Hne as ->.
  by rewrite IH.
Qed.

Lemma dict_of_nodup (d : dict) : NoDup (dict_keys d) -> Json.dict_of d = d.
Proof.
  unfold Json.dict_of.
  assert (forall acc : dict,
            NoDup (dict_keys (acc ++ d)) ->
            foldl (fun d kv => dict_set (fst kv) (snd kv) d) acc d = acc ++ d)
    as Hfold; [|apply (Hfold [])].
  induction d as [|[k v] d IH]; intros acc Hnodup.
  - by rewrite app_nil_r.
  - cbn [foldl fst snd]. rewrite dict_set_fresh.
    + rewrite IH; rewrite <- app_assoc; done.
    + unfold dict_keys in *. rewrite map_app in Hnodup.
      apply NoDup_app in Hnodup as (_ & Hdisjoint & _).
      intros Hin. apply (Hdisjoint k Hin). cbn. by left.
Qed.

Lemma readable_list (l : list value) :
  forallb readable l = true -> Forall (fun v => readable v = true) l.
Proof.
  rewrite forallb_forall. intros Hall. apply Forall_forall.
  intros v Hv. by apply Hall, list_elem_of_In.
Qed.

Lemma readable_dict (d : dict) :
  readable (JDict d) = true ->
  Forall (fun kv => Utf8.well_formed (fst kv) = true /\ readable (snd kv) = true) d
  /\ NoDup (dict_keys d).
Proof.
  cbn [readable]. rewrite andb_true_iff, forallb_forall.
  intros [Hall Hnodup%bool_decide_eq_true_1]. split; [|done].
  apply Forall_forall. intros kv Hkv. apply andb_true_iff, Hall. by apply list_elem_of_In.
Qed.

Lemma reads_back_readable (v : value) : readable v = true -> reads_back floatstr v.
Proof.
  induction v as [|b|n|bits|s|l IH|d IH] using value_induction;
    intros Hv fuel rest Hfuel Hrest; cbn [size] in Hfuel;
    (destruct fuel as [|fuel]; [lia|]).
  - done.
  - by destruct b.
  - cbn [Json.dumps].
    destruct (read_number_int n rest Hrest) as (c & t & -> & Hc & Hread).
    by rewrite read_value_number.
  - done.
  - destruct (read_string_encode_str s rest Hv) as (t & Htext & Hread).
    cbn [Json.dumps]. rewrite Htext.
    cbn [Json.read_value Json.skip_ws]. compute_tests. cbn match.
    rewrite Hread. cbn [mbind option_bind].
    by rewrite String.string_of_list_ascii_of_string.
  - cbn [Json.dumps]. rewrite !chars_app, <- !app_assoc.
    cbn [String.list_ascii_of_string app Json.read_value Json.skip_ws].
    compute_tests. cbn match.
    destruct l as [|x l].
    + cbn [map String.concat String.list_ascii_of_string app Json.skip_ws].
      by compute_tests.
    + assert (Forall (reads_back floatstr) (x :: l)) as Hreads.
      { apply readable_list in Hv. apply Forall_forall. intros v Hin.
        apply (proj1 (Forall_forall _ _) IH v Hin).
        apply (proj1 (Forall_forall _ _) Hv v Hin). }
      rewrite (read_elements_dumps (x :: l)) by (done || lia).
      destruct (dumps_head x) as (c & t & Hhead & Hws & Hclose).
      { apply readable_list in Hv. by inversion Hv. }
      assert (exists t', chars (String.concat ", " (map dumps (x :: l))) = c :: t')
        as [t' ->].
      { destruct l as [|y l]; [by exists t|].
        cbn [map]. rewrite chars_concat_cons, Hhead. by eexists. }
      cbn [app Json.skip_ws]. rewrite Hws.
      by apply Z.eqb_neq in Hclose as ->.
  - cbn [Json.dumps]. rewrite !chars_app, <- !app_assoc.
    cbn [String.list_ascii_of_string app Json.read_value Json.skip_ws].
    compute_tests. cbn match.
    destruct (readable_dict d Hv) as [Hmembers Hnodup].
    destruct d as [|[k x] d].
    + cbn [map String.concat String.list_ascii_of_string app Json.skip_ws].
      by compute_tests.
    + assert (Forall (fun kv => Utf8.well_formed (fst kv) = true /\ reads_back floatstr (snd kv))
                ((k, x) :: d)) as Hreads.
      { apply Forall_forall. intros kv Hin.
        destruct (proj1 (Forall_forall _ _) Hmembers kv Hin) as [Hkey Hval].
        split; [done|]. by apply (proj1 (Forall_forall _ _) IH kv Hin). }
      change (map (fun kv => Json.encode_str (fst kv) +:+ ": " +:+ dumps (snd kv))
                ((k, x) :: d))
        with (map (member_text floatstr) ((k, x) :: d)).
      rewrite (read_members_dumps ((k, x) :: d)) by (done || lia).
      assert (exists t', chars (String.concat ", " (map (member_text floatstr) ((k, x) :: d)))
                         = Json.quote :: t') as [t' ->].
      { destruct d as [|y d]; [by eexists|].
        cbn [map]. rewrite chars_concat_cons. by eexists. }
      cbn [app Json.skip_ws]. compute_tests. cbn match.
      cbn [mbind option_bind]. by rewrite dict_of_nodup.
Qed.

End RoundTrip.

Section Sizes.

Variable floatstr : Z -> string.

Lemma length_concat_cons (sep x y : string) (l : list string) :
  length (chars (String.concat sep (x :: y :: l)))
  = (length (chars x) + length (chars sep)
     + length (chars (String.concat sep (y :: l))))%nat.
Proof. rewrite chars_concat_cons, !length_app. lia. Qed.

Lemma sizes_le_length {A : Type} (measure : A -> nat) (write : A -> string)
    (l : list A) :
  Forall (fun x => (measure x <= length (chars (write x)))%nat) l ->
  (list_sum (map (fun x => S (measure x)) l)
   <= S (length (chars (String.concat ", " (map write l)))))%nat.
Proof.
  induction 1 as [|x l Hx Hl IH]; [cbn; lia|].
  destruct l as [|y l].
  - cbn [map list_sum fold_right String.concat]. lia.
  - cbn [map list_sum fold_right] in *. rewrite length_concat_cons.
    cbn [String.list_ascii_of_string length]. lia.
Qed.

(** The length of its text is fuel enough to read a value back. *)
Lemma size_le_length (v : value) :
  readable v = true -> (size v <= length (chars (Json.dumps floatstr v)))%nat.
Proof.
  induction v as [|b|n|bits|s|l IH|d IH] using value_induction; intros Hv.
  - cbn. lia.
  - destruct b; cbn; lia.
  - destruct (read_number_int n [] eq_refl) as (c & t & Htext & _).
    rewrite app_nil_r in Htext. cbn [Json.dumps size]. rewrite Htext. cbn. lia.
  - done.
  - cbn. lia.
  - cbn [Json.dumps size]. rewrite !chars_app, !length_app.
    cbn [String.list_ascii_of_string length].
    pose proof (sizes_le_length size (Json.dumps floatstr) l) as Hsizes.
    apply readable_list in Hv.
    assert (Forall (fun x => (size x <= length (chars (Json.dumps floatstr x)))%nat) l)
      as Hall.
    { apply Forall_forall. intros x Hin.
      apply (proj1 (Forall_forall _ _) IH x Hin).
      apply (proj1 (Forall_forall _ _) Hv x Hin). }
    specialize (Hsizes Hall). lia.
  - cbn [Json.dumps size]. rewrite !chars_app, !length_app.
    cbn [String.list_ascii_of_string length].
    pose proof (sizes_le_length (fun kv : string * value => size (snd kv))
                  (member_text floatstr) d) as Hsizes.
    destruct (readable_dict d Hv) as [Hmembers _].
    assert (Forall (fun kv : string * value =>
                      (size (snd kv) <= length (chars (member_text floatstr kv)))%nat) d)
      as Hall.
    { apply Forall_forall. intros kv Hin.
      destruct (proj1 (Forall_forall _ _) Hmembers kv Hin) as [_ Hval].
      pose proof (proj1 (Forall_forall _ _) IH kv Hin Hval) as Hsize.
      unfold member_text. rewrite !chars_app, !length_app. lia. }
    specialize (Hsizes Hall).
    change (map (fun kv => Json.encode_str (fst kv) +:+ ": " +:+ Json.dumps floatstr (snd kv)) d)
      with (map (member_text floatstr) d).
    lia.
Qed.

(** [json.loads(json.dumps(v)) == v] *)
Lemma loads_dumps (v : value) :
  readable v = true -> Json.loads (Json.dumps floatstr v) = Some v.
Proof.
  intros Hv. unfold Json.loads.
  pose proof (reads_back_readable floatstr v Hv
                (S (length (chars (Json.dumps floatstr v)))) []) as Hread.
  rewrite app_nil_r in Hread. rewrite Hread; [done| |done].
  pose proof (size_le_length v Hv). lia.
Qed.

End Sizes.

(** ** [import_worlds_players.py]: normalising a record *)

Section WorldsRecords.

Variable floatstr : Z -> string.

Abbreviation process_player_data := (Worlds.process_player_data floatstr).

Lemma worlds_process_record (player_key : string) (d : dict) :
  process_player_data player_key (JDict d) =
  let* birthdate := convert_birthdate d in
  Ok {| Worlds.name := player_key;
        Worlds.main_name := default (JStr player_key) (dict_lookup "mainName" d);
        Worlds.all_names :=
          Json.dumps floatstr
            match dict_lookup "allNames" d with
            | Some (JList l) => JList l
            | _ => JList []
            end;
        Worlds.nationality := default JNull (dict_lookup "nationality" d);
        Worlds.residency := default JNull (dict_lookup "Residency" d);
        Worlds.birthdate := birthdate;
        Worlds.tournament_role := default JNull (dict_lookup "tournament_role" d);
        Worlds.team := default JNull (dict_lookup "team" d);
        Worlds.appearance := default JNull (dict_lookup "appearance" d);
        Worlds.player_current_role := default JNull (dict_lookup "current_role" d);
        Worlds.is_retired :=
          match dict_lookup "isRetired" d with
          | Some raw => py_eq_str raw "1"
          | None => false
          end;
        Worlds.current_team := default JNull (dict_lookup "current_team" d);
        Worlds.current_team_region :=
          default JNull (dict_lookup "current_team_region" d) |}.
Proof.
  unfold Worlds.process_player_data, convert_birthdate, py_contains, py_getitem, py_get.
  destruct (dict_lookup "birthdate" d) as [raw|]; cbn [bind];
    [destruct (py_truthy raw); [destruct (Worlds.try_strptime raw)|]|]; cbn [bind];
    try reflexivity;
    (destruct (dict_lookup "isRetired" d) as [retired|]; cbn [bind];
     destruct (dict_lookup "allNames" d) as [[]|]; cbn [bind is_list]; reflexivity).
Qed.

Lemma strptime_date_str_raises (s : string) (e : exn) :
  strptime_date (JStr s) = Raise e -> cls e = ValueError.
Proof.
  unfold strptime_date, make_date.
  destruct (match_format _) as [|[[[y m] d] [|c rest]] others];
    repeat case_match; intros; by simplify_eq.
Qed.

Lemma try_strptime_str (s : string) :
  Worlds.try_strptime (JStr s)
  = Ok (match strptime_date (JStr s) with Ok dt => Some dt | Raise _ => None end).
Proof.
  unfold Worlds.try_strptime.
  destruct (strptime_date (JStr s)) as [dt|e] eqn:Hparse; [done|].
  by rewrite (strptime_date_str_raises s e Hparse).
Qed.

Lemma try_strptime_not_str (raw : value) :
  (forall s, raw <> JStr s) ->
  Worlds.try_strptime raw
  = Raise (Exn TypeError ("strptime() argument 1 must be str, not " +:+ type_name raw)).
Proof. intros Hraw. destruct raw; try done. by destruct (Hraw s). Qed.

Lemma convert_birthdate_returns (d : dict) :
  (exists birthdate, convert_birthdate d = Ok birthdate) <-> birthdate_harmless d = true.
Proof.
  unfold convert_birthdate, birthdate_harmless.
  destruct (dict_lookup "birthdate" d) as [raw|]; [|split; eauto].
  destruct raw; try rewrite try_strptime_str;
    (destruct (py_truthy _) eqn:Htruthy; simpl;
     [first [split; [by intros [? ?]|done] | split; eauto] | split; eauto]).
Qed.

(** A record is normalised, with no exception, exactly when its birthdate
    is harmless. *)
Lemma worlds_process_returns (player_key : string) (d : dict) :
  (exists r, process_player_data player_key (JDict d) = Ok r)
  <-> birthdate_harmless d = true.
Proof.
  rewrite worlds_process_record, <- convert_birthdate_returns.
  destruct (convert_birthdate d) as [birthdate|e]; simpl.
  - split; eauto.
  - split; intros [? ?]; done.
Qed.

End WorldsRecords.

Lemma worlds_fields (floatstr : Z -> string) (player_key : string) (d : dict)
    (r : Worlds.processed_player) :
  Worlds.process_player_data floatstr player_key (JDict d) = Ok r ->
  Worlds.name r = player_key
  /\ Worlds.main_name r = default (JStr player_key) (dict_lookup "mainName" d)
  /\ Worlds.all_names r
     = Json.dumps floatstr
         match dict_lookup "allNames" d with
         | Some (JList l) => JList l
         | _ => JList []
         end
  /\ Worlds.is_retired r
     = match dict_lookup "isRetired" d with
       | Some raw => py_eq_str raw "1"
       | None => false
       end
  /\ convert_birthdate d = Ok (Worlds.birthdate r).
Proof.
  rewrite worlds_process_record.
  destruct (convert_birthdate d) as [birthdate|e]; simpl; [|done].
  by intros [= <-].
Qed.

Lemma py_eq_str_true (raw : value) (s : string) :
  py_eq_str raw s = true <-> raw = JStr s.
Proof.
  destruct raw; simpl; try (split; done).
  rewrite String.eqb_eq. split; congruence.
Qed.

(** C6.  A Worlds record whose birthdate raises nothing is normalised, and
    in the normalised record [is_retired] is true exactly when the record
    holds the string ["1"] under [isRetired]: an absent key, the number 1
    and every other value give false. *)
Theorem worlds_is_retired (floatstr : Z -> string) (player_key : string) (d : dict) :
  (birthdate_harmless d = true ->
   exists r, Worlds.process_player_data floatstr player_key (JDict d) = Ok r)
  /\ (forall r,
        Worlds.process_player_data floatstr player_key (JDict d) = Ok r ->
        (Worlds.is_retired r = true <-> dict_lookup "isRetired" d = Some (JStr "1"))).
Proof.
  split; [apply worlds_process_returns|].
  intros r Hr. apply worlds_fields in Hr as (_ & _ & _ & -> & _).
  destruct (dict_lookup "isRetired" d) as [raw|]; [|done].
  rewrite py_eq_str_true. split; congruence.
Qed.

Lemma worlds_is_retired_witness :
  exists r,
    Worlds.process_player_data Sample.floatstr "p1" (JDict [("isRetired", JInt 1)]) = Ok r
    /\ Worlds.is_retired r = false.
Proof.
  destruct (worlds_is_retired Sample.floatstr "p1" [("isRetired", JInt 1)])
    as [Hreturns Hflag].
  destruct (Hreturns eq_refl) as [r Hr]. exists r. split; [exact Hr|].
  destruct (Worlds.is_retired r) eqn:Hretired; [|reflexivity].
  apply (Hflag r Hr) in Hretired. discriminate Hretired.
Defined.

(** C7.  In the normalised record [all_names] is the JSON text of the list
    the record holds under [allNames]: the text [json.dumps] writes for it,
    which read back by the grammar of JSON gives that list again, item for
    item, when the list holds no float, no surrogate and no mapping with a
    key twice.  It is the text of the empty list, ["[]"], when the key is
    absent or holds anything but a list. *)
Theorem worlds_all_names (floatstr : Z -> string) (player_key : string) (d : dict) :
  (birthdate_harmless d = true ->
   exists r, Worlds.process_player_data floatstr player_key (JDict d) = Ok r)
  /\ (forall r,
        Worlds.process_player_data floatstr player_key (JDict d) = Ok r ->
        (forall l, dict_lookup "allNames" d = Some (JList l) ->
                   Worlds.all_names r = Json.dumps floatstr (JList l)
                   /\ (readable (JList l) = true ->
                       Json.loads (Worlds.all_names r) = Some (JList l)))
        /\ ((forall l, dict_lookup "allNames" d <> Some (JList l)) ->
            Worlds.all_names r = "[]" /\ Json.loads (Worlds.all_names r) = Some (JList []))).
Proof.
  split; [apply worlds_process_returns|].
  intros r Hr. apply worlds_fields in Hr as (_ & _ & -> & _). split.
  - intros l ->. split; [done|]. apply loads_dumps.
  - intros Hnot_list.
    destruct (dict_lookup "allNames" d) as [[]|]; try (split; reflexivity).
    by destruct (Hnot_list l).
Qed.

(** A name with a quote, a backslash and a line break in it, and names in
    other scripts, are read back from [all_names] as they were. *)
Lemma worlds_all_names_witness :
  exists r,
    Worlds.process_player_data Sample.floatstr "p1"
      (JDict [("allNames",
               JList [JStr (String Json.quote (String Json.backslash
                              (String (ascii_of_nat 10) "Faker")));
                      JStr "Björgsen"; JStr "페이커"])]) = Ok r
    /\ Json.loads (Worlds.all_names r)
       = Some (JList [JStr (String Json.quote (String Json.backslash
                              (String (ascii_of_nat 10) "Faker")));
                      JStr "Björgsen"; JStr "페이커"]).
Proof.
  destruct (worlds_all_names Sample.floatstr "p1"
              [("allNames",
                JList [JStr (String Json.quote (String Json.backslash
                               (String (ascii_of_nat 10) "Faker")));
                       JStr "Björgsen"; JStr "페이커"])]) as [Hreturns Hnames].
  destruct (Hreturns eq_refl) as [r Hr]. exists r. split; [exact Hr|].
  apply (proj1 (Hnames r Hr) _ eq_refl). reflexivity.
Defined.

(** The encoder separates the items with a comma and a blank. *)
Example dumps_two_names :
  Json.dumps Sample.floatstr (JList [JStr "A"; JStr "B"])
  = String.string_of_list_ascii
      ["["; Json.quote; "A"; Json.quote; ","; " "; Json.quote; "B"; Json.quote; "]"]%char.
Proof. reflexivity. Qed.

(** C8.  In the normalised record [name] is the key of the entry, whatever
    the record holds under ["name"], and [main_name] is the value under
    [mainName] when the record has that key and the key of the entry when
    it has not. *)
Theorem worlds_name_and_main_name (floatstr : Z -> string) (player_key : string)
    (d : dict) :
  (birthdate_harmless d = true ->
   exists r, Worlds.process_player_data floatstr player_key (JDict d) = Ok r)
  /\ (forall r,
        Worlds.process_player_data floatstr player_key (JDict d) = Ok r ->
        Worlds.name r = player_key
        /\ (forall given, dict_lookup "mainName" d = Some given ->
                          Worlds.main_name r = given)
        /\ (dict_lookup "mainName" d = None ->
            Worlds.main_name r = JStr player_key)).
Proof.
  split; [apply worlds_process_returns|].
  intros r Hr. apply worlds_fields in Hr as (-> & -> & _).
  repeat split.
  - by intros given ->.
  - by intros ->.
Qed.

Lemma worlds_name_and_main_name_witness :
  exists r,
    Worlds.process_player_data Sample.floatstr "p1"
      (JDict [("name", JStr "inner"); ("team", JStr "T1")]) = Ok r
    /\ Worlds.name r = "p1" /\ Worlds.main_name r = JStr "p1".
Proof.
  destruct (worlds_name_and_main_name Sample.floatstr "p1"
              [("name", JStr "inner"); ("team", JStr "T1")]) as [Hreturns Hnames].
  destruct (Hreturns eq_refl) as [r Hr]. exists r.
  destruct (Hnames r Hr) as (Hname & _ & Hmain).
  split; [exact Hr|]. split; [exact Hname|]. apply Hmain. reflexivity.
Defined.

(** C10.  A Worlds record that holds null under [mainName] is normalised
    with a null [main_name]; the key of the entry is used only when the
    record has no [mainName] at all.  The roster importer differs: a null
    field there is replaced by its default, as an absent one is. *)
Theorem worlds_null_main_name (floatstr : Z -> string) (player_key : string)
    (d : dict) :
  (birthdate_harmless d = true ->
   exists r, Worlds.process_player_data floatstr player_key (JDict d) = Ok r)
  /\ (forall r,
        Worlds.process_player_data floatstr player_key (JDict d) = Ok r ->
        (dict_lookup "mainName" d = Some JNull -> Worlds.main_name r = JNull)
        /\ (dict_lookup "mainName" d = None -> Worlds.main_name r = JStr player_key))
  /\ (forall player : dict,
        dict_lookup "team" player = Some JNull ->
        exists normalised,
          Roster.process_player_data (JDict player) = Ok (JDict normalised)
          /\ dict_lookup "team" normalised = Some (JStr "Unknown")).
Proof.
  split; [apply worlds_process_returns|]. split.
  - intros r Hr. apply worlds_fields in Hr as (_ & -> & _).
    split; by intros ->.
  - intros player Hnull. eexists. split; [apply roster_process_record|].
    by rewrite lookup_normalised, Hnull.
Qed.

Lemma worlds_null_main_name_witness :
  exists r,
    Worlds.process_player_data Sample.floatstr "p1" (JDict [("mainName", JNull)]) = Ok r
    /\ Worlds.main_name r = JNull.
Proof.
  destruct (worlds_null_main_name Sample.floatstr "p1" [("mainName", JNull)])
    as (Hreturns & Hmain & _).
  destruct (Hreturns eq_refl) as [r Hr]. exists r. split; [exact Hr|].
  apply (proj1 (Hmain r Hr)). reflexivity.
Defined.

(** ** The dates [strptime] accepts *)

Lemma make_date_ok (y m d : Z) (dt : date) :
  make_date y m d = Ok dt <-> dt = Date y m d /\ valid_date (Date y m d).
Proof.
  unfold make_date, valid_date. simpl. split.
  - destruct (_ && _) eqn:Hy; simpl; [|done].
    destruct (_ && _) eqn:Hm in |- *; simpl; [|done].
    destruct (_ && _) eqn:Hd in |- *; simpl; [|done].
    intros [= <-]. split; [done|]. lia.
  - intros [-> (Hy & Hm & Hd)].
    assert ((1 <=? y) && (y <=? 9999) = true) as -> by lia.
    assert ((1 <=? m) && (m <=? 12) = true) as -> by lia.
    assert ((1 <=? d) && (d <=? days_in_month y m) = true) as -> by lia.
    done.
Qed.

Lemma digit_char_byte (n : Z) : 0 <= n <= 9 -> Utf8.byte (digit_char n) = 48 + n.
Proof.
  intros Hn. unfold Utf8.byte, digit_char. rewrite nat_ascii_embedding by lia. lia.
Qed.

Lemma decimal_digit_char (n : Z) :
  0 <= n <= 9 -> Utf8.decimal (Utf8.byte (digit_char n)) = Some n.
Proof.
  intros Hn. assert (n ∈ seqZ 0 10) as Hin by (apply elem_of_seqZ; lia).
  clear Hn. revert n Hin. apply Forall_forall.
  apply (bool_decide_unpack _). by vm_compute.
Qed.

Lemma list_bind_assoc {A B C : Type} (f : A -> list B) (g : B -> list C) (l : list A) :
  (l ≫= f) ≫= g = l ≫= (fun x => f x ≫= g).
Proof.
  induction l as [|x l IH]; [done|].
  by rewrite !bind_cons, bind_app, IH.
Qed.

Lemma match_format_month (s : list Z) :
  match_format s =
  '(y, r1) ← re_Y s; '(m, r4) ← match_month r1; '(d, r5) ← re_d r4; [(y, m, d, r5)].
Proof.
  unfold match_format, match_month.
  apply list_bind_ext; [|done]. intros [y r1].
  rewrite list_bind_assoc. apply list_bind_ext; [|done]. intros [sep1 r2].
  rewrite list_bind_assoc. apply list_bind_ext; [|done]. intros [m r3].
  rewrite list_bind_assoc. apply list_bind_ext; [|done]. intros [sep2 r4].
  by rewrite bind_singleton.
Qed.

(** *** Accepted texts are parsed *)

Lemma re_Y_digits (a b c e : Z) (rest : list Z) :
  Utf8.is_decimal a = true -> Utf8.is_decimal b = true ->
  Utf8.is_decimal c = true -> Utf8.is_decimal e = true ->
  re_Y (a :: b :: c :: e :: rest) = [([a; b; c; e], rest)].
Proof.
  intros Ha Hb Hc He. unfold re_Y, re_seq, re_digit, re_class. simpl.
  rewrite Ha. simpl. rewrite Hb. simpl. rewrite Hc. simpl. by rewrite He.
Qed.

Lemma py_int_digits (c1 c2 c3 c4 n1 n2 n3 n4 : Z) :
  Utf8.decimal c1 = Some n1 -> Utf8.decimal c2 = Some n2 ->
  Utf8.decimal c3 = Some n3 -> Utf8.decimal c4 = Some n4 ->
  py_int [c1; c2; c3; c4] = 1000 * n1 + 100 * n2 + 10 * n3 + n4.
Proof.
  intros H1 H2 H3 H4. unfold py_int. cbn [lstrip].
  rewrite (decimal_not_blank c1) by (by eapply decimal_is_decimal).
  cbn [foldl]. unfold digit_value. rewrite H1, H2, H3, H4. simpl. lia.
Qed.

Lemma year_reads (y : Z) (yt rest : list Z) :
  year_spelling y yt -> re_Y (yt ++ rest) = [(yt, rest)] /\ py_int yt = y.
Proof.
  intros (c1 & c2 & c3 & c4 & n1 & n2 & n3 & n4 & -> & H1 & H2 & H3 & H4 & ->).
  split; [|by apply py_int_digits].
  apply re_Y_digits; by eapply decimal_is_decimal.
Qed.

Lemma month_reads (m : Z) (mt rest : list Z) :
  1 <= m <= 12 -> month_spelling m mt ->
  match_month (hyphen :: mt ++ hyphen :: rest) = [(mt, rest)] /\ py_int mt = m.
Proof.
  intros Hm Hmt. assert (m ∈ seqZ 1 12) as Hin by (apply elem_of_seqZ; lia).
  clear Hm. unfold month_spelling in Hmt. vm_compute in Hin.
  repeat (apply elem_of_cons in Hin as [->|Hin]); [..|by apply elem_of_nil in Hin];
    vm_compute in Hmt;
    repeat (apply elem_of_cons in Hmt as [->|Hmt]);
    try (by apply elem_of_nil in Hmt); by vm_compute.
Qed.

Lemma day_reads_all : forallb day_reads (seqZ 1 31) = true.
Proof. by vm_compute. Qed.

Lemma day_reads_ascii (d : Z) (dtx : list Z) :
  1 <= d <= 31 -> dtx ∈ codes <$> day_texts d ->
  head (re_d dtx) = Some (dtx, []) /\ py_int dtx = d.
Proof.
  intros Hd (x & -> & Hx)%list_elem_of_fmap.
  pose proof day_reads_all as Hall.
  rewrite forallb_forall in Hall.
  specialize (Hall d). rewrite <- list_elem_of_In, elem_of_seqZ in Hall.
  specialize (Hall ltac:(lia)). unfold day_reads in Hall.
  rewrite forallb_forall in Hall.
  specialize (Hall x). rewrite <- list_elem_of_In in Hall.
  specialize (Hall Hx). by apply bool_decide_eq_true_1 in Hall.
Qed.

Lemma day_reads_two (t c v : Z) :
  t = 1 \/ t = 2 -> Utf8.decimal c = Some v ->
  head (re_d [48 + t; c]) = Some ([48 + t; c], []) /\ py_int [48 + t; c] = 10 * t + v.
Proof.
  intros Ht Hv. pose proof (decimal_is_decimal c v Hv) as Hc.
  split.
  - unfold re_d, re_digit. revert Hc. generalize Utf8.is_decimal as digit.
    intros digit Hc. destruct Ht as [-> | ->]; vm_compute; by rewrite Hc.
  - unfold py_int, digit_value.
    destruct Ht as [-> | ->]; cbn [lstrip];
      [change (48 + 1 =? 32) with false; cbn [foldl];
       change (Utf8.decimal (48 + 1)) with (Some 1)
      |change (48 + 2 =? 32) with false; cbn [foldl];
       change (Utf8.decimal (48 + 2)) with (Some 2)];
      rewrite Hv; simpl; lia.
Qed.

Lemma day_reads_spelling (d : Z) (dtx : list Z) :
  1 <= d <= 31 -> day_spelling d dtx ->
  head (re_d dtx) = Some (dtx, []) /\ py_int dtx = d.
Proof.
  intros Hd [Hascii | (c & Hrange & Hc & ->)]; [by apply day_reads_ascii|].
  assert (d / 10 = 1 \/ d / 10 = 2) as Hten by by_division.
  rewrite digit_char_byte by lia.
  destruct (day_reads_two (d / 10) c (d mod 10) Hten Hc) as [Hhead Hint].
  split; [done|]. rewrite Hint. by_division.
Qed.

Lemma strptime_date_accepts (s : string) (dt : date) :
  valid_date dt -> accepted_spelling dt s -> strptime_date (JStr s) = Ok dt.
Proof.
  intros (Hy & Hm & Hd) (yt & mt & dtx & Hyt & Hmt & Hdtx & Hs).
  assert (1 <= day dt <= 31) as Hd31.
  { unfold days_in_month in Hd. repeat case_match; lia. }
  destruct (year_reads _ _ (hyphen :: mt ++ hyphen :: dtx) Hyt) as [Hyear Hyint].
  destruct (month_reads _ _ dtx Hm Hmt) as [Hmonth Hmint].
  destruct (day_reads_spelling _ _ Hd31 Hdtx) as [Hday Hdint].
  unfold strptime_date.
  rewrite Hs, match_format_month, Hyear, bind_singleton, Hmonth, bind_singleton.
  destruct (re_d dtx) as [|[d' r'] others]; [done|].
  simpl in Hday. injection Hday as -> ->. cbn [mbind list_bind app].
  rewrite Hyint, Hmint, Hdint.
  apply make_date_ok. by destruct dt.
Qed.

(** *** Parsed texts are accepted *)

Lemma consumes_class (p : Z -> bool) :
  consumes (re_class p) (fun x => exists c, x = [c] /\ p c = true).
Proof.
  intros [|c s] x r; simpl; [by intros ?%elem_of_nil|].
  destruct (p c) eqn:Hp; [|by intros ?%elem_of_nil].
  intros [= -> ->]%list_elem_of_singleton. eauto.
Qed.

Lemma consumes_seq (a b : re) (P Q : list Z -> Prop) :
  consumes a P -> consumes b Q ->
  consumes (re_seq a b) (fun x => exists x1 x2, x = x1 ++ x2 /\ P x1 /\ Q x2).
Proof.
  intros Ha Hb s x r. unfold re_seq.
  intros ([x1 r1] & Hin & Hx1)%list_elem_of_bind.
  apply list_elem_of_bind in Hin as ([x2 r2] & Hin & Hx2).
  apply list_elem_of_singleton in Hin as [= -> ->].
  apply Ha in Hx1 as [-> HP]. apply Hb in Hx2 as [-> HQ].
  split; [by rewrite app_assoc|eauto].
Qed.

Lemma consumes_alt (a b : re) (P Q : list Z -> Prop) :
  consumes a P -> consumes b Q -> consumes (re_alt a b) (fun x => P x \/ Q x).
Proof.
  intros Ha Hb s x r. unfold re_alt.
  intros [Hin|Hin]%elem_of_app;
    [destruct (Ha _ _ _ Hin)|destruct (Hb _ _ _ Hin)]; auto.
Qed.

Lemma in_range_cases (lo hi : ascii) (c : Z) :
  in_range lo hi c = true -> c ∈ chars_between lo hi.
Proof.
  unfold in_range, chars_between. rewrite andb_true_iff, !Z.leb_le. intros [Hlo Hhi].
  apply elem_of_seqZ. lia.
Qed.

Lemma eqb_cases (c0 : ascii) (c : Z) : (Utf8.byte c0 =? c) = true -> c ∈ [Utf8.byte c0].
Proof. intros <-%Z.eqb_eq. by left. Qed.

Ltac enumerate_chars :=
  repeat match goal with
  | H : _ /\ _ |- _ => destruct H
  | H : _ \/ _ |- _ => destruct H
  | H : exists _, _ |- _ => destruct H
  | H : in_range ?lo ?hi ?c = true |- _ =>
      apply in_range_cases in H;
      let l := eval vm_compute in (chars_between lo hi) in
      change (c ∈ l) in H
  | H : (Utf8.byte ?c0 =? ?c) = true |- _ =>
      apply eqb_cases in H;
      let l := eval vm_compute in [Utf8.byte c0] in
      change (c ∈ l) in H
  | H : _ ∈ _ :: _ |- _ => apply elem_of_cons in H
  | H : _ ∈ [] |- _ => by apply elem_of_nil in H
  end; subst.

Lemma consumes_re_m : consumes re_m month_text.
Proof.
  intros s x r Hin.
  eapply (consumes_alt _ _ _ _
            (consumes_seq _ _ _ _ (consumes_class _) (consumes_class _))
            (consumes_alt _ _ _ _
               (consumes_seq _ _ _ _ (consumes_class _) (consumes_class _))
               (consumes_class _))) in Hin as [-> Hx].
  split; [done|]. unfold month_text, month_spelling.
  enumerate_chars; apply (bool_decide_unpack _); by vm_compute.
Qed.

Lemma day_text_two (t c : Z) :
  t = 1 \/ t = 2 -> Utf8.is_decimal c = true -> day_text [48 + t; c].
Proof.
  intros Ht (v & Hv & Hrange)%is_decimal_value.
  destruct (day_reads_two t c v Ht Hv) as [_ Hint].
  unfold day_text. rewrite Hint. split; [lia|]. right. exists c.
  split; [lia|]. split.
  - rewrite Hv. f_equal. by_division.
  - rewrite digit_char_byte by by_division. repeat f_equal. by_division.
Qed.

Lemma consumes_re_d : consumes re_d day_text.
Proof.
  intros s x r Hin.
  eapply (consumes_alt _ _ _ _
            (consumes_seq _ _ _ _ (consumes_class _) (consumes_class _))
            (consumes_alt _ _ _ _
               (consumes_seq _ _ _ _ (consumes_class _) (consumes_class _))
               (consumes_alt _ _ _ _
                  (consumes_seq _ _ _ _ (consumes_class _) (consumes_class _))
                  (consumes_alt _ _ _ _
                     (consumes_class _)
                     (consumes_seq _ _ _ _ (consumes_class _) (consumes_class _))))))
    in Hin as [-> Hx].
  split; [done|].
  enumerate_chars;
    first [ by (apply (day_text_two 1); [left|])
          | by (apply (day_text_two 2); [right|])
          | split; [|left]; apply (bool_decide_unpack _); by vm_compute ].
Qed.

Lemma consumes_re_Y : consumes re_Y year_text.
Proof.
  intros s x r Hin.
  eapply (consumes_seq _ _ _ _ (consumes_class _)
            (consumes_seq _ _ _ _ (consumes_class _)
               (consumes_seq _ _ _ _ (consumes_class _) (consumes_class _))))
    in Hin as [-> Hx].
  split; [done|].
  destruct Hx as (? & ? & -> & (a & -> & Ha) & ? & ? & -> & (b & -> & Hb)
                  & ? & ? & -> & (c & -> & Hc) & (e & -> & He)).
  apply is_decimal_value in Ha as (n1 & H1 & _), Hb as (n2 & H2 & _),
    Hc as (n3 & H3 & _), He as (n4 & H4 & _).
  unfold year_text. cbn [app]. exists a, b, c, e, n1, n2, n3, n4.
  repeat split; try done. by apply py_int_digits.
Qed.

Lemma consumes_hyphen : consumes (re_chr "-") (fun x => x = [hyphen]).
Proof.
  intros s x r Hin. apply consumes_class in Hin as [-> (c & -> & Hc)].
  by apply Z.eqb_eq in Hc as <-.
Qed.

Lemma match_format_sound (s y m d rest : list Z) :
  (y, m, d, rest) ∈ match_format s ->
  s = y ++ hyphen :: m ++ hyphen :: d ++ rest
  /\ year_text y /\ month_text m /\ day_text d.
Proof.
  unfold match_format.
  intros ([y' r1] & Hin & Hy)%list_elem_of_bind.
  apply list_elem_of_bind in Hin as ([sep1 r2] & Hin & Hsep1).
  apply list_elem_of_bind in Hin as ([m' r3] & Hin & Hm).
  apply list_elem_of_bind in Hin as ([sep2 r4] & Hin & Hsep2).
  apply list_elem_of_bind in Hin as ([d' r5] & Hin & Hd).
  apply list_elem_of_singleton in Hin as [= -> -> -> ->].
  apply consumes_re_Y in Hy as [-> Hy]. apply consumes_hyphen in Hsep1 as [-> ->].
  apply consumes_re_m in Hm as [-> Hm]. apply consumes_hyphen in Hsep2 as [-> ->].
  apply consumes_re_d in Hd as [-> Hd]. done.
Qed.

Lemma strptime_date_accepted (s : string) (dt : date) :
  strptime_date (JStr s) = Ok dt -> valid_date dt /\ accepted_spelling dt s.
Proof.
  unfold strptime_date.
  destruct (match_format _) as [|[[[y m] d] rest] others] eqn:Hmatch; [done|].
  destruct rest as [|c rest]; [|done].
  intros [-> Hvalid]%make_date_ok. split; [done|].
  destruct (match_format_sound (Utf8.code_points s) y m d [])
    as (Hs & Hy & [_ Hm] & [_ Hd]).
  { rewrite Hmatch. by left. }
  exists y, m, d. cbn [year month day]. rewrite app_nil_r in Hs. done.
Qed.

(** [strptime] gives a date for exactly the accepted texts of valid dates. *)
Lemma strptime_date_spec (s : string) (dt : date) :
  strptime_date (JStr s) = Ok dt <-> valid_date dt /\ accepted_spelling dt s.
Proof.
  split; [apply strptime_date_accepted|].
  intros [Hvalid Hspelling]. by apply strptime_date_accepts.
Qed.

(** *** The strict text *)

Lemma digits_of_year (y : Z) :
  0 <= y <= 9999 ->
  0 <= y / 1000 <= 9 /\ 0 <= y / 100 mod 10 <= 9 /\ 0 <= y / 10 mod 10 <= 9
  /\ 0 <= y mod 10 <= 9
  /\ 1000 * (y / 1000) + 100 * (y / 100 mod 10) + 10 * (y / 10 mod 10) + y mod 10 = y.
Proof. intros Hy. by_division. Qed.

Lemma code_points_isoformat (y m d : Z) :
  0 <= y <= 9999 -> 0 <= m <= 99 -> 0 <= d <= 99 ->
  Utf8.code_points (isoformat (Date y m d))
  = codes (four_digits y) ++ hyphen :: codes (two_digits m)
      ++ hyphen :: codes (two_digits d).
Proof.
  intros Hy Hm Hd. unfold Utf8.code_points, isoformat. cbn [year month day].
  rewrite String.list_ascii_of_string_of_list_ascii, decode_ascii.
  - unfold codes. by rewrite fmap_app, fmap_cons, fmap_app, fmap_cons.
  - destruct (digits_of_year y Hy) as (H1 & H2 & H3 & H4 & _).
    unfold four_digits, two_digits.
    repeat (first [apply Forall_cons; split | apply Forall_app; split | apply Forall_nil]);
      first [ rewrite digit_char_byte by by_division; by_division
            | by vm_compute ].
Qed.

Lemma year_spelling_four_digits (y : Z) :
  0 <= y <= 9999 -> year_spelling y (codes (four_digits y)).
Proof.
  intros Hy. destruct (digits_of_year y Hy) as (H1 & H2 & H3 & H4 & Hsum).
  unfold four_digits. cbn [codes fmap list_fmap].
  do 4 eexists. exists (y / 1000), (y / 100 mod 10), (y / 10 mod 10), (y mod 10).
  split; [reflexivity|]. by rewrite !decimal_digit_char.
Qed.

Lemma isoformat_accepted (dt : date) :
  valid_date dt -> accepted_spelling dt (isoformat dt).
Proof.
  intros (Hy & Hm & Hd).
  assert (1 <= day dt <= 31) as Hd31.
  { unfold days_in_month in Hd. repeat case_match; lia. }
  exists (codes (four_digits (year dt))), (codes (two_digits (month dt))),
    (codes (two_digits (day dt))).
  split; [apply year_spelling_four_digits; lia|].
  split; [|split].
  - apply list_elem_of_fmap_2. unfold month_texts. case_match; by left.
  - left. apply list_elem_of_fmap_2. unfold day_texts. case_match; by left.
  - destruct dt as [y m d]. apply code_points_isoformat; simpl in *; lia.
Qed.

(** A valid date written the strict way is read back as that date. *)
Lemma strptime_isoformat (dt : date) :
  valid_date dt -> strptime_date (JStr (isoformat dt)) = Ok dt.
Proof. intros Hvalid. by apply strptime_date_accepts; [|apply isoformat_accepted]. Qed.

(** ** [import_worlds_players.py]: the birthdate *)

Lemma convert_birthdate_str (d : dict) (s : string) :
  dict_lookup "birthdate" d = Some (JStr s) ->
  convert_birthdate d
  = Ok (match strptime_date (JStr s) with Ok dt => Some dt | Raise _ => None end).
Proof.
  unfold convert_birthdate. intros ->.
  destruct (py_truthy (JStr s)) eqn:Htruthy; [apply try_strptime_str|].
  simpl in Htruthy. apply negb_false_iff, String.eqb_eq in Htruthy as ->.
  reflexivity.
Qed.

Lemma worlds_birthdate_of (floatstr : Z -> string) (player_key : string) (d : dict)
    (birthdate : option date) :
  convert_birthdate d = Ok birthdate ->
  exists r,
    Worlds.process_player_data floatstr player_key (JDict d) = Ok r
    /\ Worlds.birthdate r = birthdate.
Proof.
  intros Hconvert. rewrite worlds_process_record, Hconvert. simpl. eauto.
Qed.

(** A mapping all of whose records have harmless birthdates is collected
    whole: no record aborts the loop. *)
Lemma collect_players_returns (floatstr : Z -> string) (items : dict) :
  Forall (fun item => exists d, item.2 = JDict d /\ birthdate_harmless d = true) items ->
  exists rows,
    Worlds.collect_players floatstr (JDict items) = Ok rows
    /\ length rows = length items.
Proof.
  unfold Worlds.collect_players. cbn [py_items bind].
  induction 1 as [|[key record] items (d & Hrecord & Hharmless) _ (rows & Hrows & Hlen)].
  - by exists [].
  - simpl in Hrecord. subst record.
    apply (worlds_process_returns floatstr key) in Hharmless as [r Hr].
    exists (Worlds.player_tuple r :: rows). cbn [mapM bind fst snd].
    rewrite Hr. cbn [bind]. rewrite Hrows. cbn [bind length]. by rewrite Hlen.
Qed.

(** C2, as the code has it.  A Worlds record without a birthdate, or with
    a falsy one (null, false, zero, an empty string, list or mapping), is
    normalised with a null birthdate.  A record whose birthdate is a string
    is always normalised, no error reaching the caller, and its birthdate
    is the date [dt] exactly when [dt] is a real calendar date of the years
    1 to 9999 and the string is one of its accepted spellings: the year in
    four decimal digits, each of any script of Unicode, the month and the
    day in ASCII digits, each with or without the leading zero, the day also
    with a blank in its place, and from the 10th to the 29th with a last
    digit of any script; for every other string the birthdate is null.  So
    the strict text of a valid date is read back as that date.  And a
    mapping whose records all have such birthdates is collected whole: none
    of them aborts the import. *)
Theorem worlds_birthdate (floatstr : Z -> string) :
  (forall (player_key : string) (d : dict),
      (dict_lookup "birthdate" d = None ->
       exists r, Worlds.process_player_data floatstr player_key (JDict d) = Ok r
                 /\ Worlds.birthdate r = None)
      /\ (forall raw, dict_lookup "birthdate" d = Some raw -> py_truthy raw = false ->
            exists r, Worlds.process_player_data floatstr player_key (JDict d) = Ok r
                      /\ Worlds.birthdate r = None)
      /\ (forall s, dict_lookup "birthdate" d = Some (JStr s) ->
            exists r, Worlds.process_player_data floatstr player_key (JDict d) = Ok r
                      /\ forall dt, Worlds.birthdate r = Some dt
                                    <-> valid_date dt /\ accepted_spelling dt s)
      /\ (forall dt, valid_date dt ->
            dict_lookup "birthdate" d = Some (JStr (isoformat dt)) ->
            exists r, Worlds.process_player_data floatstr player_key (JDict d) = Ok r
                      /\ Worlds.birthdate r = Some dt))
  /\ (forall items : dict,
        Forall (fun item => exists d, item.2 = JDict d /\ birthdate_harmless d = true)
               items ->
        exists rows,
          Worlds.collect_players floatstr (JDict items) = Ok rows
          /\ length rows = length items).
Proof.
  split; [|apply collect_players_returns].
  intros player_key d. repeat split.
  - intros Habsent. apply worlds_birthdate_of.
    unfold convert_birthdate. by rewrite Habsent.
  - intros raw Hraw Hfalsy. apply worlds_birthdate_of.
    unfold convert_birthdate. by rewrite Hraw, Hfalsy.
  - intros s Hraw.
    destruct (worlds_birthdate_of floatstr player_key d _ (convert_birthdate_str d s Hraw))
      as (r & Hr & Hbirthdate).
    exists r. split; [done|]. intros dt. rewrite Hbirthdate, <- strptime_date_spec.
    destruct (strptime_date (JStr s)); split; congruence.
  - intros dt Hvalid Hraw.
    destruct (worlds_birthdate_of floatstr player_key d _
                (convert_birthdate_str d _ Hraw)) as (r & Hr & Hbirthdate).
    exists r. split; [done|]. by rewrite Hbirthdate, strptime_isoformat.
Qed.

(** The scenario of the specification: ["1995-06-01"]. *)
Lemma worlds_birthdate_witness :
  exists r,
    Worlds.process_player_data Sample.floatstr "p1"
      (JDict [("isRetired", JStr "1"); ("birthdate", JStr "1995-06-01")]) = Ok r
    /\ Worlds.birthdate r = Some (Date 1995 6 1).
Proof.
  apply (proj2 (proj2 (proj2
           (proj1 (worlds_birthdate Sample.floatstr) "p1"
              [("isRetired", JStr "1"); ("birthdate", JStr "1995-06-01")])))
           (Date 1995 6 1)).
  - unfold valid_date. cbn [year month day].
    change (days_in_month 1995 6) with 30. lia.
  - reflexivity.
Defined.

(** C2 as the specification states it fails on ["1995-6-1"]: that string is
    the strict [YYYY-MM-DD] text of no date, and the normalised birthdate
    is the first of June 1995, not null. *)
Lemma worlds_birthdate_counterexample :
  (forall dt, isoformat dt <> "1995-6-1")
  /\ exists r,
       Worlds.process_player_data Sample.floatstr "p1"
         (JDict [("birthdate", JStr "1995-6-1")]) = Ok r
       /\ Worlds.birthdate r = Some (Date 1995 6 1).
Proof.
  split.
  - intros dt Heq. apply (f_equal String.length) in Heq. discriminate Heq.
  - eexists. split; reflexivity.
Qed.

(** The digits of the year, and the last digit of a day from the 10th to
    the 29th, may be of any script; those of the month may not. *)
Example worlds_birthdate_digits :
  strptime_date (JStr "١٩٩٥-06-01") = Ok (Date 1995 6 1)
  /\ strptime_date (JStr "1995-06-1٥") = Ok (Date 1995 6 15)
  /\ Worlds.try_strptime (JStr "1995-06-3٠") = Ok None
  /\ Worlds.try_strptime (JStr "1995-٠6-01") = Ok None.
Proof. repeat split. Qed.

(** A birthdate that is a number is not a format error: [strptime] raises
    [TypeError], which the [except ValueError] lets through, and the run
    ends in the handler with nothing submitted. *)
Example worlds_birthdate_number :
  Worlds.process_player_data Sample.floatstr "p1"
    (JDict [("birthdate", JInt 19950601)])
  = Raise (Exn TypeError "strptime() argument 1 must be str, not int")
  /\ Sample.import_worlds_players
       (JDict [("p1", JDict [("birthdate", JInt 19950601)])])
     = Outcome ["Error importing players: strptime() argument 1 must be str, not int"]
         ConnOpen None ∅ Returned.
Proof. split; reflexivity. Qed.

(** * Further properties *)

(** ** [import_players.py]: records and rows *)

Lemma roster_record_row (player : dict) :
  (let* processed_player := Roster.process_player_data (JDict player) in
   Roster.player_tuple processed_player)
  = Ok (roster_row player).
Proof.
  rewrite roster_process_record. cbn [bind].
  unfold Roster.player_tuple, py_get. cbn [bind].
  rewrite !lookup_normalised. reflexivity.
Qed.

Lemma roster_collect_records (records : list dict) :
  Roster.collect_players (JList (JDict <$> records)) = Ok (roster_row <$> records).
Proof.
  unfold Roster.collect_players. cbn [py_iter bind].
  induction records as [|player records IH]; [done|].
  cbn [fmap list_fmap mapM]. rewrite roster_record_row. cbn [bind].
  change (mapM _ (list_fmap _ _ JDict records)) with
    (mapM (fun player => let* processed_player := Roster.process_player_data player in
                         Roster.player_tuple processed_player) (JDict <$> records)).
  rewrite IH. reflexivity.
Qed.

(** X1.  A document that is a non-empty sequence of records yields one row per
    record, in the order of the document: the record's name as it is (null
    when the record has none, the name is never defaulted) and the seven
    optional fields filled in.  With the table present that is the batch
    submitted, and when the upsert succeeds the run reports the number of
    records, closes the connection and returns. *)
Theorem roster_rows_in_order {Extra : Type}
    (stored_name : Roster.Tuple -> result string)
    (fresh : gmap string (Roster.Tuple * Extra) -> Roster.Tuple -> Extra)
    (w : world Roster.Tuple Extra) (records : list dict) :
  load w = Parsed (JList (JDict <$> records)) -> connects w = None ->
  table_exists w = true -> records <> [] ->
  Roster.collect_players (JList (JDict <$> records)) = Ok (roster_row <$> records)
  /\ submitted (Roster.import_players stored_name fresh w) = Some (roster_row <$> records)
  /\ forall tbl,
       execute_values stored_name fresh (players w) (roster_row <$> records) = Ok tbl ->
       Roster.import_players stored_name fresh w
       = Outcome [msg_success (length records)] ConnClosed
           (Some (roster_row <$> records)) tbl Returned.
Proof.
  intros Hload Hconn Htable Hrecords.
  split; [apply roster_collect_records|].
  unfold Roster.import_players. rewrite Hload, Hconn, Htable.
  cbn [negb Roster.resolve_player_list]. rewrite roster_collect_records.
  destruct records as [|player records]; [done|]. cbn [fmap list_fmap].
  split.
  - by destruct (execute_values _ _ _ _).
  - intros tbl ->. cbn [length]. by rewrite <- (length_fmap roster_row records).
Qed.

Lemma roster_rows_in_order_witness :
  submitted
    (Sample.import_players
       (JList [JDict [("name", JStr "Faker"); ("team", JStr "T1")];
               JDict [("name", JStr "Caps"); ("role", JNull)]]))
  = Some [(JStr "Faker", JStr "T1", JStr "Unknown", JStr "Unknown", JBool true,
           JInt 2010, JStr "Unknown", JNull);
          (JStr "Caps", JStr "Unknown", JStr "Unknown", JStr "Unknown", JBool true,
           JInt 2010, JStr "Unknown", JNull)].
Proof.
  apply (proj1 (proj2 (roster_rows_in_order Sample.roster_name Sample.no_extra
                         (Sample.fresh_world
                            (JList [JDict [("name", JStr "Faker"); ("team", JStr "T1")];
                                    JDict [("name", JStr "Caps"); ("role", JNull)]]))
                         [[("name", JStr "Faker"); ("team", JStr "T1")];
                          [("name", JStr "Caps"); ("role", JNull)]]
                         eq_refl eq_refl eq_refl ltac:(discriminate)))).
Defined.

Lemma filled_not_null (current : option value) (default : value) :
  default <> JNull -> filled current default <> JNull.
Proof. intros Hdefault. by destruct current as [[]|]. Qed.

(** X2.  Whatever a record holds, the row submitted for it has no null in
    the six columns whose default is not null: team, role, region, active,
    year_started and nationality.  Only the name and image_url can be
    null. *)
Theorem roster_row_never_null (player : dict) :
  exists name team role region active year_started nationality image_url,
    (let* processed_player := Roster.process_player_data (JDict player) in
     Roster.player_tuple processed_player)
    = Ok (name, team, role, region, active, year_started, nationality, image_url)
    /\ team <> JNull /\ role <> JNull /\ region <> JNull /\ active <> JNull
    /\ year_started <> JNull /\ nationality <> JNull.
Proof.
  do 8 eexists. split; [apply roster_record_row|].
  repeat split; by apply filled_not_null.
Qed.

(** X3.  Normalising a record touches the seven optional fields only: any
    other field, the name among them, holds afterwards what it held
    before, and no field of the record is removed. *)
Theorem roster_other_fields_kept (player : dict) (field : string) :
  exists normalised : dict,
    Roster.process_player_data (JDict player) = Ok (JDict normalised)
    /\ (field ∉ ["team"; "role"; "region"; "active"; "year_started"; "nationality";
                 "image_url"] ->
        dict_lookup field normalised = dict_lookup field player)
    /\ (is_Some (dict_lookup field player) -> is_Some (dict_lookup field normalised)).
Proof.
  eexists. split; [apply roster_process_record|].
  rewrite lookup_normalised. split.
  - intros Hother. rewrite (dict_lookup_not_key Roster.defaults field); done.
  - intros [given Hgiven]. rewrite Hgiven.
    destruct (dict_lookup field Roster.defaults); eauto.
Qed.

Lemma roster_other_fields_kept_witness :
  exists normalised : dict,
    Roster.process_player_data
      (JDict [("name", JStr "Faker"); ("nickname", JNull)]) = Ok (JDict normalised)
    /\ dict_lookup "nickname" normalised = Some JNull.
Proof.
  destruct (roster_other_fields_kept [("name", JStr "Faker"); ("nickname", JNull)]
              "nickname") as (normalised & Hrun & Hother & _).
  exists normalised. split; [exact Hrun|]. rewrite Hother; [reflexivity|].
  apply (bool_decide_unpack _). reflexivity.
Defined.

Lemma dict_set_same (k : string) (v : value) (d : dict) :
  dict_lookup k d = Some v -> dict_set k v d = d.
Proof.
  induction d as [|[k' v'] d IH]; simpl; [done|].
  destruct (String.eqb k' k) eqn:E.
  - apply String.eqb_eq in E as ->. by intros [= ->].
  - intros Hlookup. by rewrite IH.
Qed.

Lemma fill_all_settled (defs d : dict) :
  (forall key default, (key, default) ∈ defs ->
     exists current, dict_lookup key d = Some current
                     /\ (current <> JNull \/ current = default)) ->
  fill_all d defs = d.
Proof.
  induction defs as [|[key default] rest IH]; intros Hsettled; [done|].
  cbn [fill_all].
  destruct (Hsettled key default) as (current & Hcurrent & Hshape); [by left|].
  assert (fill_one d key default = d) as ->.
  { unfold fill_one. rewrite Hcurrent. destruct Hshape as [Hnot_null| ->].
    - by destruct current.
    - destruct default; try done. by apply dict_set_same. }
  apply IH. intros key' default' Hin. apply Hsettled. by right.
Qed.

Lemma dict_lookup_entry (d : dict) (k : string) (v : value) :
  NoDup (dict_keys d) -> (k, v) ∈ d -> dict_lookup k d = Some v.
Proof.
  induction d as [|[k' v'] d IH]; simpl; [by intros _ ?%elem_of_nil|].
  intros [Hfresh Hnodup]%NoDup_cons [[= -> ->]|Hin]%elem_of_cons.
  - by rewrite String.eqb_refl.
  - destruct (String.eqb k' k) eqn:E; [|auto].
    apply String.eqb_eq in E as ->. destruct Hfresh.
    apply list_elem_of_fmap. by exists (k, v).
Qed.

(** X4.  Normalising is idempotent: a normalised record is normalised to
    itself, field for field and in the same order. *)
Theorem roster_normalise_twice (player : dict) :
  (let* once := Roster.process_player_data (JDict player) in
   Roster.process_player_data once)
  = Roster.process_player_data (JDict player).
Proof.
  rewrite roster_process_record. cbn [bind]. rewrite roster_process_record.
  do 2 f_equal. apply fill_all_settled. intros key default Hin.
  rewrite lookup_normalised,
    (dict_lookup_entry Roster.defaults key default defaults_keys_distinct Hin).
  eexists. split; [done|].
  destruct (dict_lookup key player) as [[]|]; simpl; auto.
Qed.

(** ** Loops that stop at the first exception *)

Lemma mapM_returns {A B : Type} (f : A -> result B) (l : list A) :
  (exists ys, mapM f l = Ok ys) <-> Forall (fun x => exists y, f x = Ok y) l.
Proof.
  induction l as [|x l IH]; cbn [mapM].
  - split; [constructor|eauto].
  - rewrite Forall_cons, <- IH. destruct (f x) as [y|e]; cbn [bind].
    + destruct (mapM f l) as [ys|e]; cbn [bind].
      * split; eauto.
      * split; [by intros [? ?]|by intros [_ [? ?]]].
    + split; [by intros [? ?]|by intros [[? ?] _]].
Qed.

Lemma mapM_raises {A B : Type} (f : A -> result B) (P : exn -> Prop) (l : list A) :
  Forall (fun x => (exists y, f x = Ok y) \/ (exists e, f x = Raise e /\ P e)) l ->
  Exists (fun x => exists e, f x = Raise e) l ->
  exists e, mapM f l = Raise e /\ P e.
Proof.
  induction 1 as [|x l Hx _ IH]; intros Hbad; [by apply Exists_nil in Hbad|].
  cbn [mapM]. destruct Hx as [[y Hy]|(e & He & HP)].
  - rewrite Hy. cbn [bind].
    apply Exists_cons in Hbad as [[e' He']|Hbad]; [congruence|].
    destruct (IH Hbad) as (e & -> & HP). eauto.
  - rewrite He. eauto.
Qed.

(** ** [import_players.py]: elements that are no records *)

Lemma roster_process_not_record (player : value) :
  is_dict player = false ->
  exists e, Roster.process_player_data player = Raise e /\ cls e = TypeError.
Proof.
  intros Hshape. unfold Roster.process_player_data, Roster.defaults.
  cbn [foldM Roster.fill_default].
  destruct player; try done; cbn [py_contains bind]; try (by eauto).
  - destruct (is_substring "team" s); cbn; eauto.
  - destruct (existsb _ l); cbn; eauto.
Qed.

Lemma roster_record_or_not (player : value) :
  (exists row,
     (let* processed_player := Roster.process_player_data player in
      Roster.player_tuple processed_player) = Ok row)
  \/ (exists e,
        (let* processed_player := Roster.process_player_data player in
         Roster.player_tuple processed_player) = Raise e
        /\ cls e = TypeError).
Proof.
  destruct (is_dict player) eqn:Hshape.
  - left. destruct player; try done. rewrite roster_record_row. eauto.
  - right. destruct (roster_process_not_record player Hshape) as (e & -> & He). eauto.
Qed.

(** X5.  One element that is no record, anywhere in the sequence, aborts
    the whole import: the loop raises [TypeError], the run prints the
    error, submits and commits nothing, and returns with the connection
    not closed, however many well-formed records stand beside it. *)
Theorem roster_one_bad_element_aborts {Extra : Type}
    (stored_name : Roster.Tuple -> result string)
    (fresh : gmap string (Roster.Tuple * Extra) -> Roster.Tuple -> Extra)
    (w : world Roster.Tuple Extra) (elements : list value) :
  load w = Parsed (JList elements) -> connects w = None -> table_exists w = true ->
  Exists (fun element => is_dict element = false) elements ->
  exists e,
    cls e = TypeError
    /\ Roster.import_players stored_name fresh w
       = Outcome [msg_error e] ConnOpen None (players w) Returned.
Proof.
  intros Hload Hconn Htable Hbad.
  destruct (mapM_raises
              (fun player => let* processed_player := Roster.process_player_data player in
                             Roster.player_tuple processed_player)
              (fun e => cls e = TypeError) elements) as (e & Hloop & He).
  - apply Forall_forall. intros player _. apply roster_record_or_not.
  - eapply Exists_impl; [exact Hbad|]. intros player Hshape. cbn beta in Hshape.
    destruct (roster_process_not_record player Hshape) as (e & -> & _). eauto.
  - exists e. split; [done|].
    unfold Roster.import_players. rewrite Hload, Hconn, Htable.
    cbn [negb Roster.resolve_player_list]. unfold Roster.collect_players.
    cbn [py_iter bind]. by rewrite Hloop.
Qed.

Lemma roster_one_bad_element_aborts_witness :
  exists e,
    cls e = TypeError
    /\ Sample.import_players
         (JList [JDict [("name", JStr "Faker")]; JStr "Caps"])
       = Outcome [msg_error e] ConnOpen None ∅ Returned.
Proof.
  apply (roster_one_bad_element_aborts Sample.roster_name Sample.no_extra
           (Sample.fresh_world (JList [JDict [("name", JStr "Faker")]; JStr "Caps"]))
           [JDict [("name", JStr "Faker")]; JStr "Caps"] eq_refl eq_refl eq_refl).
  apply Exists_cons_tl, Exists_cons_hd. reflexivity.
Defined.

(** ** [import_worlds_players.py]: records and rows *)

(** X6.  The eight optional columns of a Worlds record are copied without
    defaulting and without any check of their type: each is the value
    under its source key, null when the key is absent.  The source key of
    [residency] is ["Residency"], capitalised, and that of
    [player_current_role] is ["current_role"]. *)
Theorem worlds_optional_columns (floatstr : Z -> string) (player_key : string) (d : dict)
    (r : Worlds.processed_player) :
  Worlds.process_player_data floatstr player_key (JDict d) = Ok r ->
  Worlds.nationality r = default JNull (dict_lookup "nationality" d)
  /\ Worlds.residency r = default JNull (dict_lookup "Residency" d)
  /\ Worlds.tournament_role r = default JNull (dict_lookup "tournament_role" d)
  /\ Worlds.team r = default JNull (dict_lookup "team" d)
  /\ Worlds.appearance r = default JNull (dict_lookup "appearance" d)
  /\ Worlds.player_current_role r = default JNull (dict_lookup "current_role" d)
  /\ Worlds.current_team r = default JNull (dict_lookup "current_team" d)
  /\ Worlds.current_team_region r = default JNull (dict_lookup "current_team_region" d).
Proof.
  rewrite worlds_process_record.
  destruct (convert_birthdate d) as [birthdate|e]; simpl; [|done].
  by intros [= <-].
Qed.

Lemma worlds_optional_columns_witness :
  exists r,
    Worlds.process_player_data Sample.floatstr "p1"
      (JDict [("residency", JStr "Korea"); ("current_role", JStr "Mid")]) = Ok r
    /\ Worlds.residency r = JNull
    /\ Worlds.player_current_role r = JStr "Mid".
Proof.
  eexists. split; [reflexivity|].
  destruct (worlds_optional_columns Sample.floatstr "p1"
              [("residency", JStr "Korea"); ("current_role", JStr "Mid")] _ eq_refl)
    as (_ & Hresidency & _ & _ & _ & Hrole & _).
  split; [exact Hresidency|exact Hrole].
Defined.

Lemma worlds_process_not_record (floatstr : Z -> string) (player_key : string) (player_data : value) :
  is_dict player_data = false ->
  exists e, Worlds.process_player_data floatstr player_key player_data = Raise e.
Proof.
  intros Hshape. unfold Worlds.process_player_data.
  destruct player_data; try done; cbn [py_contains bind]; try (by eauto).
  - destruct (is_substring "birthdate" s); cbn; [by eauto|].
    destruct (is_substring "isRetired" s); cbn; [by eauto|].
    destruct (is_substring "allNames" s); cbn; eauto.
  - destruct (existsb _ l); cbn; [by eauto|].
    destruct (existsb _ l); cbn; [by eauto|].
    destruct (existsb _ l); cbn; eauto.
Qed.

Lemma worlds_entry_returns (floatstr : Z -> string) (item : string * value) :
  (exists r, Worlds.process_player_data floatstr item.1 item.2 = Ok r)
  <-> worlds_entry_ok item = true.
Proof.
  unfold worlds_entry_ok. destruct (is_dict item.2) eqn:Hshape.
  - destruct item.2; try done. apply worlds_process_returns.
  - destruct (worlds_process_not_record floatstr item.1 item.2 Hshape) as [e He].
    rewrite He. split; [by intros [? ?]|by destruct item.2].
Qed.

Lemma worlds_collect_returns (floatstr : Z -> string) (items : dict) :
  (exists rows, Worlds.collect_players floatstr (JDict items) = Ok rows)
  <-> Forall (fun item => worlds_entry_ok item = true) items.
Proof.
  unfold Worlds.collect_players. cbn [py_items bind].
  rewrite mapM_returns. apply Forall_iff. intros item.
  rewrite <- (worlds_entry_returns floatstr). cbn beta.
  destruct (Worlds.process_player_data floatstr item.1 item.2) as [r|e]; cbn [bind].
  - split; eauto.
  - split; by intros [? ?].
Qed.

(** X7.  The Worlds loop gets through a mapping exactly when every entry's
    value is itself a mapping whose birthdate is absent, falsy or a
    string.  One entry that is not aborts the whole import: the run prints
    the error, submits and commits nothing, and returns with the
    connection not closed. *)
Theorem worlds_all_or_nothing {Extra : Type} (floatstr : Z -> string)
    (stored_name : Worlds.Tuple -> result string)
    (fresh : gmap string (Worlds.Tuple * Extra) -> Worlds.Tuple -> Extra)
    (items : dict) :
  ((exists rows, Worlds.collect_players floatstr (JDict items) = Ok rows)
   <-> Forall (fun item => worlds_entry_ok item = true) items)
  /\ forall w : world Worlds.Tuple Extra,
       load w = Parsed (JDict items) -> connects w = None -> table_exists w = true ->
       Exists (fun item => worlds_entry_ok item = false) items ->
       exists e,
         Worlds.import_worlds_players floatstr stored_name fresh w
         = Outcome [msg_error e] ConnOpen None (players w) Returned.
Proof.
  split; [apply worlds_collect_returns|].
  intros w Hload Hconn Htable Hbad.
  unfold Worlds.import_worlds_players. rewrite Hload, Hconn, Htable. cbn [negb].
  destruct (Worlds.collect_players floatstr (JDict items)) as [rows|e] eqn:Hloop;
    [|by eauto].
  assert (Forall (fun item => worlds_entry_ok item = true) items) as Hall
    by (apply (worlds_collect_returns floatstr); eauto).
  apply Exists_exists in Hbad as (item & Hin & Hitem).
  rewrite Forall_forall in Hall. specialize (Hall item Hin). congruence.
Qed.

Lemma worlds_all_or_nothing_witness :
  exists e,
    Sample.import_worlds_players
      (JDict [("p1", JDict [("birthdate", JStr "1995-06-01")]);
              ("p2", JDict [("birthdate", JInt 19950601)])])
    = Outcome [msg_error e] ConnOpen None ∅ Returned.
Proof.
  apply (proj2 (worlds_all_or_nothing Sample.floatstr Sample.worlds_name Sample.no_extra
                  [("p1", JDict [("birthdate", JStr "1995-06-01")]);
                   ("p2", JDict [("birthdate", JInt 19950601)])])
           (Sample.fresh_world
              (JDict [("p1", JDict [("birthdate", JStr "1995-06-01")]);
                      ("p2", JDict [("birthdate", JInt 19950601)])]))
           eq_refl eq_refl eq_refl).
  apply Exists_cons_tl, Exists_cons_hd. reflexivity.
Defined.

Lemma worlds_row_named (floatstr : Z -> string) (player_key : string) (player_data : value)
    (r : Worlds.processed_player) :
  Worlds.process_player_data floatstr player_key player_data = Ok r ->
  worlds_row_name (Worlds.player_tuple r) = player_key.
Proof.
  intros Hr. destruct (is_dict player_data) eqn:Hshape.
  - destruct player_data; try done. by apply worlds_fields in Hr as (Hname & _).
  - destruct (worlds_process_not_record floatstr player_key player_data Hshape) as [e He].
    congruence.
Qed.

Lemma worlds_collect_names (floatstr : Z -> string) (items : dict)
    (rows : list Worlds.Tuple) :
  Worlds.collect_players floatstr (JDict items) = Ok rows ->
  worlds_row_name <$> rows = dict_keys items.
Proof.
  unfold Worlds.collect_players. cbn [py_items bind].
  revert rows. induction items as [|[key record] items IH]; intros rows; cbn [mapM].
  - by intros [= <-].
  - cbn [fst snd].
    destruct (Worlds.process_player_data floatstr key record) as [r|e] eqn:Hr;
      cbn [bind]; [|done].
    destruct (mapM _ items) as [rest|e]; cbn [bind]; [|done].
    intros [= <-]. rewrite fmap_cons. unfold dict_keys in *. cbn [map fst].
    f_equal; [by eapply worlds_row_named|by apply IH].
Qed.

(** X8.  When the Worlds loop gets through a mapping it yields one row per
    entry, in the order of the mapping, and the name of each row is the
    key of its entry, whatever the entry holds. *)
Theorem worlds_rows_named_by_keys (floatstr : Z -> string) (items : dict)
    (rows : list Worlds.Tuple) :
  Worlds.collect_players floatstr (JDict items) = Ok rows ->
  length rows = length items /\ worlds_row_name <$> rows = dict_keys items.
Proof.
  intros Hrows%worlds_collect_names. split; [|done].
  apply (f_equal length) in Hrows. unfold dict_keys in Hrows.
  by rewrite length_fmap, length_map in Hrows.
Qed.

Lemma worlds_rows_named_by_keys_witness :
  exists rows,
    Worlds.collect_players Sample.floatstr
      (JDict [("p1", JDict [("name", JStr "inner")]);
              ("p2", JDict [("mainName", JStr "Deft"); ("isRetired", JStr "1")])])
    = Ok rows
    /\ worlds_row_name <$> rows = ["p1"; "p2"].
Proof.
  eexists. split; [reflexivity|].
  apply (proj2 (worlds_rows_named_by_keys Sample.floatstr
                  [("p1", JDict [("name", JStr "inner")]);
                   ("p2", JDict [("mainName", JStr "Deft"); ("isRetired", JStr "1")])]
                  _ eq_refl)).
Defined.

(** ** Pages and statements *)

Lemma mapM_app {A B : Type} (f : A -> result B) (l1 l2 : list A) :
  mapM f (l1 ++ l2)
  = (let* y1 := mapM f l1 in let* y2 := mapM f l2 in Ok (y1 ++ y2)).
Proof.
  induction l1 as [|x l1 IH]; cbn [app mapM bind].
  - by destruct (mapM f l2).
  - destruct (f x) as [y|e]; cbn [bind]; [|done]. rewrite IH.
    destruct (mapM f l1) as [y1|e]; cbn [bind]; [|done].
    by destruct (mapM f l2).
Qed.

(** ** Pages *)

Section Pages.

Context {Tuple : Type}.

Lemma paginate_spec (page_size : nat) (page seq : list Tuple) :
  (length page < page_size)%nat ->
  concat (paginate page_size page seq) = page ++ seq
  /\ Forall (fun p => (0 < length p <= page_size)%nat) (paginate page_size page seq).
Proof.
  revert page. induction seq as [|x rest IH]; intros page Hroom; cbn [paginate].
  - destruct page as [|y page]; cbn [concat].
    + by split.
    + rewrite !app_nil_r. split; [done|]. apply Forall_singleton. cbn [length] in *. lia.
  - assert (length (page ++ [x]) = S (length page)) as Hlen
      by (rewrite length_app; cbn; lia).
    destruct (length (page ++ [x]) =? page_size)%nat eqn:Hfull.
    + apply Nat.eqb_eq in Hfull. destruct (IH []) as [Hconcat Hpages]; [cbn; lia|].
      cbn [concat]. rewrite Hconcat, <- app_assoc. split; [done|].
      constructor; [lia|done].
    + apply Nat.eqb_neq in Hfull. destruct (IH (page ++ [x])) as [Hconcat Hpages]; [lia|].
      rewrite Hconcat, <- app_assoc. done.
Qed.

Lemma paginate_one_page (page_size : nat) (page seq : list Tuple) :
  (length page < page_size)%nat -> (length page + length seq <= page_size)%nat ->
  page ++ seq <> [] ->
  paginate page_size page seq = [page ++ seq].
Proof.
  revert page. induction seq as [|x rest IH]; intros page Hroom Hfit Hsome; cbn [paginate].
  - rewrite app_nil_r in *. by destruct page.
  - assert (length (page ++ [x]) = S (length page)) as Hlen
      by (rewrite length_app; cbn; lia).
    cbn [length] in Hfit.
    destruct (length (page ++ [x]) =? page_size)%nat eqn:Hfull.
    + apply Nat.eqb_eq in Hfull. destruct rest; [done|cbn [length] in Hfit; lia].
    + apply Nat.eqb_neq in Hfull. rewrite IH, <- app_assoc; [done|lia|lia|].
      by destruct page.
Qed.

End Pages.

(** ** What a successful upsert leaves *)

Section UpsertEffects.

Context {Tuple Extra : Type}.
Variable stored_name : Tuple -> result string.
Variable fresh : gmap string (Tuple * Extra) -> Tuple -> Extra.

Implicit Types (tbl : gmap string (Tuple * Extra)) (t : Tuple) (k : string).

Lemma statement_error_none (seen : list string) (page : list Tuple) :
  Db.statement_error stored_name seen page = None
  <-> exists names, mapM stored_name page = Ok names /\ NoDup names
                    /\ forall k, k ∈ names -> k ∉ seen.
Proof.
  revert seen. induction page as [|t rest IH]; intros seen; cbn [Db.statement_error mapM].
  - split; [|done]. intros _. exists []. repeat split; [constructor|].
    by intros k ?%elem_of_nil.
  - destruct (stored_name t) as [k|e]; cbn [bind];
      [|split; [done|by intros (? & ? & _)]].
    case_bool_decide as Hseen.
    + split; [done|]. intros (names & Hnames & _ & Hfresh).
      destruct (mapM stored_name rest); [|done]. injection Hnames as <-.
      destruct (Hfresh k); [by left|done].
    + rewrite IH. split.
      * intros (names & -> & Hnodup & Hfresh). exists (k :: names). cbn [bind].
        repeat split.
        -- apply NoDup_cons. split; [|done]. intros Hin.
           apply (Hfresh k Hin). by left.
        -- intros k' [->|Hin]%elem_of_cons; [done|].
           intros Hseen'. apply (Hfresh k' Hin). by right.
      * intros (names & Hnames & Hnodup & Hfresh).
        destruct (mapM stored_name rest) as [names'|]; [|done].
        injection Hnames as <-. apply NoDup_cons in Hnodup as [Hk Hnodup].
        exists names'. repeat split; [done|].
        intros k' Hin [->|Hseen']%elem_of_cons; [done|].
        apply (Hfresh k'); [by right|done].
Qed.

Lemma batch_error_none (pages : list (list Tuple)) :
  Db.batch_error stored_name pages = None
  <-> Forall (fun page => Db.statement_error stored_name [] page = None) pages.
Proof.
  induction pages as [|page rest IH]; cbn [Db.batch_error]; [done|].
  rewrite Forall_cons, <- IH.
  destruct (Db.statement_error stored_name [] page); [|tauto].
  split; [done|by intros [? _]].
Qed.

(** A batch that goes through was accepted row by row, and the table is
    the rows applied in order. *)
Lemma execute_values_ok tbl tbl' (rows : list Tuple) :
  execute_values stored_name fresh tbl rows = Ok tbl' ->
  tbl' = foldl (Db.apply_row stored_name fresh) tbl rows
  /\ exists names, mapM stored_name rows = Ok names.
Proof.
  rewrite execute_values_eq.
  destruct (paginate_spec 100 [] rows) as [Hconcat _]; [cbn; lia|]. cbn [app] in Hconcat.
  destruct (Db.batch_error _ _) eqn:Herror; [done|]. intros [= <-].
  rewrite Hconcat. split; [done|]. rewrite <- Hconcat.
  apply batch_error_none in Herror. clear Hconcat.
  induction Herror as [|page pages Hpage _ IH]; [by exists []|].
  apply statement_error_none in Hpage as (names & Hnames & _).
  destruct IH as [rest Hrest]. cbn [concat]. rewrite mapM_app, Hnames, Hrest. eauto.
Qed.

Lemma apply_row_other tbl t k :
  stored_name t <> Ok k -> Db.apply_row stored_name fresh tbl t !! k = tbl !! k.
Proof.
  intros Hother. unfold Db.apply_row, upsert.
  destruct (stored_name t) as [k'|e]; [|done].
  assert (k' <> k) by congruence.
  destruct (tbl !! k') as [[t0 e0]|]; by rewrite lookup_insert_ne.
Qed.

Lemma apply_rows_other tbl (rows : list Tuple) k :
  Forall (fun t => stored_name t <> Ok k) rows ->
  foldl (Db.apply_row stored_name fresh) tbl rows !! k = tbl !! k.
Proof.
  intros Hother. revert tbl. induction Hother as [|t rows Ht _ IH]; intros tbl; [done|].
  cbn [foldl]. by rewrite IH, apply_row_other.
Qed.

Lemma apply_row_keeps_unlisted tbl t k (row : Tuple) (e : Extra) :
  tbl !! k = Some (row, e) ->
  exists row', Db.apply_row stored_name fresh tbl t !! k = Some (row', e).
Proof.
  intros Hrow. unfold Db.apply_row, upsert.
  destruct (stored_name t) as [k'|err]; [|by eauto].
  destruct (decide (k' = k)) as [->|Hne].
  - rewrite Hrow, lookup_insert_eq. eauto.
  - destruct (tbl !! k') as [[t0 e0]|]; rewrite lookup_insert_ne by done; eauto.
Qed.

Lemma apply_rows_keep_unlisted tbl (rows : list Tuple) k (row : Tuple) (e : Extra) :
  tbl !! k = Some (row, e) ->
  exists row', foldl (Db.apply_row stored_name fresh) tbl rows !! k = Some (row', e).
Proof.
  revert tbl row. induction rows as [|t rows IH]; intros tbl row Hrow; [by eauto|].
  cbn [foldl]. destruct (apply_row_keeps_unlisted tbl t k row e Hrow) as [row' Hrow'].
  by eapply IH.
Qed.

Lemma apply_row_stores tbl t k :
  stored_name t = Ok k ->
  exists e, Db.apply_row stored_name fresh tbl t !! k = Some (t, e).
Proof.
  intros Hk. unfold Db.apply_row, upsert. rewrite Hk.
  destruct (tbl !! k) as [[t0 e0]|]; rewrite lookup_insert_eq; eauto.
Qed.

Lemma mapM_names (rows : list Tuple) (names : list string) k :
  mapM stored_name rows = Ok names ->
  k ∈ names <-> Exists (fun t => stored_name t = Ok k) rows.
Proof.
  revert names. induction rows as [|t rows IH]; intros names; cbn [mapM].
  - intros [= <-]. rewrite Exists_nil. by split; [intros ?%elem_of_nil|].
  - destruct (stored_name t) as [k'|e] eqn:Hk'; cbn [bind]; [|done].
    destruct (mapM stored_name rows) as [rest|e]; cbn [bind]; [|done].
    intros [= <-]. rewrite elem_of_cons, Exists_cons, (IH rest eq_refl).
    split; (intros [Hhere|Hlater]; [left; congruence|by right]).
Qed.

Lemma execute_values_dom tbl tbl' (rows : list Tuple) (names : list string) :
  execute_values stored_name fresh tbl rows = Ok tbl' ->
  mapM stored_name rows = Ok names ->
  dom tbl' = dom tbl ∪ list_to_set names.
Proof.
  intros [-> _]%execute_values_ok Hnames. apply set_eq. intros k.
  rewrite elem_of_union, !elem_of_dom, elem_of_list_to_set. split.
  - intros Hk. destruct (decide (k ∈ names)) as [Hnamed|Hother]; [by right|left].
    rewrite apply_rows_other in Hk; [done|].
    apply Forall_forall. intros t Hin Ht. apply Hother.
    apply (mapM_names rows names k Hnames), Exists_exists. eauto.
  - intros [Hold|Hnamed].
    + by apply apply_rows_present.
    + apply (mapM_names rows names k Hnames), Exists_exists in Hnamed as (t & Hin & Ht).
      by eapply apply_rows_files.
Qed.

(** X9.  A batch that goes through leaves every name it does not mention
    exactly as it was, deletes nothing, and leaves the columns the
    statement does not list untouched on every row that was already
    there, also on the rows it overwrites.  Afterwards the table holds
    exactly the names it held before and the names of the batch. *)
Theorem upsert_touches_only_the_batch tbl tbl' (rows : list Tuple) :
  execute_values stored_name fresh tbl rows = Ok tbl' ->
  (forall k, Forall (fun t => stored_name t <> Ok k) rows -> tbl' !! k = tbl !! k)
  /\ (forall k row e, tbl !! k = Some (row, e) -> exists row', tbl' !! k = Some (row', e))
  /\ (forall names, mapM stored_name rows = Ok names ->
        dom tbl' = dom tbl ∪ list_to_set names).
Proof.
  intros Hok. pose proof (fun names => execute_values_dom tbl tbl' rows names Hok) as Hdom.
  apply execute_values_ok in Hok as [-> _]. repeat split.
  - intros k. apply apply_rows_other.
  - intros k row e. apply apply_rows_keep_unlisted.
  - intros names. apply Hdom.
Qed.

(** X10.  The last writer wins: after a batch that goes through, the
    listed columns filed under a name are those of the last row of the
    batch with that name, whatever the table or earlier rows of the batch
    held for it. *)
Theorem upsert_last_writer_wins tbl tbl' (before after : list Tuple) (row : Tuple) k :
  execute_values stored_name fresh tbl (before ++ row :: after) = Ok tbl' ->
  stored_name row = Ok k ->
  Forall (fun t => stored_name t <> Ok k) after ->
  exists e, tbl' !! k = Some (row, e).
Proof.
  intros [-> _]%execute_values_ok Hk Hafter.
  rewrite foldl_app. cbn [foldl]. rewrite apply_rows_other by done.
  by apply apply_row_stores.
Qed.

Lemma execute_values_distinct tbl (rows : list Tuple) (names : list string) :
  mapM stored_name rows = Ok names -> NoDup names ->
  exists tbl', execute_values stored_name fresh tbl rows = Ok tbl'.
Proof.
  destruct (paginate_spec 100 [] rows) as [Hconcat _]; [cbn; lia|]. cbn [app] in Hconcat.
  intros Hnames Hnodup. rewrite execute_values_eq.
  assert (Db.batch_error stored_name (paginate 100 [] rows) = None) as ->; [|eauto].
  apply batch_error_none, Forall_forall. intros page Hpage.
  apply list_elem_of_split in Hpage as (pages1 & pages2 & Hpages).
  rewrite Hpages, concat_app in Hconcat. cbn [concat] in Hconcat.
  rewrite <- Hconcat, !mapM_app in Hnames.
  destruct (mapM stored_name (concat pages1)) as [n1|]; cbn [bind] in Hnames; [|done].
  destruct (mapM stored_name page) as [np|] eqn:Hnp; cbn [bind] in Hnames; [|done].
  destruct (mapM stored_name (concat pages2)) as [n2|]; cbn [bind] in Hnames; [|done].
  injection Hnames as <-.
  apply NoDup_app in Hnodup as (_ & _ & Hnodup).
  apply NoDup_app in Hnodup as (Hnodup & _ & _).
  apply statement_error_none. exists np. repeat split; [done..|].
  by intros k _ ?%elem_of_nil.
Qed.

(** X11.  When the upsert goes through.  Rows that are all accepted under
    names that differ from one another always do, however many they are.
    A batch that goes through holds accepted rows only; and if it is no
    longer than one page of 100 rows, their names differ from one another:
    such a batch naming one player twice is refused whole. *)
Theorem upsert_goes_through tbl (rows : list Tuple) :
  (forall names, mapM stored_name rows = Ok names -> NoDup names ->
     exists tbl', execute_values stored_name fresh tbl rows = Ok tbl')
  /\ (forall tbl', execute_values stored_name fresh tbl rows = Ok tbl' ->
        exists names, mapM stored_name rows = Ok names
                      /\ ((length rows <= 100)%nat -> NoDup names)).
Proof.
  split; [apply execute_values_distinct|].
  intros tbl' Hok. destruct (execute_values_ok _ _ _ Hok) as [_ [names Hnames]].
  exists names. split; [done|]. intros Hshort.
  destruct rows as [|row rows]; [injection Hnames as <-; constructor|].
  rewrite execute_values_eq, paginate_one_page in Hok; [|cbn; lia|done|done].
  cbn [Db.batch_error app] in Hok.
  destruct (Db.statement_error stored_name [] (row :: rows)) eqn:Herror; [done|].
  apply statement_error_none in Herror as (names' & Hnames' & Hnodup & _).
  congruence.
Qed.

End UpsertEffects.

Lemma upsert_touches_only_the_batch_witness :
  exists tbl',
    execute_values Sample.roster_name Sample.no_extra sample_table [faker_row] = Ok tbl'
    /\ tbl' !! "Caps" = sample_table !! "Caps".
Proof.
  destruct (execute_values Sample.roster_name Sample.no_extra sample_table [faker_row])
    as [tbl'|e] eqn:Hok.
  - exists tbl'. split; [reflexivity|].
    apply (proj1 (upsert_touches_only_the_batch Sample.roster_name Sample.no_extra
                    sample_table tbl' [faker_row] Hok)).
    repeat constructor. discriminate.
  - vm_compute in Hok. discriminate Hok.
Defined.

Lemma upsert_last_writer_wins_witness :
  exists tbl',
    execute_values Sample.roster_name Sample.no_extra sample_table [faker_row] = Ok tbl'
    /\ exists e, tbl' !! "Faker" = Some (faker_row, e).
Proof.
  destruct (execute_values Sample.roster_name Sample.no_extra sample_table [faker_row])
    as [tbl'|e] eqn:Hok.
  - exists tbl'. split; [reflexivity|].
    apply (upsert_last_writer_wins Sample.roster_name Sample.no_extra
             sample_table tbl' [] [] faker_row "Faker" Hok eq_refl).
    constructor.
  - vm_compute in Hok. discriminate Hok.
Defined.

Lemma upsert_goes_through_witness :
  exists tbl',
    execute_values Sample.roster_name Sample.no_extra sample_table [faker_row; caps_row]
    = Ok tbl'.
Proof.
  apply (proj1 (upsert_goes_through Sample.roster_name Sample.no_extra sample_table
                  [faker_row; caps_row]) ["Faker"; "Caps"] eq_refl).
  apply (bool_decide_unpack _). reflexivity.
Defined.

(** ** Whole runs *)

(** X12.  A run commits all of its batch or nothing: either the committed
    rows are those the run found, or the whole batch went through, in which
    case the run printed the success line with the number of rows
    submitted, closed the connection and returned.  This holds for both
    importers, every document, table and schema; in particular an error in
    a later page of a long batch leaves the earlier pages uncommitted. *)
Theorem commit_all_or_nothing :
  (forall (Extra : Type) stored_name fresh (w : world Roster.Tuple Extra),
      committed (Roster.import_players stored_name fresh w) = players w
      \/ wrote stored_name fresh w (Roster.import_players stored_name fresh w))
  /\ (forall (Extra : Type) floatstr stored_name fresh (w : world Worlds.Tuple Extra),
        committed (Worlds.import_worlds_players floatstr stored_name fresh w) = players w
        \/ wrote stored_name fresh w
             (Worlds.import_worlds_players floatstr stored_name fresh w)).
Proof.
  split.
  - intros Extra stored_name fresh w. unfold Roster.import_players.
    destruct (load w) as [data| |e]; [|by left..].
    destruct (connects w); [by left|].
    destruct (table_exists w); [|by left]. cbn [negb].
    destruct (Roster.resolve_player_list data) as [player_list|]; [|by left].
    destruct (Roster.collect_players player_list) as [[|row rows]|e]; [by left| |by left].
    destruct (execute_values _ _ _ _) as [tbl|e] eqn:Hok; [|by left].
    right. by exists (row :: rows).
  - intros Extra floatstr stored_name fresh w. unfold Worlds.import_worlds_players.
    destruct (load w) as [data| |e]; [|by left..].
    destruct (connects w); [by left|].
    destruct (table_exists w); [|by left]. cbn [negb].
    destruct (Worlds.collect_players floatstr data) as [[|row rows]|e];
      [by left| |by left].
    destruct (execute_values _ _ _ _) as [tbl|e] eqn:Hok; [|by left].
    right. by exists (row :: rows).
Qed.

(** X13.  The file comes first.  When it cannot be read or is not valid
    JSON, the run prints one line and returns without ever connecting,
    whether or not the database can be reached.  The process is terminated
    by [exit(1)] in one case only: the document was parsed and the
    connection failed; nothing is submitted or committed then. *)
Theorem file_before_database :
  (forall (Extra : Type) stored_name fresh (w : world Roster.Tuple Extra),
      ((forall data, load w <> Parsed data) ->
       exists line,
         Roster.import_players stored_name fresh w
         = Outcome [line] NotConnected None (players w) Returned)
      /\ (ended (Roster.import_players stored_name fresh w) <> Returned ->
          exists data e,
            load w = Parsed data /\ connects w = Some e
            /\ Roster.import_players stored_name fresh w
               = Outcome [msg_connect e] NotConnected None (players w) (Exited 1)))
  /\ (forall (Extra : Type) floatstr stored_name fresh (w : world Worlds.Tuple Extra),
        ((forall data, load w <> Parsed data) ->
         exists line,
           Worlds.import_worlds_players floatstr stored_name fresh w
           = Outcome [line] NotConnected None (players w) Returned)
        /\ (ended (Worlds.import_worlds_players floatstr stored_name fresh w) <> Returned ->
            exists data e,
              load w = Parsed data /\ connects w = Some e
              /\ Worlds.import_worlds_players floatstr stored_name fresh w
                 = Outcome [msg_connect e] NotConnected None (players w) (Exited 1))).
Proof.
  split.
  - intros Extra stored_name fresh w. unfold Roster.import_players.
    destruct (load w) as [data| |e]; [|split; [by eauto|done]..].
    split; [by intros Hnone; destruct (Hnone data)|].
    destruct (connects w) as [e|]; [by eauto|].
    destruct (table_exists w); [|done]. cbn [negb].
    destruct (Roster.resolve_player_list data) as [player_list|]; [|done].
    destruct (Roster.collect_players player_list) as [[|row rows]|e]; [done| |done].
    by destruct (execute_values _ _ _ _).
  - intros Extra floatstr stored_name fresh w. unfold Worlds.import_worlds_players.
    destruct (load w) as [data| |e]; [|split; [by eauto|done]..].
    split; [by intros Hnone; destruct (Hnone data)|].
    destruct (connects w) as [e|]; [by eauto|].
    destruct (table_exists w); [|done]. cbn [negb].
    destruct (Worlds.collect_players floatstr data) as [[|row rows]|e]; [done| |done].
    by destruct (execute_values _ _ _ _).
Qed.

Lemma file_before_database_witness :
  exists line,
    Roster.import_players Sample.roster_name Sample.no_extra
      (World InvalidJSON (Some (Exn DatabaseError "connection refused")) true ∅)
    = Outcome [line] NotConnected None ∅ Returned.
Proof.
  apply (proj1 (proj1 file_before_database unit Sample.roster_name Sample.no_extra
                  (World InvalidJSON (Some (Exn DatabaseError "connection refused"))
                     true ∅))).
  discriminate.
Defined.

(** ** A Worlds file from end to end *)



(** ** [json.dumps] writes ASCII *)

Lemma ascii_text_app (a b : string) :
  ascii_text a -> ascii_text b -> ascii_text (a +:+ b).
Proof.
  unfold ascii_text. rewrite chars_app. apply Forall_app_2.
Qed.

Lemma is_trail_byte (c : ascii) :
  Utf8.is_trail c = true -> 0x80 <= Utf8.byte c < 0xC0.
Proof. unfold Utf8.is_trail. lia. Qed.

(** The code points of any text are below [2^22]. *)
Lemma decode_bounded (s : list ascii) :
  Forall (fun c => 0 <= c < 0x400000) (Utf8.decode s).
Proof.
  remember (length s) as n eqn:Hn. revert s Hn.
  induction n as [n IH] using lt_wf_ind. intros s ->.
  destruct s as [|a r]; [constructor|].
  pose proof (byte_range a) as Ha. cbn [Utf8.decode].
  repeat case_match; subst;
    repeat match goal with
    | H : _ && _ = true |- _ => apply andb_true_iff in H as [? ?]
    | H : Utf8.is_trail _ = true |- _ => apply is_trail_byte in H
    end;
    (constructor; [lia|eapply IH; [|reflexivity]; cbn [length]; lia]).
Qed.

Lemma hex_digits_ascii :
  Forall (fun n => printable (Json.hex_digit n) = true) (seqZ 0 16).
Proof. apply (bool_decide_unpack _). by vm_compute. Qed.

Lemma hex_digit_ascii (n : Z) : 0 <= n < 16 -> printable (Json.hex_digit n) = true.
Proof.
  intros Hn. apply (proj1 (Forall_forall _ _) hex_digits_ascii).
  apply elem_of_seqZ. lia.
Qed.

Lemma escape_u_ascii (n : Z) : 0 <= n < 65536 -> ascii_text (Json.escape_u n).
Proof.
  intros Hn. unfold ascii_text. rewrite chars_escape_u.
  repeat (apply Forall_cons; split); try apply Forall_nil; try done;
    apply hex_digit_ascii; by_division.
Qed.

Lemma escape_char_ascii (c : Z) :
  0 <= c < 0x400000 -> ascii_text (Json.escape_char c).
Proof.
  intros Hc. unfold Json.escape_char.
  repeat case_match; try (by repeat constructor).
  - apply Forall_singleton. unfold printable, Utf8.of_byte.
    match goal with H : _ && _ = true |- _ => apply andb_true_iff in H as [Hlo Hhi] end.
    apply Z.leb_le in Hlo, Hhi. rewrite nat_ascii_embedding by lia.
    apply andb_true_iff. split; apply Nat.leb_le; lia.
  - apply escape_u_ascii. lia.
  - apply ascii_text_app; apply escape_u_ascii; by_division.
Qed.

Lemma concat_ascii (sep : string) (l : list string) :
  ascii_text sep -> Forall ascii_text l -> ascii_text (String.concat sep l).
Proof.
  intros Hsep. induction 1 as [|x l Hx Hl IH]; [constructor|].
  cbn [String.concat]. destruct l as [|y l]; [done|].
  by repeat apply ascii_text_app.
Qed.

Lemma escape_ascii (s : string) : ascii_text (Json.escape s).
Proof.
  unfold Json.escape. apply concat_ascii; [constructor|].
  apply Forall_fmap. eapply Forall_impl; [apply decode_bounded|].
  intros c Hc. by apply escape_char_ascii.
Qed.

Lemma encode_str_ascii (s : string) : ascii_text (Json.encode_str s).
Proof.
  unfold Json.encode_str.
  change (String Json.quote (Json.escape s +:+ String Json.quote ""))
    with (String Json.quote "" +:+ (Json.escape s +:+ String Json.quote "")).
  repeat apply ascii_text_app; [|apply escape_ascii|]; by repeat constructor.
Qed.

(** X17.  Whatever characters the names of a record hold, of any script,
    its [all_names] is written in printable ASCII only. *)
Theorem worlds_all_names_ascii (floatstr : Z -> string) (player_key : string)
    (d : dict) (names : list string) (r : Worlds.processed_player) :
  Worlds.process_player_data floatstr player_key (JDict d) = Ok r ->
  dict_lookup "allNames" d = Some (JList (JStr <$> names)) ->
  ascii_text (Worlds.all_names r).
Proof.
  intros Hr Hnames. apply worlds_fields in Hr as (_ & _ & -> & _). rewrite Hnames.
  cbn [Json.dumps]. repeat apply ascii_text_app; [by repeat constructor| |by repeat constructor].
  apply concat_ascii; [by repeat constructor|].
  apply Forall_forall. intros text Hin. apply list_elem_of_In, in_map_iff in Hin.
  destruct Hin as (v & <- & Hv). apply list_elem_of_In, list_elem_of_fmap in Hv.
  destruct Hv as (name & -> & _). apply encode_str_ascii.
Qed.

Lemma worlds_all_names_ascii_witness :
  ascii_text
    (Json.dumps Sample.floatstr
       (JList [JStr "Éclair"; JStr "페이커"; JStr (String (ascii_of_nat 9) "tab")])).
Proof.
  apply (worlds_all_names_ascii Sample.floatstr "p1"
           [("allNames",
             JList [JStr "Éclair"; JStr "페이커"; JStr (String (ascii_of_nat 9) "tab")])]
           ["Éclair"; "페이커"; String (ascii_of_nat 9) "tab"] _ eq_refl eq_refl).
Defined.

(** ** Birthdates, again *)

Lemma strptime_strict_text (y m d : Z) :
  0 <= y <= 9999 -> 1 <= m <= 12 -> 1 <= d <= 31 ->
  strptime_date (JStr (isoformat (Date y m d))) = make_date y m d.
Proof.
  intros Hy Hm Hd.
  destruct (year_reads y (codes (four_digits y))
              (hyphen :: codes (two_digits m) ++ hyphen :: codes (two_digits d)))
    as [Hyear Hyint]; [by apply year_spelling_four_digits|].
  destruct (month_reads m (codes (two_digits m)) (codes (two_digits d)) Hm)
    as [Hmonth Hmint].
  { apply list_elem_of_fmap_2. unfold month_texts. case_match; by left. }
  destruct (day_reads_ascii d (codes (two_digits d)) Hd) as [Hday Hdint].
  { apply list_elem_of_fmap_2. unfold day_texts. case_match; by left. }
  unfold strptime_date.
  rewrite code_points_isoformat, match_format_month by lia.
  rewrite Hyear, bind_singleton, Hmonth, bind_singleton.
  destruct (re_d _) as [|[d' r'] others]; [done|].
  cbn [head] in Hday. injection Hday as -> ->. cbn [mbind list_bind app].
  rewrite Hyint, Hmint. f_equal. exact Hdint.
Qed.

(** X15.  A birthdate written the strict way, with a month from 01 to 12
    and a day from 01 to 31, gives that date exactly when the day exists in
    that month of that year, and null otherwise: the 29th of February
    counts in leap years only, the 31st in the seven long months only, and
    the year 0000 never. *)
Theorem worlds_birthdate_calendar (floatstr : Z -> string) (player_key : string)
    (d : dict) (y m day : Z) :
  0 <= y <= 9999 -> 1 <= m <= 12 -> 1 <= day <= 31 ->
  dict_lookup "birthdate" d = Some (JStr (isoformat (Date y m day))) ->
  exists r,
    Worlds.process_player_data floatstr player_key (JDict d) = Ok r
    /\ Worlds.birthdate r
       = if (1 <=? y) && (day <=? days_in_month y m) then Some (Date y m day) else None.
Proof.
  intros Hy Hm Hd Hraw. apply worlds_birthdate_of.
  rewrite (convert_birthdate_str d _ Hraw), strptime_strict_text by done.
  unfold make_date.
  assert ((y <=? 9999) = true) as -> by lia.
  assert ((1 <=? m) && (m <=? 12) = true) as -> by lia.
  assert ((1 <=? day) = true) as -> by lia.
  rewrite andb_true_r. cbn [negb andb].
  by destruct (1 <=? y), (day <=? days_in_month y m).
Qed.

Lemma worlds_birthdate_calendar_witness :
  exists r,
    Worlds.process_player_data Sample.floatstr "p1"
      (JDict [("birthdate", JStr "1995-02-29")]) = Ok r
    /\ Worlds.birthdate r = None.
Proof.
  apply (worlds_birthdate_calendar Sample.floatstr "p1"
           [("birthdate", JStr "1995-02-29")] 1995 2 29);
    [lia..|reflexivity].
Defined.

Lemma month_spelling_length (m : Z) (mt : list Z) :
  month_spelling m mt -> (1 <= length mt <= 2)%nat.
Proof.
  unfold month_spelling, month_texts. case_match; intros Hin;
    repeat (apply elem_of_cons in Hin as [->|Hin]); try (cbn; lia);
    by apply elem_of_nil in Hin.
Qed.

Lemma day_texts_end :
  forallb (fun d =>
    forallb (fun dtx =>
      match last (codes dtx) with
      | Some c => Utf8.is_decimal c && (length dtx <=? 2)%nat
      | None => false
      end) (day_texts d)) (seqZ 1 31) = true.
Proof. by vm_compute. Qed.

Lemma day_spelling_end (d : Z) (dtx : list Z) :
  1 <= d <= 31 -> day_spelling d dtx ->
  (1 <= length dtx <= 2)%nat
  /\ exists front c, dtx = front ++ [c] /\ Utf8.is_decimal c = true.
Proof.
  intros Hd [(x & -> & Hx)%list_elem_of_fmap | (c & _ & Hc & ->)].
  - pose proof day_texts_end as Hall.
    rewrite forallb_forall in Hall.
    specialize (Hall d). rewrite <- list_elem_of_In, elem_of_seqZ in Hall.
    specialize (Hall ltac:(lia)). rewrite forallb_forall in Hall.
    specialize (Hall x). rewrite <- list_elem_of_In in Hall. specialize (Hall Hx).
    destruct (last (codes x)) as [c|] eqn:Hlast; [|done].
    apply andb_true_iff in Hall as [Hc Hlen]. apply Nat.leb_le in Hlen.
    apply last_Some in Hlast as [front Hfront]. unfold codes in *.
    split.
    + rewrite length_fmap. split; [|done].
      apply (f_equal length) in Hfront. rewrite length_fmap, length_app in Hfront.
      cbn in Hfront. lia.
    + by exists front, c.
  - split; [cbn; lia|]. eexists [_], c. split; [done|]. by eapply decimal_is_decimal.
Qed.

(** Every accepted spelling of a valid date has the shape of a date. *)
Lemma accepted_spelling_shaped (dt : date) (s : string) :
  valid_date dt -> accepted_spelling dt s -> date_shaped s.
Proof.
  intros (Hy & Hm & Hd) (yt & mt & dtx & Hyt & Hmt & Hdtx & Hs).
  assert (1 <= day dt <= 31) as Hd31.
  { unfold days_in_month in Hd. repeat case_match; lia. }
  destruct Hyt as (c1 & c2 & c3 & c4 & n1 & n2 & n3 & n4 & -> & H1 & H2 & H3 & H4 & _).
  apply month_spelling_length in Hmt.
  destruct (day_spelling_end _ _ Hd31 Hdtx) as (Hlen & front & c & -> & Hc).
  unfold date_shaped, Utf8.len. rewrite Hs. repeat split.
  - cbn [app length]. rewrite length_app. cbn [length]. lia.
  - cbn [app length]. rewrite length_app. cbn [length]. lia.
  - exists c1, c2, c3, c4, (mt ++ hyphen :: front ++ [c]). split; [done|].
    repeat constructor; by eapply decimal_is_decimal.
  - exists ([c1; c2; c3; c4] ++ hyphen :: mt ++ hyphen :: front), c.
    split; [|done]. cbn [app]. by rewrite <- !app_assoc, <- app_comm_cons.
Qed.

(** X16.  A birthdate string is always normalised, with no error, and it is
    read as a date only if it has the shape of one: eight to ten
    characters, of which the first four are decimal digits, the fifth is
    the hyphen and the last is a decimal digit.  So a timestamp, a date
    followed by a blank or a newline and a two-digit year all give a null
    birthdate. *)
Theorem worlds_birthdate_shape (floatstr : Z -> string) (player_key : string)
    (d : dict) (s : string) :
  dict_lookup "birthdate" d = Some (JStr s) ->
  exists r,
    Worlds.process_player_data floatstr player_key (JDict d) = Ok r
    /\ (Worlds.birthdate r <> None -> date_shaped s).
Proof.
  intros Hraw.
  destruct (worlds_birthdate_of floatstr player_key d _ (convert_birthdate_str d s Hraw))
    as (r & Hr & Hbirthdate).
  exists r. split; [done|]. rewrite Hbirthdate.
  destruct (strptime_date (JStr s)) as [dt|e] eqn:Hparse; [|done].
  intros _. apply strptime_date_spec in Hparse as [Hvalid Hspelling].
  by apply (accepted_spelling_shaped dt).
Qed.

Lemma worlds_birthdate_shape_witness :
  (exists r,
     Worlds.process_player_data Sample.floatstr "p1"
       (JDict [("birthdate", JStr "95-06-01")]) = Ok r
     /\ Worlds.birthdate r = None)
  /\ (exists r,
        Worlds.process_player_data Sample.floatstr "p1"
          (JDict [("birthdate", JStr "1995-6-1 ")]) = Ok r
        /\ Worlds.birthdate r = None).
Proof.
  split.
  - destruct (worlds_birthdate_shape Sample.floatstr "p1"
                [("birthdate", JStr "95-06-01")] "95-06-01" eq_refl)
      as (r & Hr & Hshape).
    exists r. split; [exact Hr|].
    destruct (Worlds.birthdate r) as [dt|]; [|reflexivity].
    destruct (Hshape ltac:(discriminate))
      as (_ & (c1 & c2 & c3 & c4 & rest & Htext & Hdigits) & _).
    vm_compute in Htext. injection Htext as <- <- <- <- _.
    apply Forall_cons in Hdigits as [_ Hdigits].
    apply Forall_cons in Hdigits as [_ Hdigits].
    apply Forall_cons in Hdigits as [Hthird _]. discriminate Hthird.
  - destruct (worlds_birthdate_shape Sample.floatstr "p1"
                [("birthdate", JStr "1995-6-1 ")] "1995-6-1 " eq_refl)
      as (r & Hr & Hshape).
    exists r. split; [exact Hr|].
    destruct (Worlds.birthdate r) as [dt|]; [|reflexivity].
    destruct (Hshape ltac:(discriminate)) as (_ & _ & front & c & Htext & Hc).
    vm_compute in Htext.
    change [49; 57; 57; 53; 45; 54; 45; 49; 32]
      with ([49; 57; 57; 53; 45; 54; 45; 49] ++ [32]) in Htext.
    apply app_inj_tail in Htext as [_ <-]. discriminate Hc.
Defined.
